(** * The [task] command line tool: a model of its configuration, duration,
      filter and persistence logic, and the properties it satisfies.

    Sources embedded here:
    - [packages/task/common/types.ts]: the schemas, [parseDuration],
      [default_Config], [AppError], [tryAppResult], [trySafeParse];
    - [packages/task/cli/common.ts]: the file paths;
    - [packages/task/cli/task.ts]: the commands and their helpers.

    Conventions.
    - A JavaScript string is a [string] holding its UTF-8 bytes.  The
      separators the program splits on are ASCII, so splitting the bytes and
      splitting the code units agree.
    - A JavaScript number is a binary64 number, the kernel's [float]: its
      arithmetic rounds to nearest, ties to even, and has the infinities,
      negative zero and NaN.  The time value of a date is an integer number
      of milliseconds ([Z], at most 8.64e15 in magnitude, so a binary64
      number holds it exactly); an invalid date (whose [getTime()] is NaN) is
      [None].
    - A thrown exception is a value of [error]; a command runs in the
      monad [M] over the [world] (files, clock, chat endpoint, console). *)

From Stdlib Require Import String Ascii List ZArith QArith Lia Bool.
From Stdlib Require Import Floats.PrimFloat Floats.SpecFloat Floats.FloatOps.
From Stdlib Require Import Floats.FloatAxioms.
From Stdlib Require Numbers.Cyclic.Int63.Uint63.
From stdpp Require Import gmap strings list.

#[local] Set Warnings "-register-all".
#[local] Open Scope string_scope.
#[local] Open Scope Z_scope.

(* ========================================================================= *)
(** * JavaScript strings: [trim] and [split]                                  *)
(* ========================================================================= *)

Module JsString.

Definition code (c : ascii) : N := N_of_ascii c.

(** One-byte white space and line terminators: TAB, LF, VT, FF, CR, SP. *)
Definition ws1 (a : ascii) : bool :=
  ((9 <=? code a) && (code a <=? 13) || (code a =? 32))%N.

(** Two-byte white space: U+00A0. *)
Definition ws2 (a b : ascii) : bool :=
  ((code a =? 194) && (code b =? 160))%N.

(** Three-byte white space: U+1680, U+2000..U+200A, U+2028, U+2029,
    U+202F, U+205F, U+3000, U+FEFF. *)
Definition ws3 (a b c : ascii) : bool :=
  ((code a =? 225) && (code b =? 154) && (code c =? 128)
   || (code a =? 226) && (code b =? 128)
      && ((128 <=? code c) && (code c <=? 138)
          || (code c =? 168) || (code c =? 169) || (code c =? 175))
   || (code a =? 226) && (code b =? 129) && (code c =? 159)
   || (code a =? 227) && (code b =? 128) && (code c =? 128)
   || (code a =? 239) && (code b =? 187) && (code c =? 191))%N.

(** Drops leading white space; [w2] and [w3] recognise the multi-byte
    sequences in the order the bytes are met. *)
Fixpoint strip (w2 : ascii -> ascii -> bool)
    (w3 : ascii -> ascii -> ascii -> bool) (s : string) : string :=
  match s with
  | EmptyString => s
  | String a s1 =>
      if ws1 a then strip w2 w3 s1 else
      match s1 with
      | EmptyString => s
      | String b s2 =>
          if w2 a b then strip w2 w3 s2 else
          match s2 with
          | EmptyString => s
          | String c s3 => if w3 a b c then strip w2 w3 s3 else s
          end
      end
  end.

Definition trimStart (s : string) : string := strip ws2 ws3 s.

Definition trimEnd (s : string) : string :=
  String.rev (strip (fun a b => ws2 b a) (fun a b c => ws3 c b a)
                (String.rev s)).

(** [String.prototype.trim]. *)
Definition trim (s : string) : string := trimEnd (trimStart s).

(** [String.prototype.split] with a one-character separator: the result
    is never empty, and the empty string splits into one empty token. *)
Fixpoint split (sep : ascii) (s : string) : list string :=
  match s with
  | EmptyString => [EmptyString]
  | String c s' =>
      if Ascii.eqb c sep then EmptyString :: split sep s'
      else match split sep s' with
           | tok :: rest => String c tok :: rest
           | [] => [String c EmptyString]
           end
  end.

(** Comparison with the empty string. *)
Definition is_empty (s : string) : bool :=
  match s with EmptyString => true | _ => false end.

End JsString.

(* ========================================================================= *)
(** * JavaScript numbers                                                      *)
(* ========================================================================= *)

Module Binary64.

(** [num / den] rounded to the nearest integer, a tie to the even one, for
    [0 <= num] and [0 < den]. *)
Definition round_half_even (num den : Z) : Z :=
  let q := num / den in
  match 2 * (num mod den) ?= den with
  | Lt => q
  | Gt => q + 1
  | Eq => if Z.even q then q else q + 1
  end.

(** The integer [l] with [2 ^ l <= a / b < 2 ^ (l + 1)], for positive [a]
    and [b]. *)
Definition floor_log2 (a b : Z) : Z :=
  let l := Z.log2 a - Z.log2 b in
  if b * 2 ^ Z.max 0 l <=? a * 2 ^ Z.max 0 (- l) then l else l - 1.

(** The binary64 number nearest to [a / b], negated when [neg], for
    [0 <= a] and [0 < b]: the number a decimal numeral denotes.  The
    significand has 53 bits, fewer below [2 ^ -1022]; a magnitude that
    rounds to [2 ^ 1024] or more gives an infinity, one that rounds to
    nothing gives a zero. *)
Definition nearest (neg : bool) (a b : Z) : float :=
  if a =? 0 then SF2Prim (S754_zero neg) else
  let e := Z.max (floor_log2 a b - 52) (- 1074) in
  let m := round_half_even (a * 2 ^ Z.max 0 (- e)) (b * 2 ^ Z.max 0 e) in
  if m =? 0 then SF2Prim (S754_zero neg)
  else if (971 <? e) || (e =? 971) && (2 ^ 53 <=? m)
  then SF2Prim (S754_infinity neg)
  else SF2Prim (S754_finite neg (Z.to_pos m) e).

(** An integer as a number: exact up to [2 ^ 53] in magnitude, which covers
    every time value. *)
Definition of_Z (z : Z) : float :=
  match z with
  | Z0 => PrimFloat.zero
  | Zpos _ => PrimFloat.of_uint63 (Uint63.of_Z z)
  | Zneg p => PrimFloat.opp (PrimFloat.of_uint63 (Uint63.of_Z (Zpos p)))
  end.

(** The rational a finite number is, in lowest terms. *)
Definition value (x : float) : option Q :=
  match Prim2SF x with
  | S754_zero _ => Some (inject_Z 0)
  | S754_finite s m e =>
      let z := if s then Zneg m else Zpos m in
      Some (if 0 <=? e then inject_Z (z * 2 ^ e)
            else Qred (Qmake z (Z.to_pos (2 ^ (- e)))))
  | S754_infinity _ | S754_nan => None
  end.

(** The numbers that [JSON.stringify] writes as a numeral denoting them:
    the finite ones other than negative zero. *)
Definition writable (x : float) : Prop :=
  PrimFloat.is_finite x = true
  /\ (PrimFloat.is_zero x = true -> x = PrimFloat.zero).

End Binary64.

(* ========================================================================= *)
(** * JSON values and [JSON.parse]                                            *)
(* ========================================================================= *)

(** A JSON object is a finite map: a repeated key keeps its last value, as
    [JSON.parse] does, and the schemas below read fields by name only. *)
Inductive json : Type :=
| JNull
| JBool (b : bool)
| JNumber (x : float)
| JString (s : string)
| JArray (items : list json)
| JObject (fields : gmap string json).

Module Json.

Import JsString.

Definition ch (x : string) (c : ascii) : bool :=
  match x with
  | String d EmptyString => Ascii.eqb c d
  | _ => false
  end.

(** JSON white space: SP, TAB, LF, CR. *)
Definition is_ws (c : ascii) : bool :=
  ((code c =? 32) || (code c =? 9) || (code c =? 10) || (code c =? 13))%N.

Fixpoint skip_ws (s : string) : string :=
  match s with
  | String c s' => if is_ws c then skip_ws s' else s
  | EmptyString => s
  end.

Fixpoint strip_prefix (p s : string) : option string :=
  match p, s with
  | EmptyString, _ => Some s
  | String a p', String b s' => if Ascii.eqb a b then strip_prefix p' s' else None
  | String _ _, EmptyString => None
  end.

(** ** Numbers *)

Definition digit (c : ascii) : option Z :=
  if ((48 <=? code c) && (code c <=? 57))%N
  then Some (Z.of_N (code c) - 48) else None.

(** Reads the longest run of digits: the number it denotes after [acc],
    how many digits were read, and the rest. *)
Fixpoint digits (s : string) (acc : Z) (count : Z) : Z * Z * string :=
  match s with
  | String c s' =>
      match digit c with
      | Some d => digits s' (10 * acc + d) (count + 1)
      | None => (acc, count, s)
      end
  | EmptyString => (acc, count, s)
  end.

(** The number nearest to [m * 10 ^ e], negated when [neg]. *)
Definition scale10 (neg : bool) (m e : Z) : float :=
  if 0 <=? e then Binary64.nearest neg (m * 10 ^ e) 1
  else Binary64.nearest neg m (10 ^ (- e)).

(** The integer part: a lone [0], or a run of digits not starting with [0]. *)
Definition int_part (s : string) : option (Z * string) :=
  match s with
  | String c s' =>
      match digit c with
      | Some 0 => Some (0, s')
      | Some d => let '(m, _, r) := digits s' d 1 in Some (m, r)
      | None => None
      end
  | EmptyString => None
  end.

(** The optional fraction: the mantissa extended by the fraction digits and
    their count. *)
Definition frac_part (m : Z) (s : string) : option (Z * Z * string) :=
  match s with
  | String c s' =>
      if ch "." c then
        let '(m', k, r) := digits s' m 0 in
        if k =? 0 then None else Some (m', k, r)
      else Some (m, 0, s)
  | EmptyString => Some (m, 0, s)
  end.

(** The optional exponent. *)
Definition exp_part (s : string) : option (Z * string) :=
  match s with
  | String c s' =>
      if ch "e" c || ch "E" c then
        let '(neg, s1) :=
          match s' with
          | String sg s'' =>
              if ch "-" sg then (true, s'')
              else if ch "+" sg then (false, s'') else (false, s')
          | EmptyString => (false, s')
          end in
        let '(e, k, r) := digits s1 0 0 in
        if k =? 0 then None else Some (if neg then - e else e, r)
      else Some (0, s)
  | EmptyString => Some (0, s)
  end.

Definition parse_number (s : string) : option (float * string) :=
  let '(neg, s1) :=
    match s with
    | String c s' => if ch "-" c then (true, s') else (false, s)
    | EmptyString => (false, s)
    end in
  match int_part s1 with
  | None => None
  | Some (m, s2) =>
      match frac_part m s2 with
      | None => None
      | Some (m', k, s3) =>
          match exp_part s3 with
          | None => None
          | Some (e, s4) =>
              Some (scale10 neg m' (e - k), s4)
          end
      end
  end.

(** ** Strings *)

Definition hex (c : ascii) : option N :=
  let n := code c in
  (if (48 <=? n) && (n <=? 57) then Some (n - 48)
   else if (65 <=? n) && (n <=? 70) then Some (n - 55)
   else if (97 <=? n) && (n <=? 102) then Some (n - 87)
   else None)%N.

(** The UTF-8 bytes of a code point (a lone surrogate is written as it
    stands, on three bytes). *)
Definition utf8 (cp : N) : list ascii :=
  (if cp <? 128 then [ascii_of_N cp]
   else if cp <? 2048 then
     [ascii_of_N (192 + cp / 64); ascii_of_N (128 + cp mod 64)]
   else if cp <? 65536 then
     [ascii_of_N (224 + cp / 4096); ascii_of_N (128 + (cp / 64) mod 64);
      ascii_of_N (128 + cp mod 64)]
   else
     [ascii_of_N (240 + cp / 262144); ascii_of_N (128 + (cp / 4096) mod 64);
      ascii_of_N (128 + (cp / 64) mod 64); ascii_of_N (128 + cp mod 64)])%N.

Definition is_high (u : N) : bool := ((55296 <=? u) && (u <=? 56319))%N.
Definition is_low (u : N) : bool := ((56320 <=? u) && (u <=? 57343))%N.
Definition pair_up (hi lo : N) : N :=
  (65536 + (hi - 55296) * 1024 + (lo - 56320))%N.

(** The character a one-letter escape stands for. *)
Definition escape (e : ascii) : option ascii :=
  if (code e =? 34)%N || (code e =? 92)%N || ch "/" e then Some e
  else if ch "b" e then Some (ascii_of_N 8)
  else if ch "f" e then Some (ascii_of_N 12)
  else if ch "n" e then Some (ascii_of_N 10)
  else if ch "r" e then Some (ascii_of_N 13)
  else if ch "t" e then Some (ascii_of_N 9)
  else None.

(** The characters of a string literal after its opening quote, up to the
    closing quote.  [acc] holds the bytes read so far, last first;
    [pending] is a high surrogate escape waiting for its low half. *)
Fixpoint chars (s : string) (pending : option N) (acc : list ascii)
    : option (string * string) :=
  let flush :=
    match pending with Some hi => (rev (utf8 hi) ++ acc)%list | None => acc end in
  match s with
  | EmptyString => None
  | String c s1 =>
      if (code c =? 34)%N then Some (string_of_list_ascii (rev flush), s1)
      else if (code c =? 92)%N then
        match s1 with
        | EmptyString => None
        | String e s2 =>
            if ch "u" e then
              match s2 with
              | String h1 (String h2 (String h3 (String h4 s3))) =>
                  match hex h1, hex h2, hex h3, hex h4 with
                  | Some x1, Some x2, Some x3, Some x4 =>
                      let u := (((x1 * 16 + x2) * 16 + x3) * 16 + x4)%N in
                      if is_high u then chars s3 (Some u) flush
                      else if is_low u then
                        match pending with
                        | Some hi =>
                            chars s3 None (rev (utf8 (pair_up hi u)) ++ acc)%list
                        | None => chars s3 None (rev (utf8 u) ++ acc)%list
                        end
                      else chars s3 None (rev (utf8 u) ++ flush)%list
                  | _, _, _, _ => None
                  end
              | _ => None
              end
            else
              match escape e with
              | Some x => chars s2 None (x :: flush)
              | None => None
              end
        end
      else if (code c <? 32)%N then None
      else chars s1 None (c :: flush)
  end.

(** ** Values *)

Definition literal (word : string) (v : json) (s : string)
    : option (json * string) :=
  match strip_prefix word s with
  | Some r => Some (v, r)
  | None => None
  end.

(** Recursive descent; every call on a nested value spends one unit of
    [fuel], and a text of [n] characters needs at most [2 * n + 2]. *)
Fixpoint value (fuel : nat) (s : string) : option (json * string) :=
  match fuel with
  | O => None
  | S fuel' =>
      match skip_ws s with
      | EmptyString => None
      | String c r as s0 =>
          if ch "{" c then
            match skip_ws r with
            | String c' r' =>
                if ch "}" c' then Some (JObject ∅, r')
                else members fuel' r ∅
            | EmptyString => None
            end
          else if ch "[" c then
            match skip_ws r with
            | String c' r' =>
                if ch "]" c' then Some (JArray [], r')
                else elements fuel' r []
            | EmptyString => None
            end
          else if (code c =? 34)%N then
            match chars r None [] with
            | Some (str, r') => Some (JString str, r')
            | None => None
            end
          else if ch "t" c then literal "true" (JBool true) s0
          else if ch "f" c then literal "false" (JBool false) s0
          else if ch "n" c then literal "null" JNull s0
          else
            match parse_number s0 with
            | Some (x, r') => Some (JNumber x, r')
            | None => None
            end
      end
  end
with elements (fuel : nat) (s : string) (acc : list json)
    : option (json * string) :=
  match fuel with
  | O => None
  | S fuel' =>
      match value fuel' s with
      | None => None
      | Some (v, r) =>
          match skip_ws r with
          | String c r' =>
              if ch "," c then elements fuel' r' (v :: acc)
              else if ch "]" c then Some (JArray (rev (v :: acc)), r')
              else None
          | EmptyString => None
          end
      end
  end
with members (fuel : nat) (s : string) (acc : gmap string json)
    : option (json * string) :=
  match fuel with
  | O => None
  | S fuel' =>
      match skip_ws s with
      | EmptyString => None
      | String q r =>
          if (code q =? 34)%N then
            match chars r None [] with
            | None => None
            | Some (k, r1) =>
                match skip_ws r1 with
                | EmptyString => None
                | String c r2 =>
                    if ch ":" c then
                      match value fuel' r2 with
                      | None => None
                      | Some (v, r3) =>
                          match skip_ws r3 with
                          | EmptyString => None
                          | String c' r4 =>
                              if ch "," c' then
                                members fuel' r4 (<[k:=v]> acc)
                              else if ch "}" c' then
                                Some (JObject (<[k:=v]> acc), r4)
                              else None
                          end
                      end
                    else None
                end
            end
          else None
      end
  end.

End Json.

(** [JSON.parse]: [None] stands for the [SyntaxError] it throws. *)
Definition JSON_parse (s : string) : option json :=
  match Json.value (2 * String.length s + 2)%nat s with
  | Some (v, r) =>
      if JsString.is_empty (Json.skip_ws r) then Some v else None
  | None => None
  end.

(** A text without the byte order mark (U+FEFF, the bytes EF BB BF) it may
    start with: what the platform decodes the bytes of a file to. *)
Definition strip_BOM (text : string) : string :=
  match text with
  | String a (String b (String c rest)) =>
      if ((JsString.code a =? 239) && (JsString.code b =? 187)
          && (JsString.code c =? 191))%N
      then rest else text
  | _ => text
  end.

(* ========================================================================= *)
(** * Errors ([types.ts], section AppError)                                   *)
(* ========================================================================= *)

(** What can be thrown.  [AppError] is the class of the program; the others
    are raised by the platform and are never instances of [AppError]. *)
Inductive error : Type :=
| AppError (msg : app_message)
| SyntaxError                    (* [JSON.parse], [.json()] on malformed text *)
| FileNotFound (path : string)   (* [.json()] on a file that does not exist *)
| TypeError                      (* a property read on [undefined] *)
| RequestError                   (* thrown by a call to [create] *)
with app_message : Type :=
| ParseErrorAt (label : string)        (* [trySafeParse] *)
| InvalidDuration (s : string)         (* [parseDuration] *)
| NullContent                          (* the reply's content is null *)
| ShortDescriptionError (cause : error). (* [generate_short_description] *)

(** [error instanceof AppError] *)
Definition instanceof_AppError (e : error) : bool :=
  match e with AppError _ => true | _ => false end.

(** The result of an expression that may throw. *)
Inductive outcome (A : Type) : Type :=
| Return (a : A)
| Throw (e : error).
Arguments Return {A} a.
Arguments Throw {A} e.

Definition obind {A B} (x : outcome A) (k : A -> outcome B) : outcome B :=
  match x with
  | Return a => k a
  | Throw e => Throw e
  end.

Declare Scope outcome_scope.
Delimit Scope outcome_scope with outcome.
Notation "'let!' x ':=' c 'in' k" := (obind c (fun x => k))
  (at level 10, x pattern, c at level 100, k at level 200) : outcome_scope.

(** [trySafeParse]: a failed schema check becomes an [AppError] that names
    the label (the schema library's own report is not kept). *)
Definition trySafeParse {U} (label : string) (pr : option U) : outcome U :=
  match pr with
  | None => Throw (AppError (ParseErrorAt label))
  | Some data => Return data
  end.

(* ========================================================================= *)
(** * Types and schemas ([types.ts], section types)                           *)
(* ========================================================================= *)

Record Task : Type := {
  date : string;
  description : string;
  short_description : option string;
  tags : option (list string);
}.

Definition Tasks : Type := list Task.

Inductive TimeUnit : Type := Min | Hour | Day | Week | Year.

Record Duration : Type := { n : float; unit : TimeUnit }.

Record Config : Type := {
  baseURL : option string;
  apiKey : option string;
  model : option string;
  recency : option Duration;
}.

(** A schema checks a JavaScript value, here a [json]: [None] is
    [success: false]. *)
Module Schema.

Definition string_ (j : json) : option string :=
  match j with JString s => Some s | _ => None end.

(** [z.number()]: the infinities pass; NaN, which no JSON text denotes,
    does not occur. *)
Definition number (j : json) : option float :=
  match j with JNumber x => Some x | _ => None end.

(** [z.optional(inner)] on the field of an object: an absent key is
    accepted and stays undefined. *)
Definition optional {A} (inner : json -> option A) (field : option json)
    : option (option A) :=
  match field with
  | None => Some None
  | Some j => match inner j with Some a => Some (Some a) | None => None end
  end.

(** A required field of an object. *)
Definition required {A} (inner : json -> option A) (field : option json)
    : option A :=
  match field with
  | None => None
  | Some j => inner j
  end.

Fixpoint all {A} (inner : json -> option A) (items : list json)
    : option (list A) :=
  match items with
  | [] => Some []
  | j :: rest =>
      match inner j, all inner rest with
      | Some a, Some l => Some (a :: l)
      | _, _ => None
      end
  end.

(** [z.array(inner)] *)
Definition array {A} (inner : json -> option A) (j : json)
    : option (list A) :=
  match j with JArray items => all inner items | _ => None end.

End Schema.

Definition Task_schema (j : json) : option Task :=
  match j with
  | JObject o =>
      match Schema.required Schema.string_ (o !! "date"),
            Schema.required Schema.string_ (o !! "description"),
            Schema.optional Schema.string_ (o !! "short_description"),
            Schema.optional (Schema.array Schema.string_) (o !! "tags") with
      | Some d, Some ds, Some sd, Some tg =>
          Some {| date := d; description := ds;
                  short_description := sd; tags := tg |}
      | _, _, _, _ => None
      end
  | _ => None
  end.

Definition Tasks_schema (j : json) : option Tasks :=
  Schema.array Task_schema j.

(** The union of the five literals. *)
Definition TimeUnit_schema (j : json) : option TimeUnit :=
  match j with
  | JString s =>
      if String.eqb s "min" then Some Min
      else if String.eqb s "hour" then Some Hour
      else if String.eqb s "day" then Some Day
      else if String.eqb s "week" then Some Week
      else if String.eqb s "year" then Some Year
      else None
  | _ => None
  end.

Definition Duration_schema (j : json) : option Duration :=
  match j with
  | JObject o =>
      match Schema.required Schema.number (o !! "n"),
            Schema.required TimeUnit_schema (o !! "unit") with
      | Some x, Some u => Some {| n := x; unit := u |}
      | _, _ => None
      end
  | _ => None
  end.

Definition Config_schema (j : json) : option Config :=
  match j with
  | JObject o =>
      match Schema.optional Schema.string_ (o !! "baseURL"),
            Schema.optional Schema.string_ (o !! "apiKey"),
            Schema.optional Schema.string_ (o !! "model"),
            Schema.optional Duration_schema (o !! "recency") with
      | Some b, Some a, Some m, Some r =>
          Some {| baseURL := b; apiKey := a; model := m; recency := r |}
      | _, _, _, _ => None
      end
  | _ => None
  end.

(** [Config_schema.keyof()]: the names of the four fields. *)
Inductive Config_key : Type := Key_baseURL | Key_apiKey | Key_model | Key_recency.

Definition Config_keyof (j : json) : option Config_key :=
  match j with
  | JString s =>
      if String.eqb s "baseURL" then Some Key_baseURL
      else if String.eqb s "apiKey" then Some Key_apiKey
      else if String.eqb s "model" then Some Key_model
      else if String.eqb s "recency" then Some Key_recency
      else None
  | _ => None
  end.

Definition default_Config : Config := {|
  baseURL := Some "http://localhost:11434/v1";
  apiKey := Some "ollama";
  model := Some "llama3.2:latest";
  recency := Some {| n := 1; unit := Day |};
|}.

(** ** [parseDuration] *)

Section parseDuration.
#[local] Open Scope outcome_scope.

(** The inner [go]: [ss0] and [ss1] are the two tokens. *)
Definition parseDuration_go (ss0 ss1 : string) : outcome Duration :=
  match JSON_parse ss0 with
  | None => Throw SyntaxError
  | Some v =>
      let! x := trySafeParse "number" (Schema.number v) in
      let! u := trySafeParse "unit" (TimeUnit_schema (JString ss1)) in
      Return {| n := x; unit := u |}
  end.

Definition parseDuration (s : string) : outcome Duration :=
  let error := AppError (InvalidDuration s) in
  let s := JsString.trim s in
  match JsString.split " " s with
  | [ss0; ss1] => parseDuration_go ss0 ss1
  | _ =>
      match JsString.split "." s with
      | [ss0; ss1] => parseDuration_go ss0 ss1
      | _ => Throw error
      end
  end.

End parseDuration.

(* ========================================================================= *)
(** * The time-window filter ([task.ts], lines 263-281)                       *)
(* ========================================================================= *)

(** Each [*] is the binary64 product, and the products are taken from the
    left. *)
Definition getTime_Duration (d : Duration) : float :=
  match unit d with
  | Min => n d * 1000 * 60
  | Hour => n d * 1000 * 60 * 60
  | Day => n d * 1000 * 60 * 60 * 24
  | Week => n d * 1000 * 60 * 60 * 24 * 7
  | Year => n d * 1000 * 60 * 60 * 24 * 265
  end%float.

Section Filter.

(** [(new Date(s)).getTime()]: the instant in milliseconds, or [None] when
    the date is invalid and the method returns NaN.  How a date string is
    read is left to the platform. *)
Variable Date_getTime : string -> option Z.

(** The callback of the filter: [<=] on binary64 numbers; a comparison with
    NaN is false. *)
Definition is_recent (cutoff_time : float) (task : Task) : bool :=
  match Date_getTime (date task) with
  | Some t => (cutoff_time <=? Binary64.of_Z t)%float
  | None => false
  end.

(** [extract_recent_tasks], given the instant [now] that its [new Date()]
    reads. *)
Definition extract_recent_tasks_at (now : Z) (tasks : list Task)
    (d : Duration) : list Task :=
  let cutoff_time := (Binary64.of_Z now - getTime_Duration d)%float in
  List.filter (is_recent cutoff_time) tasks.

End Filter.

(** ** Arrays as objects

    The functions above take an array by its elements.  An array is a
    mutable object, though, and [Array.prototype.filter] builds a new one:
    this store of arrays says so. *)
Module Arrays.

Abbreviation ref := nat (only parsing).

(** The elements each live array holds. *)
Abbreviation store := (gmap nat (list Task)) (only parsing).

(** A reference no array of the store uses. *)
Definition fresh_ref (h : store) : ref := fresh (dom h).

(** [a.filter(p)]: allocates the result, leaves [a] alone. *)
Definition filter (p : Task -> bool) (a : ref) (h : store)
    : option (ref * store) :=
  match h !! a with
  | Some elems =>
      let r := fresh_ref h in Some (r, <[r := List.filter p elems]> h)
  | None => None
  end.

(** [extract_recent_tasks] on a reference. *)
Definition extract_recent_tasks (Date_getTime : string -> option Z)
    (now : Z) (tasks : ref) (d : Duration) (h : store)
    : option (ref * store) :=
  let cutoff_time := (Binary64.of_Z now - getTime_Duration d)%float in
  filter (is_recent Date_getTime cutoff_time) tasks h.

End Arrays.

(** ** The tag filter of [show] ([task.ts], line 136) *)

(** [ts.includes(tag)] *)
Definition includes (ts : list string) (tag : string) : bool :=
  existsb (String.eqb tag) ts.

(** The callback:
    [task.tags !== undefined && !tags.every(tag => !task.tags!.includes(tag))] *)
Definition has_some_tag (filter_tags : list string) (task : Task) : bool :=
  match tags task with
  | None => false
  | Some ts => negb (forallb (fun tag => negb (includes ts tag)) filter_tags)
  end.

(** The statement [if (tags.length > 0) { recent_tasks = recent_tasks.filter(...) }]:
    the tasks [show] goes on with. *)
Definition select_by_tags (filter_tags : list string)
    (recent_tasks : list Task) : list Task :=
  if (0 <? length filter_tags)%nat
  then List.filter (has_some_tag filter_tags) recent_tasks
  else recent_tasks.

(* ========================================================================= *)
(** * The world a command runs in                                             *)
(* ========================================================================= *)

(** The two fixed system instructions. *)
Inductive system_prompt : Type := SummarizePrompt | ShortDescriptionPrompt.

(** The arguments of a call to [client.chat.completions.create]: the
    settings of the client it is made on, and the two messages. *)
Record chat_request : Type := {
  req_baseURL : string;
  req_apiKey : string;
  req_model : string;
  req_system : system_prompt;
  req_user : string;
}.

(** How a call to [create] ends: it throws (network, authentication, rate
    limit; the client is built with its default settings, so it has by then
    sent again, on its own, a request that failed in a way it retries), or
    it returns a completion with choices, each with a message content that
    may be null. *)
Inductive chat_response : Type :=
| Rejected
| Completed (choices : list (option string)).

(** What is printed.  The wording of a line is not kept, its data is. *)
Inductive output : Type :=
| LogConfigUpdated (path : string)              (* [config-set] *)
| LogConfig (c : Config)                        (* [config-show] *)
| LogCreated (recent : nat) (d : Duration)      (* [new] *)
| LogGenerating (description : string)          (* [gen-short-descriptions] *)
| LogGenerated (short_description : string)
| LogGeneratedCount (count : nat)
| LogTasks (short : bool) (shown : list Task)   (* [show] *)
| LogNoTasks
| LogSummary (summary : option string)          (* [summarize]; [None] prints as null *)
| ErrorMessage (msg : app_message).             (* [console.error] in [tryAppResult] *)

Record world : Type := {
  files : gmap string string;     (* the text of each file that exists *)
  requests : list chat_request;   (* the calls to [create], latest first *)
  ticks : nat;                    (* how many times the clock was read *)
  console : list output;          (* what was printed, latest first *)
}.

(** A computation that may throw, in a world it may change.  What was done
    before a throw stays done. *)
Definition M (A : Type) : Type := world -> outcome A * world.

Definition ret {A} (a : A) : M A := fun w => (Return a, w).

Definition throw {A} (e : error) : M A := fun w => (Throw e, w).

Definition bind {A B} (c : M A) (k : A -> M B) : M B :=
  fun w =>
    match c w with
    | (Return a, w') => k a w'
    | (Throw e, w') => (Throw e, w')
    end.

Definition lift {A} (o : outcome A) : M A := fun w => (o, w).

(** [try { body } catch (error) { handler }] *)
Definition try_catch {A} (body : M A) (handler : error -> M A) : M A :=
  fun w =>
    match body w with
    | (Return a, w') => (Return a, w')
    | (Throw e, w') => handler e w'
    end.

Declare Scope M_scope.
Delimit Scope M_scope with M.
Notation "x <- c ;; k" := (bind c (fun x => k))
  (at level 100, c at next level, right associativity) : M_scope.
Notation "c ;;; k" := (bind c (fun _ => k))
  (at level 100, right associativity) : M_scope.

(** The four ways a world changes. *)
Definition printed (o : output) (w : world) : world :=
  {| files := files w; requests := requests w; ticks := ticks w;
     console := o :: console w |}.

Definition ticked (w : world) : world :=
  {| files := files w; requests := requests w; ticks := S (ticks w);
     console := console w |}.

Definition sent (req : chat_request) (w : world) : world :=
  {| files := files w; requests := req :: requests w; ticks := ticks w;
     console := console w |}.

Definition written (path text : string) (w : world) : world :=
  {| files := <[path := text]> (files w); requests := requests w;
     ticks := ticks w; console := console w |}.

Definition console_log (o : output) : M Datatypes.unit :=
  fun w => (Return tt, printed o w).

(** [tryAppResult]: an [AppError] is printed and the command returns;
    anything else is thrown again. *)
Definition tryAppResult {T} (k : M T) : M Datatypes.unit :=
  try_catch (bind k (fun _ => ret tt))
    (fun error =>
       match error with
       | AppError msg => console_log (ErrorMessage msg)
       | _ => throw error
       end).

(** ** [common.ts] *)

Record Argv : Type := { dir : string; config : string }.

Definition get_config_filepath (argv : Argv) : string :=
  dir argv ++ "/config.json".

Definition get_tasks_filepath (argv : Argv) : string :=
  dir argv ++ "/tasks.json".

(** ** What is written to a file *)

(** A number as [JSON.stringify] writes it: a finite one as a numeral
    (negative zero as [0]), an infinity or NaN as [null]. *)
Definition encode_number (x : float) : json :=
  if PrimFloat.is_finite x
  then JNumber (if PrimFloat.is_zero x then PrimFloat.zero else x)
  else JNull.

Definition encode_Duration (d : Duration) : json :=
  JObject (<["n" := encode_number (n d)]>
           (<["unit" := JString match unit d with
                                | Min => "min" | Hour => "hour" | Day => "day"
                                | Week => "week" | Year => "year"
                                end]> ∅)).

(** Adds a key when its value is defined: [JSON.stringify] leaves out an
    undefined field. *)
Definition put {A} (key : string) (enc : A -> json) (field : option A)
    (o : gmap string json) : gmap string json :=
  match field with
  | Some a => <[key := enc a]> o
  | None => o
  end.

Definition encode_Config (c : Config) : json :=
  JObject (put "baseURL" JString (baseURL c)
          (put "apiKey" JString (apiKey c)
          (put "model" JString (model c)
          (put "recency" encode_Duration (recency c) ∅)))).

Definition encode_Task (t : Task) : json :=
  JObject (<["date" := JString (date t)]>
          (<["description" := JString (description t)]>
          (put "short_description" JString (short_description t)
          (put "tags" (fun ts => JArray (map JString ts)) (tags t) ∅)))).

Definition encode_Tasks (ts : list Task) : json := JArray (map encode_Task ts).

(* ========================================================================= *)
(** * The commands ([task.ts])                                                *)
(* ========================================================================= *)

(** [config.f !== undefined ? config.f : default_Config.f!], and
    [config.f ?? default_Config.f!].  The default config defines every
    field, so the last case is never reached. *)
Definition or_default {A} (f : Config -> option A) (fallback : A)
    (c : Config) : A :=
  match f c with
  | Some v => v
  | None => match f default_Config with Some v => v | None => fallback end
  end.

Definition newline : string := String (ascii_of_N 10) EmptyString.

Fixpoint join (sep : string) (parts : list string) : string :=
  match parts with
  | [] => EmptyString
  | [x] => x
  | x :: rest => x ++ sep ++ join sep rest
  end.

(** The request [summarize] sends for the tasks it selected: the
    descriptions, each trimmed, joined by blank lines under a heading. *)
Definition summarize_request (cfg : Config) (recent_tasks : list Task)
    : chat_request := {|
  req_baseURL := or_default baseURL EmptyString cfg;
  req_apiKey := or_default apiKey EmptyString cfg;
  req_model := or_default model EmptyString cfg;
  req_system := SummarizePrompt;
  req_user :=
    newline ++ "Transcript:" ++ newline ++ newline
    ++ join (newline ++ newline)
         (map (fun task =>
                 JsString.trim (newline ++ description task ++ newline
                                ++ "          "))
            recent_tasks);
|}.

Section Program.
#[local] Open Scope M_scope.

(** The platform. *)
Variable JSON_stringify : json -> string.     (* [JSON.stringify(v, undefined, "    ")] *)
Variable Date_getTime : string -> option Z.   (* [(new Date(s)).getTime()] *)
Variable toUTCString : Z -> string.           (* [date.toUTCString()] *)
Variable clock : nat -> Z.                    (* the instant the k-th [new Date()] reads *)
(** How a call to [create] ends, given the calls made before. *)
Variable chat : list chat_request -> chat_request -> chat_response.

(** [new Date()] *)
Definition new_Date : M Z :=
  fun w => (Return (clock (ticks w)), ticked w).

(** [await Bun.file(path).json()]: the text of the file, without the byte
    order mark it may start with, goes to [JSON.parse]. *)
Definition read_json (path : string) : M json :=
  fun w =>
    match files w !! path with
    | None => (Throw (FileNotFound path), w)
    | Some text =>
        match JSON_parse (strip_BOM text) with
        | None => (Throw SyntaxError, w)
        | Some v => (Return v, w)
        end
    end.

(** [Bun.write(file, text)].  The program does not wait for the write; the
    model lets it take effect at once. *)
Definition write_file (path text : string) : M Datatypes.unit :=
  fun w => (Return tt, written path text w).

(** [await client.chat.completions.create(...)]: one call, recorded with
    how it ends.  How many times the client transmits the request during the
    call is its own business and is not recorded. *)
Definition chat_completions_create (req : chat_request)
    : M (list (option string)) :=
  fun w =>
    match chat (requests w) req with
    | Rejected => (Throw RequestError, sent req w)
    | Completed choices => (Return choices, sent req w)
    end.

(** [reply.choices[0].message.content] *)
Definition first_content (choices : list (option string))
    : M (option string) :=
  match choices with
  | [] => throw TypeError
  | content :: _ => ret content
  end.

(** [{ ...a, ...b }] on two parsed configs: a key of [b] wins. *)
Definition spread (a b : Config) : Config := {|
  baseURL := baseURL b ∪ baseURL a;
  apiKey := apiKey b ∪ apiKey a;
  model := model b ∪ model a;
  recency := recency b ∪ recency a;
|}.

Definition load_config (argv : Argv) : M Config :=
  config_json <- read_json (get_config_filepath argv) ;;
  cfg <- lift (trySafeParse "load_config" (Config_schema config_json)) ;;
  override_json <-
    match JSON_parse (config argv) with
    | Some v => ret v
    | None => throw SyntaxError
    end ;;
  config_override <-
    lift (trySafeParse "load_config (override)"
            (Config_schema override_json)) ;;
  let config_new := spread cfg config_override in
  ret config_new.

Definition save_config (argv : Argv) (c : Config) : M Datatypes.unit :=
  write_file (get_config_filepath argv) (JSON_stringify (encode_Config c)).

Definition load_tasks (argv : Argv) : M Tasks :=
  tasks_json <- read_json (get_tasks_filepath argv) ;;
  lift (trySafeParse "load_tasks" (Tasks_schema tasks_json)).

Definition save_tasks (argv : Argv) (tasks : list Task) : M Datatypes.unit :=
  write_file (get_tasks_filepath argv) (JSON_stringify (encode_Tasks tasks)).

Definition extract_recent_tasks (tasks : list Task) (d : Duration)
    : M (list Task) :=
  now <- new_Date ;;
  ret (extract_recent_tasks_at Date_getTime now tasks d).

Definition generate_short_description (argv : Argv) (description : string)
    : M string :=
  cfg <- load_config argv ;;
  let baseURL := or_default baseURL EmptyString cfg in
  let apiKey := or_default apiKey EmptyString cfg in
  let model := or_default model EmptyString cfg in
  try_catch
    (reply <- chat_completions_create
                {| req_baseURL := baseURL; req_apiKey := apiKey;
                   req_model := model; req_system := ShortDescriptionPrompt;
                   req_user := description |} ;;
     content <- first_content reply ;;
     match content with
     | None => throw (AppError NullContent)
     | Some text => ret text
     end)
    (fun error => throw (AppError (ShortDescriptionError error))).

(** [config-reset] *)
Definition command_config_reset (argv : Argv) : M Datatypes.unit :=
  tryAppResult (save_config argv default_Config).

(** [config-set <key> <val>] *)
Definition command_config_set (argv : Argv) (key val : string)
    : M Datatypes.unit :=
  tryAppResult
    (key <- lift (trySafeParse "key" (Config_keyof (JString key))) ;;
     cfg <- load_config argv ;;
     cfg <-
       match key with
       | Key_recency =>
           d <- lift (parseDuration val) ;;
           ret {| baseURL := baseURL cfg; apiKey := apiKey cfg;
                  model := model cfg; recency := Some d |}
       | Key_baseURL =>
           ret {| baseURL := Some val; apiKey := apiKey cfg;
                  model := model cfg; recency := recency cfg |}
       | Key_apiKey =>
           ret {| baseURL := baseURL cfg; apiKey := Some val;
                  model := model cfg; recency := recency cfg |}
       | Key_model =>
           ret {| baseURL := baseURL cfg; apiKey := apiKey cfg;
                  model := Some val; recency := recency cfg |}
       end ;;
     save_config argv cfg ;;;
     console_log (LogConfigUpdated (get_config_filepath argv))).

(** [config-show] *)
Definition command_config_show (argv : Argv) : M Datatypes.unit :=
  tryAppResult
    (cfg <- load_config argv ;;
     console_log (LogConfig cfg)).

(** [new <task>], with its [--tags] option when given. *)
Definition command_new (argv : Argv) (task : string)
    (tags_option : option string) : M Datatypes.unit :=
  tryAppResult
    (now <- new_Date ;;
     cfg <- load_config argv ;;
     let description := JsString.trim task in
     short_description <- generate_short_description argv description ;;
     let task := {|
       date := toUTCString now;
       description := description;
       short_description := Some short_description;
       tags :=
         Some match tags_option with
              | None => []
              | Some arg =>
                  if JsString.is_empty (JsString.trim arg) then []
                  else JsString.split "," (JsString.trim arg)
              end;
     |} in
     tasks <- load_tasks argv ;;
     let tasks := (tasks ++ [task])%list in
     let recency := or_default recency {| n := 1; unit := Day |} cfg in
     recent_tasks <- extract_recent_tasks tasks recency ;;
     save_tasks argv tasks ;;;
     console_log (LogCreated (length recent_tasks) recency)).

(** The loop of [gen-short-descriptions] over the tasks still to visit: the
    tasks as the loop leaves them, and how many it filled. *)
Fixpoint gen_loop (argv : Argv) (tasks : list Task) (count : nat)
    : M (list Task * nat) :=
  match tasks with
  | [] => ret ([], count)
  | task :: rest =>
      match short_description task with
      | None =>
          console_log (LogGenerating (description task)) ;;;
          sd <- generate_short_description argv (description task) ;;
          console_log (LogGenerated sd) ;;;
          r <- gen_loop argv rest (S count) ;;
          ret ({| date := date task; description := description task;
                  short_description := Some sd; tags := tags task |}
               :: fst r, snd r)
      | Some _ =>
          r <- gen_loop argv rest count ;;
          ret (task :: fst r, snd r)
      end
  end.

(** [gen-short-descriptions] *)
Definition command_gen_short_descriptions (argv : Argv) : M Datatypes.unit :=
  tryAppResult
    (tasks <- load_tasks argv ;;
     r <- gen_loop argv tasks 0%nat ;;
     save_tasks argv (fst r) ;;;
     console_log (LogGeneratedCount (snd r))).

(** [show [recency]] with its [--tags] (empty by default) and [--short]
    options.  The Markdown it prints is kept as the list of tasks shown. *)
Definition command_show (argv : Argv) (recency_arg : option string)
    (tags_option : string) (short : bool) : M Datatypes.unit :=
  tryAppResult
    (tasks <- load_tasks argv ;;
     let filter_tags :=
       if JsString.is_empty (JsString.trim tags_option) then []
       else JsString.split "," (JsString.trim tags_option) in
     recent_tasks <-
       match recency_arg with
       | Some arg =>
           d <- lift (parseDuration arg) ;;
           extract_recent_tasks tasks d
       | None => ret tasks
       end ;;
     let recent_tasks := select_by_tags filter_tags recent_tasks in
     if (0 <? length recent_tasks)%nat
     then console_log (LogTasks short recent_tasks)
     else console_log LogNoTasks).

(** [summarize <duration>] *)
Definition command_summarize (argv : Argv) (duration : string)
    : M Datatypes.unit :=
  tryAppResult
    (cfg <- load_config argv ;;
     d <- lift (parseDuration duration) ;;
     tasks <- load_tasks argv ;;
     recent_tasks <- extract_recent_tasks tasks d ;;
     response <- chat_completions_create
                   (summarize_request cfg recent_tasks) ;;
     summary <- first_content response ;;
     console_log (LogSummary summary)).

End Program.

(* ========================================================================= *)
(** * The vocabulary of the properties                                        *)
(* ========================================================================= *)

Section Vocabulary.
Variable Date_getTime : string -> option Z.

(** The task's date parses to an instant no earlier than the cutoff, which
    is [now] minus the duration in milliseconds. *)
Definition dated_since (now : Z) (d : Duration) (task : Task) : Prop :=
  exists t : Z,
    Date_getTime (date task) = Some t
    /\ (Binary64.of_Z now - getTime_Duration d <=? Binary64.of_Z t)%float
       = true.

End Vocabulary.

(** The seconds that the specification counts in a unit; the year is the
    265 days of the program. *)
Definition seconds (u : TimeUnit) : Z :=
  match u with
  | Min => 60
  | Hour => 3600
  | Day => 86400
  | Week => 604800
  | Year => 265 * 86400
  end.

(** The conversion of [d] is exact: the number it gives is, as a rational,
    the count times the seconds of the unit times 1000. *)
Definition converts_exactly (d : Duration) : Prop :=
  exists x r : Q,
    Binary64.value (n d) = Some x
    /\ Binary64.value (getTime_Duration d) = Some r
    /\ (r == x * inject_Z (seconds (unit d)) * 1000)%Q.

(** The rational, if any, is the integer [z]. *)
Definition is_integer (o : option Q) (z : Z) : bool :=
  match o with
  | Some q => (Qnum q =? z) && (Qden q =? 1)%positive
  | None => false
  end.

(** The whole count [k] is a binary64 number, and its conversion for each of
    the five units is the integer that the specification gives. *)
Definition exact_all (k : Z) : bool :=
  is_integer (Binary64.value (Binary64.of_Z k)) k
  && forallb
       (fun u =>
          is_integer
            (Binary64.value
               (getTime_Duration {| n := Binary64.of_Z k; unit := u |}))
            (k * seconds u * 1000))
       [Min; Hour; Day; Week; Year].

(** [exact_all] on the [fuel] whole counts from [k] on. *)
Fixpoint exact_from (fuel : nat) (k : Z) (acc : bool) : bool :=
  match fuel with
  | O => acc
  | S fuel' => exact_from fuel' (k + 1) (acc && exact_all k)
  end.

(** The task carries at least one of the given tags. *)
Definition carries_some_tag (filter_tags : list string) (task : Task) : Prop :=
  exists (ts : list string) (tag : string),
    tags task = Some ts /\ tag ∈ filter_tags /\ tag ∈ ts.

(** The three levels of a config field [f], by increasing precedence: the
    built-in default, the stored file, the inline override. *)
Definition by_precedence {A} (f : Config -> option A)
    (file override : Config) : option A :=
  match f override with
  | Some v => Some v
  | None =>
      match f file with
      | Some v => Some v
      | None => f default_Config
      end
  end.

(** A text that parses as JSON and passes [Config_schema]. *)
Definition reads_as_Config (text : string) (c : Config) : Prop :=
  exists v, JSON_parse text = Some v /\ Config_schema v = Some c.

(** The reading of C1 under which [load_config] itself returns every field
    resolved through the three levels. *)
Definition load_config_applies_defaults (argv : Argv) (w : world) : Prop :=
  forall text file override loaded,
    files w !! get_config_filepath argv = Some text ->
    reads_as_Config text file ->
    reads_as_Config (config argv) override ->
    fst (load_config argv w) = Return loaded ->
    baseURL loaded = by_precedence baseURL file override
    /\ apiKey loaded = by_precedence apiKey file override
    /\ model loaded = by_precedence model file override
    /\ recency loaded = by_precedence recency file override.

(** The task that [new] builds for the description [task] and the option
    [tags_option], from the date string of the instant it read and the
    short description it obtained. *)
Definition created_task (task : string) (tags_option : option string)
    (date_string sd : string) : Task := {|
  date := date_string;
  description := JsString.trim task;
  short_description := Some sd;
  tags :=
    Some match tags_option with
         | None => []
         | Some arg =>
             if JsString.is_empty (JsString.trim arg) then []
             else JsString.split "," (JsString.trim arg)
         end;
|}.

(** The value returned, if any. *)
Definition returned {A} (o : outcome A) : option A :=
  match o with
  | Return a => Some a
  | Throw _ => None
  end.

(** The computation writes no file. *)
Definition keeps_files {A} (c : M A) : Prop :=
  forall w, files (snd (c w)) = files w.

(** The task [after] is the task [before] with its short description
    filled if it had none: the other fields are the same, and a short
    description that was there is the same too. *)
Definition backfilled (before after : Task) : Prop :=
  date after = date before
  /\ description after = description before
  /\ tags after = tags before
  /\ match short_description before with
     | Some text => short_description after = Some text
     | None => is_Some (short_description after)
     end.

(** [task.short_description === undefined] *)
Definition lacks_short_description (task : Task) : bool :=
  match short_description task with None => true | Some _ => false end.

(** Data for the examples. *)
Module Sample.

Definition now : Z := 1793707200000.

(** How the platform reads three dates: [now], two hours earlier, two days
    earlier. *)
Definition Date_getTime (s : string) : option Z :=
  if String.eqb s "Tue, 03 Nov 2026 12:00:00 GMT" then Some now
  else if String.eqb s "Tue, 03 Nov 2026 10:00:00 GMT"
       then Some (now - 2 * 3600 * 1000)
  else if String.eqb s "Sun, 01 Nov 2026 12:00:00 GMT"
       then Some (now - 2 * 86400 * 1000)
  else None.

Definition task_now : Task := {|
  date := "Tue, 03 Nov 2026 12:00:00 GMT"; description := "wrote the report";
  short_description := None; tags := Some ["a"] |}.

Definition task_2h : Task := {|
  date := "Tue, 03 Nov 2026 10:00:00 GMT"; description := "fixed the build";
  short_description := Some "build fixed"; tags := Some ["b"] |}.

Definition task_2d : Task := {|
  date := "Sun, 01 Nov 2026 12:00:00 GMT"; description := "read the mail";
  short_description := None; tags := Some [] |}.

Definition one_day : Duration := {| n := 1; unit := Day |}.

(** What ["1.005 hour"] parses to: the count is the binary64 number nearest
    to 1005 / 1000. *)
Definition hour_1005 : Duration :=
  {| n := Binary64.nearest false 1005 1000; unit := Hour |}.

(** JSON text, built from its pieces. *)
Definition quoted (s : string) : string :=
  String (ascii_of_N 34) s ++ String (ascii_of_N 34) EmptyString.

Definition field (key value : string) : string := quoted key ++ ":" ++ value.

Definition argv : Argv := {| dir := "/home/u/.tasks"; config := "{}" |}.

(** The text of [tasks.json]: [task_now], [task_2h], [task_2d]. *)
Definition tasks_text : string :=
  "[{" ++ field "date" (quoted "Tue, 03 Nov 2026 12:00:00 GMT") ++ ","
       ++ field "description" (quoted "wrote the report") ++ ","
       ++ field "tags" ("[" ++ quoted "a" ++ "]") ++ "},"
  ++ "{" ++ field "date" (quoted "Tue, 03 Nov 2026 10:00:00 GMT") ++ ","
       ++ field "description" (quoted "fixed the build") ++ ","
       ++ field "short_description" (quoted "build fixed") ++ ","
       ++ field "tags" ("[" ++ quoted "b" ++ "]") ++ "},"
  ++ "{" ++ field "date" (quoted "Sun, 01 Nov 2026 12:00:00 GMT") ++ ","
       ++ field "description" (quoted "read the mail") ++ ","
       ++ field "tags" "[]" ++ "}]".

(** A directory with the two files, nothing sent or printed yet. *)
Definition initialized (config_text : string) : world := {|
  files := <[get_config_filepath argv := config_text]>
           (<[get_tasks_filepath argv := tasks_text]> ∅);
  requests := [];
  ticks := 0;
  console := [];
|}.

(** The config file and the override of the example: model x, model y. *)
Definition config_x : string := "{" ++ field "model" (quoted "x") ++ "}".

Definition argv_y : Argv :=
  {| dir := "/home/u/.tasks";
     config := "{" ++ field "model" (quoted "y") ++ "}" |}.

(** A directory with no file. *)
Definition uninitialized : world :=
  {| files := ∅; requests := []; ticks := 0; console := [] |}.

(** Three endpoints: with the first every call throws, the second answers
    with a null content, the third with a text. *)
Definition chat_rejects (_ : list chat_request) (_ : chat_request)
    : chat_response := Rejected.

Definition chat_null (_ : list chat_request) (_ : chat_request)
    : chat_response := Completed [None].

Definition chat_answers (_ : list chat_request) (req : chat_request)
    : chat_response := Completed [Some ("summary of " ++ req_user req)].

(** An endpoint with which the first call is answered and the others
    throw. *)
Definition chat_answers_once (history : list chat_request)
    (req : chat_request) : chat_response :=
  match history with
  | [] => Completed [Some ("summary of " ++ req_user req)]
  | _ :: _ => Rejected
  end.

Definition JSON_stringify (_ : json) : string := "(the serialized value)".

Definition toUTCString (_ : Z) : string := "Tue, 03 Nov 2026 12:00:00 GMT".

Definition clock (_ : nat) : Z := now.

End Sample.

(* ========================================================================= *)
(** * More of the program                                                     *)
(* ========================================================================= *)

(** ** [showDuration] ([types.ts], lines 45-47) *)

(** The literal of a unit. *)
Definition TimeUnit_name (u : TimeUnit) : string :=
  match u with
  | Min => "min"
  | Hour => "hour"
  | Day => "day"
  | Week => "week"
  | Year => "year"
  end.

Section showDuration.

(** A number inside a template literal: how the platform writes it. *)
Variable Number_toString : float -> string.

Definition showDuration (d : Duration) : string :=
  Number_toString (n d) ++ " " ++ TimeUnit_name (unit d).

End showDuration.

(** The characters a number is written with: digits, signs, the point and
    the exponent mark. *)
Definition number_char (c : ascii) : bool :=
  ((48 <=? JsString.code c) && (JsString.code c <=? 57))%N
  || Json.ch "-" c || Json.ch "+" c || Json.ch "." c
  || Json.ch "e" c || Json.ch "E" c.

Fixpoint number_text (s : string) : bool :=
  match s with
  | EmptyString => true
  | String c s' => number_char c && number_text s'
  end.

(** ** [tags-show] ([task.ts], lines 163-167) *)

(** [set.add(x)] on the elements of a [Set] in insertion order. *)
Definition Set_add (elems : list string) (x : string) : list string :=
  if includes elems x then elems else (elems ++ [x])%list.

(** [[...new Set(l)]]: the distinct elements, each where it first came. *)
Definition Set_elements (l : list string) : list string :=
  fold_left Set_add l [].

(** The tags that [tags-show] lists:
    [new Set(tasks.flatMap((task) => task.tags ?? []))]. *)
Definition all_tags (tasks : list Task) : list string :=
  Set_elements (flat_map (fun task => default [] (tags task)) tasks).

(** ** The viewer's tag filter (the [App] component, lines 73-77) *)

Module App.

(** The test under which [flatMap] drops a task:
    [tags.size > 0 && tags.intersection(new Set(task.tags ?? [])).size == 0] *)
Definition hidden (active : gset string) (task : Task) : bool :=
  (0 <? size active)%nat
  && (size (active ∩ list_to_set (default [] (tags task))) =? 0)%nat.

(** The tasks the component renders, in the order of the list. *)
Definition rendered (active : gset string) (tasks : list Task) : list Task :=
  List.filter (fun task => negb (hidden active task)) tasks.

(** [submitNewFilterTag]: the active tags after the input [new_tag] is
    submitted. *)
Definition submitNewFilterTag (new_tag : string) (active : gset string)
    : gset string :=
  let v := JsString.trim new_tag in
  if (String.length v =? 0)%nat then active else {[ v ]} ∪ active.

End App.

(** ** More vocabulary *)

(** The computation leaves a component of the world as it was. *)
Definition keeps {A X} (part : world -> X) (c : M A) : Prop :=
  forall w, part (snd (c w)) = part w.

(** The computation writes no file but the one at [path]. *)
Definition writes_only {A} (path : string) (c : M A) : Prop :=
  forall w p, p <> path -> files (snd (c w)) !! p = files w !! p.

(** What [show] reads its [--tags] option as. *)
Definition show_filter_tags (tags_option : string) : list string :=
  if JsString.is_empty (JsString.trim tags_option) then []
  else JsString.split "," (JsString.trim tags_option).

(** The config with one of its three text fields set. *)
Definition with_text (k : Config_key) (val : string) (cfg : Config) : Config :=
  match k with
  | Key_baseURL =>
      {| baseURL := Some val; apiKey := apiKey cfg; model := model cfg;
         recency := recency cfg |}
  | Key_apiKey =>
      {| baseURL := baseURL cfg; apiKey := Some val; model := model cfg;
         recency := recency cfg |}
  | Key_model =>
      {| baseURL := baseURL cfg; apiKey := apiKey cfg; model := Some val;
         recency := recency cfg |}
  | Key_recency => cfg
  end.

(** One of the three text fields of a config. *)
Definition text_field (k : Config_key) (cfg : Config) : option string :=
  match k with
  | Key_baseURL => baseURL cfg
  | Key_apiKey => apiKey cfg
  | Key_model => model cfg
  | Key_recency => None
  end.

(** The config with its recency set. *)
Definition with_recency (d : Duration) (cfg : Config) : Config :=
  {| baseURL := baseURL cfg; apiKey := apiKey cfg; model := model cfg;
     recency := Some d |}.

(** The request [generate_short_description] sends for a description. *)
Definition short_description_request (cfg : Config) (description : string)
    : chat_request := {|
  req_baseURL := or_default baseURL EmptyString cfg;
  req_apiKey := or_default apiKey EmptyString cfg;
  req_model := or_default model EmptyString cfg;
  req_system := ShortDescriptionPrompt;
  req_user := description;
|}.

(** A text that parses as JSON and passes [Tasks_schema]. *)
Definition reads_as_Tasks (text : string) (ts : list Task) : Prop :=
  exists v, JSON_parse text = Some v /\ Tasks_schema v = Some ts.

(** What a finite number is read back as once written: itself, and zero for
    negative zero. *)
Definition stored_number (x : float) : float :=
  if PrimFloat.is_zero x then PrimFloat.zero else x.

Definition stored_Duration (d : Duration) : Duration :=
  {| n := stored_number (n d); unit := unit d |}.

Definition stored_Config (c : Config) : Config :=
  {| baseURL := baseURL c; apiKey := apiKey c; model := model c;
     recency := stored_Duration <$> recency c |}.

(** The count of the recency, if the config has one, is finite. *)
Definition finite_recency (c : Config) : Prop :=
  forall d, recency c = Some d -> PrimFloat.is_finite (n d) = true.

(** More data for the examples. *)
Module Sample2.

(** A serializer that writes one fixed text. *)
Definition writes (text : string) (_ : json) : string := text.

(** How the platform writes the number two. *)
Definition Number_toString (_ : float) : string := "2".

Definition two_weeks : Duration := {| n := 2; unit := Week |}.

(** What ["1e999 day"] parses to: the numeral is too large for a finite
    number. *)
Definition endless : Duration := {| n := PrimFloat.infinity; unit := Day |}.

(** A config file that sets the model to z. *)
Definition config_z : string :=
  "{" ++ Sample.field "model" (Sample.quoted "z") ++ "}".

(** A config file whose recency has a count too large for a finite number,
    and the text written for it once the model is set to z. *)
Definition config_endless : string :=
  "{" ++ Sample.field "recency"
           ("{" ++ Sample.field "n" "1e999" ++ ","
                ++ Sample.field "unit" (Sample.quoted "day") ++ "}") ++ "}".

Definition config_endless_z : string :=
  "{" ++ Sample.field "model" (Sample.quoted "z") ++ ","
      ++ Sample.field "recency"
           ("{" ++ Sample.field "n" "null" ++ ","
                ++ Sample.field "unit" (Sample.quoted "day") ++ "}") ++ "}".

End Sample2.

(* ========================================================================= *)
(** * Properties                                                              *)
(* ========================================================================= *)

(** ** The platform functions on examples *)

Example trim_ex : JsString.trim "  1 day
" = "1 day".
Proof. reflexivity. Qed.

Example split_ex : JsString.split "," "a,b,,c" = ["a"; "b"; EmptyString; "c"].
Proof. reflexivity. Qed.

Example split_empty_ex : JsString.split "," EmptyString = [EmptyString].
Proof. reflexivity. Qed.

Example parse_number_ex1 : Json.parse_number "1" = Some (1%float, EmptyString).
Proof. reflexivity. Qed.

Example parse_number_ex2 :
  Json.parse_number "-12.50e1]" = Some ((-125)%float, "]").
Proof. reflexivity. Qed.

Example parse_number_ex3 : Json.parse_number "1.5" = Some (1.5%float, EmptyString).
Proof. reflexivity. Qed.

Example parse_number_ex4 : Json.parse_number "1." = None.
Proof. reflexivity. Qed.

Example parse_number_ex5 : Json.parse_number "abc" = None.
Proof. reflexivity. Qed.

Example JSON_parse_ex1 : JSON_parse "1" = Some (JNumber 1).
Proof. reflexivity. Qed.

Example JSON_parse_ex2 : JSON_parse "abc" = None.
Proof. reflexivity. Qed.

Example JSON_parse_ex3 :
  JSON_parse " [1, true, null, {}, [ ], [[2]] ] "
  = Some (JArray [JNumber 1; JBool true; JNull; JObject ∅; JArray [];
                  JArray [JArray [JNumber 2]]]).
Proof. reflexivity. Qed.

Example JSON_parse_ex4 : JSON_parse "[1,]" = None.
Proof. reflexivity. Qed.

Example JSON_parse_ex6 : JSON_parse "1 " = Some (JNumber 1).
Proof. reflexivity. Qed.

Example JSON_parse_ex7 : JSON_parse "01" = None.
Proof. reflexivity. Qed.

Example parseDuration_ex1 :
  parseDuration "1 day" = Return {| n := 1; unit := Day |}.
Proof. reflexivity. Qed.

Example parseDuration_ex2 :
  parseDuration "1.day" = Return {| n := 1; unit := Day |}.
Proof. reflexivity. Qed.

Example parseDuration_ex3 :
  parseDuration "1 fortnight" = Throw (AppError (ParseErrorAt "unit")).
Proof. reflexivity. Qed.

Example parseDuration_ex4 : parseDuration "day 1" = Throw SyntaxError.
Proof. reflexivity. Qed.

Example parseDuration_ex5 :
  parseDuration "1 2 3" = Throw (AppError (InvalidDuration "1 2 3")).
Proof. reflexivity. Qed.

Example parseDuration_ex6 :
  parseDuration "true day" = Throw (AppError (ParseErrorAt "number")).
Proof. reflexivity. Qed.

(** ** What [Array.prototype.filter] selects *)

Section Selected.
Context {A : Type} (p : A -> bool).

Lemma filter_is_sublist (l : list A) : sublist (List.filter p l) l.
Proof.
  induction l as [|x l IH]; simpl; [constructor|].
  destruct (p x); now constructor.
Qed.

Lemma filter_elem_of (l : list A) (x : A) :
  x ∈ List.filter p l <-> x ∈ l /\ p x = true.
Proof. rewrite !list_elem_of_In. apply filter_In. Qed.

(** Any subsequence whose elements all pass is a subsequence of the
    result: the result misses no occurrence. *)
Lemma filter_greatest (l k : list A) :
  sublist k l -> Forall (fun x => p x = true) k ->
  sublist k (List.filter p l).
Proof.
  induction 1 as [|x k l Hkl IH|x k l Hkl IH]; intros Hall; simpl.
  - constructor.
  - inversion Hall as [|? ? Hx Hk]; subst. rewrite Hx.
    constructor. now apply IH.
  - destruct (p x); [constructor|]; now apply IH.
Qed.

End Selected.

(** ** Numbers on examples *)

Example nearest_ex1 : Binary64.nearest false 1 10 = 0x1.999999999999ap-4%float.
Proof. reflexivity. Qed.

Example nearest_ex2 :
  Binary64.value (Binary64.nearest false 1 10)
  = Some (3602879701896397 # 36028797018963968)%Q.
Proof. reflexivity. Qed.

(** A numeral too large for a finite number denotes infinity; one too small
    denotes zero, with the sign it has. *)
Example nearest_ex3 : Binary64.nearest false (10 ^ 999) 1 = PrimFloat.infinity.
Proof. vm_compute. reflexivity. Qed.

Example nearest_ex4 :
  Binary64.nearest true 1 (10 ^ 999) = PrimFloat.neg_zero.
Proof. vm_compute. reflexivity. Qed.

(** Halfway between two numbers the even significand wins: [2 ^ 53 + 1]
    goes down, [2 ^ 53 + 3] goes up. *)
Example nearest_ex5 :
  Binary64.value (Binary64.nearest false (2 ^ 53 + 1) 1)
  = Some (inject_Z (2 ^ 53))
  /\ Binary64.value (Binary64.nearest false (2 ^ 53 + 3) 1)
     = Some (inject_Z (2 ^ 53 + 4)).
Proof. split; vm_compute; reflexivity. Qed.

Example of_Z_ex :
  Binary64.of_Z Sample.now = Binary64.nearest false Sample.now 1
  /\ Binary64.value (Binary64.of_Z (- Sample.now))
     = Some (inject_Z (- Sample.now)).
Proof. split; vm_compute; reflexivity. Qed.

Example JSON_parse_number_ex1 :
  JSON_parse "1e999" = Some (JNumber PrimFloat.infinity).
Proof. vm_compute. reflexivity. Qed.

Example JSON_parse_number_ex2 :
  JSON_parse "-0" = Some (JNumber PrimFloat.neg_zero).
Proof. vm_compute. reflexivity. Qed.

(** ** C4: the unit conversion *)

Lemma is_integer_spec (o : option Q) (z : Z) :
  is_integer o z = true -> o = Some (inject_Z z).
Proof.
  destruct o as [[num den]|]; [|discriminate].
  unfold is_integer, Qnum, Qden.
  intros H. apply andb_true_iff in H as [Hnum Hden].
  apply Z.eqb_eq in Hnum. apply Pos.eqb_eq in Hden. now subst.
Qed.

Lemma exact_from_false (fuel : nat) (k : Z) : exact_from fuel k false = false.
Proof. revert k. induction fuel as [|fuel IH]; intros k; simpl; auto. Qed.

Lemma exact_from_spec (fuel : nat) (k0 k : Z) :
  exact_from fuel k0 true = true ->
  k0 <= k < k0 + Z.of_nat fuel -> exact_all k = true.
Proof.
  revert k0. induction fuel as [|fuel IH]; intros k0 Hrun Hk; [lia|].
  simpl in Hrun. destruct (exact_all k0) eqn:Hk0.
  - destruct (Z.eq_dec k k0) as [->|Hne]; [exact Hk0|].
    apply (IH (k0 + 1)); [exact Hrun | lia].
  - now rewrite exact_from_false in Hrun.
Qed.

(** No product rounds on a whole count of at most 10000 in magnitude. *)
Lemma exact_all_whole_count (k : Z) :
  - 10000 <= k <= 10000 -> exact_all k = true.
Proof.
  intros Hk. apply (exact_from_spec (Z.to_nat 20001) (- 10000)); [|lia].
  vm_compute. reflexivity.
Qed.

(** C4.  The conversion is the binary64 product of the count by 1000, by
    60, and so on, taken from the left: the hour is the minute's product
    times 60, the day the hour's times 24, the week the day's times 7, and
    the year the day's times the constant 265 as it stands.  Each product
    rounds to the nearest number.  On a whole count of at most 10000 in
    magnitude none does, and the conversion is exact: the count times 60,
    3600, 86400 or 604800 seconds (265 days for the year) of 1000
    milliseconds. *)
Theorem getTime_Duration_products (x : float) (k : Z) (u : TimeUnit) :
  - 10000 <= k <= 10000 ->
  (getTime_Duration {| n := x; unit := Min |} = x * 1000 * 60
   /\ getTime_Duration {| n := x; unit := Hour |}
      = getTime_Duration {| n := x; unit := Min |} * 60
   /\ getTime_Duration {| n := x; unit := Day |}
      = getTime_Duration {| n := x; unit := Hour |} * 24
   /\ getTime_Duration {| n := x; unit := Week |}
      = getTime_Duration {| n := x; unit := Day |} * 7
   /\ getTime_Duration {| n := x; unit := Year |}
      = x * 1000 * 60 * 60 * 24 * 265
   /\ getTime_Duration {| n := x; unit := Year |}
      = getTime_Duration {| n := x; unit := Day |} * 265)%float
  /\ Binary64.value (Binary64.of_Z k) = Some (inject_Z k)
  /\ Binary64.value (getTime_Duration {| n := Binary64.of_Z k; unit := u |})
     = Some (inject_Z (k * seconds u * 1000))
  /\ converts_exactly {| n := Binary64.of_Z k; unit := u |}.
Proof.
  intros Hk. split; [split_and!; reflexivity|].
  pose proof (exact_all_whole_count k Hk) as Hall.
  unfold exact_all in Hall. apply andb_true_iff in Hall as [Hcount Hunits].
  apply is_integer_spec in Hcount.
  rewrite forallb_forall in Hunits.
  assert (Hu : In u [Min; Hour; Day; Week; Year])
    by (destruct u; simpl; tauto).
  apply Hunits, is_integer_spec in Hu.
  split_and!; [exact Hcount | exact Hu |].
  exists (inject_Z k), (inject_Z (k * seconds u * 1000)).
  split_and!; [exact Hcount | exact Hu |].
  simpl unit. unfold Qeq. simpl. lia.
Qed.

Lemma getTime_Duration_products_witness :
  getTime_Duration {| n := 2; unit := Year |}
  = (getTime_Duration {| n := 2; unit := Day |} * 265)%float
  /\ Binary64.value (getTime_Duration {| n := 2; unit := Week |})
     = Some (inject_Z 1209600000).
Proof.
  destruct (getTime_Duration_products 2 2 Week)
    as ((_ & _ & _ & _ & _ & Hyear) & _ & Hweek & _); [lia|].
  split; [exact Hyear | exact Hweek].
Defined.

Example getTime_Duration_ex :
  getTime_Duration {| n := 2; unit := Week |} = 1209600000%float.
Proof. reflexivity. Qed.

Example parseDuration_ex7 :
  parseDuration "1.005 hour" = Return Sample.hour_1005.
Proof. vm_compute. reflexivity. Qed.

(** The conversion of 1.005 hours: the count is a little under 1.005, and
    the three products give 3617999.9999999995. *)
Example getTime_Duration_ex2 :
  Binary64.value (n Sample.hour_1005)
  = Some (1131529406376837 # 1125899906842624)%Q
  /\ Binary64.value (getTime_Duration Sample.hour_1005)
     = Some (7769595838463999 # 2147483648)%Q.
Proof. split; vm_compute; reflexivity. Qed.

(** The order of the factors matters: the count times 1000 times 60 is not
    the count times 60 times 1000. *)
Example getTime_Duration_ex3 :
  (n Sample.hour_1005 * 1000 * 60 <> n Sample.hour_1005 * 60 * 1000)%float.
Proof.
  intros H. apply (f_equal Binary64.value) in H. vm_compute in H.
  discriminate.
Qed.

(** The conversion of 1.005 hours is not exact. *)
Lemma getTime_Duration_rounds : ~ converts_exactly Sample.hour_1005.
Proof.
  intros (x & r & Hx & Hr & Heq).
  vm_compute in Hx. vm_compute in Hr.
  injection Hx as <-. injection Hr as <-.
  vm_compute in Heq. discriminate.
Qed.

(** ** C3: the time-window filter *)

Section RecentTasks.
Variable Date_getTime : string -> option Z.

Lemma is_recent_spec (now : Z) (d : Duration) (task : Task) :
  is_recent Date_getTime
    (Binary64.of_Z now - getTime_Duration d)%float task = true
  <-> dated_since Date_getTime now d task.
Proof.
  unfold is_recent, dated_since.
  destruct (Date_getTime (date task)) as [t|].
  - split; [eauto|]. now intros (t' & [= <-] & H).
  - split; [discriminate|]. now intros (t' & [=] & _).
Qed.

Lemma extract_recent_tasks_at_sublist now tasks d :
  sublist (extract_recent_tasks_at Date_getTime now tasks d) tasks.
Proof. apply filter_is_sublist. Qed.

Lemma extract_recent_tasks_at_elem_of now tasks d task :
  task ∈ extract_recent_tasks_at Date_getTime now tasks d
  <-> task ∈ tasks /\ dated_since Date_getTime now d task.
Proof.
  unfold extract_recent_tasks_at. rewrite filter_elem_of.
  now rewrite is_recent_spec.
Qed.

Lemma extract_recent_tasks_at_greatest now tasks d k :
  sublist k tasks -> Forall (dated_since Date_getTime now d) k ->
  sublist k (extract_recent_tasks_at Date_getTime now tasks d).
Proof.
  intros Hk Hall. apply filter_greatest; [assumption|].
  eapply Forall_impl; [exact Hall|]. intros task. apply is_recent_spec.
Qed.

(** C3.  [extract_recent_tasks], run on the array [tasks] that holds
    [elems]: it returns a new array and leaves every array of the store,
    [tasks] among them, as it was; the new array is a subsequence of
    [elems] (so the order is kept); it holds exactly the tasks of [elems]
    dated since the cutoff, the binary64 number that [now] minus the
    duration in milliseconds gives; and it misses no occurrence, every
    subsequence of such tasks being a subsequence of it. *)
Theorem extract_recent_tasks_subsequence (now : Z) (d : Duration)
    (tasks : Arrays.ref) (h : Arrays.store) (elems : list Task) :
  h !! tasks = Some elems ->
  exists (r : Arrays.ref) (h' : Arrays.store) (result : list Task),
    Arrays.extract_recent_tasks Date_getTime now tasks d h = Some (r, h')
    /\ h !! r = None
    /\ h' !! r = Some result
    /\ (forall a, a <> r -> h' !! a = h !! a)
    /\ h' !! tasks = Some elems
    /\ result = extract_recent_tasks_at Date_getTime now elems d
    /\ sublist result elems
    /\ (forall task, task ∈ result <-> task ∈ elems /\ dated_since Date_getTime now d task)
    /\ (forall k, sublist k elems -> Forall (dated_since Date_getTime now d) k ->
                  sublist k result).
Proof.
  intros Hlook.
  pose (r := Arrays.fresh_ref h).
  assert (Hfresh : h !! r = None).
  { apply not_elem_of_dom. subst r. unfold Arrays.fresh_ref. apply is_fresh. }
  assert (Hne : tasks <> r) by (intros ->; congruence).
  exists r, (<[r := extract_recent_tasks_at Date_getTime now elems d]> h),
    (extract_recent_tasks_at Date_getTime now elems d).
  split_and!.
  - unfold Arrays.extract_recent_tasks, Arrays.filter. now rewrite Hlook.
  - exact Hfresh.
  - apply lookup_insert_eq.
  - intros a Ha. now apply lookup_insert_ne.
  - rewrite lookup_insert_ne; [exact Hlook | congruence].
  - reflexivity.
  - apply extract_recent_tasks_at_sublist.
  - apply extract_recent_tasks_at_elem_of.
  - apply extract_recent_tasks_at_greatest.
Qed.

End RecentTasks.

Example extract_recent_tasks_at_ex :
  extract_recent_tasks_at Sample.Date_getTime Sample.now
    [Sample.task_now; Sample.task_2h; Sample.task_2d] Sample.one_day
  = [Sample.task_now; Sample.task_2h].
Proof. reflexivity. Qed.

(** The cutoff is a binary64 number.  A window of minus a billionth of a
    minute ends sixty billionths of a millisecond after [now]; the
    subtraction gives [now] itself, and the task dated [now] is kept. *)
Example extract_recent_tasks_at_ex2 :
  parseDuration "-1e-9 min"
  = Return {| n := Binary64.nearest true 1 (10 ^ 9); unit := Min |}
  /\ extract_recent_tasks_at Sample.Date_getTime Sample.now
       [Sample.task_now; Sample.task_2h; Sample.task_2d]
       {| n := Binary64.nearest true 1 (10 ^ 9); unit := Min |}
     = [Sample.task_now].
Proof. split; vm_compute; reflexivity. Qed.

(** A window of 1.005 hours keeps a task dated 3618 seconds before [now]:
    the duration is 3617999.9999999995 milliseconds, and the cutoff is
    [now - 3618000] exactly. *)
Example extract_recent_tasks_at_ex3 :
  extract_recent_tasks_at (fun _ => Some (Sample.now - 3618000)) Sample.now
    [Sample.task_now] Sample.hour_1005
  = [Sample.task_now]
  /\ Binary64.value
       (Binary64.of_Z Sample.now - getTime_Duration Sample.hour_1005)%float
     = Some (inject_Z (Sample.now - 3618000)).
Proof. split; vm_compute; reflexivity. Qed.

(** A window of 8192.3 days drops a task dated [now] minus 8192.3 days of
    86400000 milliseconds: the cutoff comes out a little later. *)
Example extract_recent_tasks_at_ex4 :
  extract_recent_tasks_at (fun _ => Some (Sample.now - 707814720000))
    Sample.now [Sample.task_now]
    {| n := Binary64.nearest false 81923 10; unit := Day |}
  = []
  /\ Binary64.value
       (Binary64.of_Z Sample.now
        - getTime_Duration
            {| n := Binary64.nearest false 81923 10; unit := Day |})%float
     = Some (8895631196160001 # 8192)%Q.
Proof. split; vm_compute; reflexivity. Qed.

Lemma extract_recent_tasks_subsequence_witness :
  exists (r : Arrays.ref) (h' : Arrays.store) (result : list Task),
    Arrays.extract_recent_tasks Sample.Date_getTime Sample.now 0%nat
      Sample.one_day
      {[ 0%nat := [Sample.task_now; Sample.task_2h; Sample.task_2d] ]}
    = Some (r, h')
    /\ h' !! 0%nat = Some [Sample.task_now; Sample.task_2h; Sample.task_2d]
    /\ result = [Sample.task_now; Sample.task_2h]
    /\ sublist result [Sample.task_now; Sample.task_2h; Sample.task_2d].
Proof.
  destruct (extract_recent_tasks_subsequence Sample.Date_getTime Sample.now
              Sample.one_day 0%nat
              {[ 0%nat := [Sample.task_now; Sample.task_2h; Sample.task_2d] ]}
              [Sample.task_now; Sample.task_2h; Sample.task_2d])
    as (r & h' & result & Hrun & _ & _ & _ & Hkept & Hres & Hsub & _).
  - reflexivity.
  - exists r, h', result. split_and!; [exact Hrun | exact Hkept | | exact Hsub].
    rewrite Hres. reflexivity.
Defined.

(** ** C9: the tag filter of [show] *)

Lemma includes_spec (ts : list string) (tag : string) :
  includes ts tag = true <-> tag ∈ ts.
Proof.
  unfold includes. rewrite existsb_exists. split.
  - intros (x & Hin & Heq). apply String.eqb_eq in Heq. subst x.
    now apply list_elem_of_In.
  - intros Hin. exists tag. split; [now apply list_elem_of_In|].
    apply String.eqb_refl.
Qed.

Lemma has_some_tag_spec (filter_tags : list string) (task : Task) :
  has_some_tag filter_tags task = true <-> carries_some_tag filter_tags task.
Proof.
  unfold has_some_tag, carries_some_tag.
  destruct (tags task) as [ts|].
  - rewrite negb_true_iff. split.
    + intros Hnot.
      assert (Hex : exists tag, tag ∈ filter_tags /\ includes ts tag = true).
      { induction filter_tags as [|tag rest IH]; simpl in Hnot; [discriminate|].
        destruct (includes ts tag) eqn:Htag; simpl in Hnot.
        - exists tag. split; [left | assumption].
        - destruct (IH Hnot) as (tag' & Hin & Hinc).
          exists tag'. split; [now right | assumption]. }
      destruct Hex as (tag & Hin & Hinc).
      exists ts, tag. split_and!; [reflexivity | assumption |].
      now apply includes_spec.
    + intros (ts' & tag & [= <-] & Hin & Hts).
      apply not_true_is_false. intros Hall.
      rewrite forallb_forall in Hall.
      specialize (Hall tag (proj1 (list_elem_of_In _ _) Hin)).
      apply includes_spec in Hts. rewrite Hts in Hall. discriminate.
  - split; [discriminate|]. now intros (ts & tag & [=] & _).
Qed.

(** C9.  With at least one filter tag, the tasks [show] goes on with are a
    subsequence of the tasks it had (the order is kept), they are exactly
    those that carry one of the filter tags, no occurrence is missed, and
    none of them has its tags absent or empty. *)
Theorem show_tag_filter (filter_tags : list string) (tasks : list Task) :
  filter_tags <> [] ->
  sublist (select_by_tags filter_tags tasks) tasks
  /\ (forall task,
        task ∈ select_by_tags filter_tags tasks
        <-> task ∈ tasks /\ carries_some_tag filter_tags task)
  /\ (forall k,
        sublist k tasks -> Forall (carries_some_tag filter_tags) k ->
        sublist k (select_by_tags filter_tags tasks))
  /\ (forall task,
        task ∈ select_by_tags filter_tags tasks ->
        tags task <> None /\ tags task <> Some []).
Proof.
  intros Hne. unfold select_by_tags.
  destruct filter_tags as [|tag0 rest]; [congruence|]. simpl.
  assert (Hiff : forall task,
            task ∈ List.filter (has_some_tag (tag0 :: rest)) tasks
            <-> task ∈ tasks /\ carries_some_tag (tag0 :: rest) task).
  { intros task. rewrite filter_elem_of. now rewrite has_some_tag_spec. }
  split_and!.
  - apply filter_is_sublist.
  - exact Hiff.
  - intros k Hk Hall. apply filter_greatest; [assumption|].
    eapply Forall_impl; [exact Hall|]. intros task. apply has_some_tag_spec.
  - intros task Hin. apply Hiff in Hin as (_ & ts & tag & Hts & _ & Htag).
    rewrite Hts. split; [discriminate|]. intros [= ->]. inversion Htag.
Qed.

Example select_by_tags_ex :
  select_by_tags ["a"] [Sample.task_now; Sample.task_2h; Sample.task_2d]
  = [Sample.task_now].
Proof. reflexivity. Qed.

Lemma show_tag_filter_witness :
  sublist
    (select_by_tags ["a"] [Sample.task_now; Sample.task_2h; Sample.task_2d])
    [Sample.task_now; Sample.task_2h; Sample.task_2d]
  /\ Sample.task_now
     ∈ select_by_tags ["a"] [Sample.task_now; Sample.task_2h; Sample.task_2d]
  /\ ~ Sample.task_2d
       ∈ select_by_tags ["a"] [Sample.task_now; Sample.task_2h; Sample.task_2d].
Proof.
  destruct (show_tag_filter ["a"]
              [Sample.task_now; Sample.task_2h; Sample.task_2d])
    as (Hsub & Hiff & _ & Hdefined).
  - discriminate.
  - split_and!.
    + exact Hsub.
    + apply Hiff. split; [left|].
      exists ["a"], "a". split_and!; [reflexivity | left | left].
    + intros Hin. apply Hdefined in Hin as [_ Hempty]. now apply Hempty.
Defined.

(** ** Running a computation *)

Section Runs.
Context {A B : Type}.

Lemma bind_Return (c : M A) (k : A -> M B) w a w' :
  c w = (Return a, w') -> bind c k w = k a w'.
Proof. unfold bind. now intros ->. Qed.

Lemma bind_Throw (c : M A) (k : A -> M B) w e w' :
  c w = (Throw e, w') -> bind c k w = (Throw e, w').
Proof. unfold bind. now intros ->. Qed.

Lemma tryAppResult_Return (k : M A) w a w' :
  k w = (Return a, w') -> tryAppResult k w = (Return tt, w').
Proof. unfold tryAppResult, try_catch, bind, ret. now intros ->. Qed.

(** A throw reaches the catch clause in the world the body left. *)
Lemma tryAppResult_Throw (k : M A) w e w' :
  k w = (Throw e, w') -> tryAppResult k w = tryAppResult (@throw A e) w'.
Proof. unfold tryAppResult, try_catch, bind, throw. now intros ->. Qed.

Lemma tryAppResult_throw_AppError msg w :
  tryAppResult (@throw A (AppError msg)) w
  = (Return tt, printed (ErrorMessage msg) w).
Proof. reflexivity. Qed.

Lemma tryAppResult_throw_other e w :
  instanceof_AppError e = false ->
  tryAppResult (@throw A e) w = (Throw e, w).
Proof. now destruct e. Qed.

(** Either way the catch clause writes no file and reports no success:
    it prints the message of an [AppError], or throws the error again. *)
Lemma tryAppResult_throw_cases e w :
  (exists msg, e = AppError msg
     /\ tryAppResult (@throw A e) w = (Return tt, printed (ErrorMessage msg) w))
  \/ (instanceof_AppError e = false
      /\ tryAppResult (@throw A e) w = (Throw e, w)).
Proof. destruct e; [left; eauto | right; auto ..]. Qed.

Lemma tryAppResult_throw_files e w :
  files (snd (tryAppResult (@throw A e) w)) = files w.
Proof. now destruct e. Qed.

End Runs.

(** Runs the first [bind] of the goal with the equation [H] of its first
    computation. *)
Ltac step H := unfold bind at 1; rewrite H.

(** ** What writes no file *)

Create HintDb keeps discriminated.

Section Keeps.
Context {A B : Type}.

Lemma keeps_ret (a : A) : keeps_files (ret a).
Proof. now intros w. Qed.

Lemma keeps_throw (e : error) : keeps_files (@throw A e).
Proof. now intros w. Qed.

Lemma keeps_lift (o : outcome A) : keeps_files (lift o).
Proof. now intros w. Qed.

Lemma keeps_bind (c : M A) (k : A -> M B) :
  keeps_files c -> (forall a, keeps_files (k a)) -> keeps_files (bind c k).
Proof.
  intros Hc Hk w. unfold bind. specialize (Hc w).
  destruct (c w) as [[a|e] w']; simpl in *; [|assumption].
  now rewrite Hk.
Qed.

Lemma keeps_try_catch (body : M A) (handler : error -> M A) :
  keeps_files body -> (forall e, keeps_files (handler e)) ->
  keeps_files (try_catch body handler).
Proof.
  intros Hb Hh w. unfold try_catch. specialize (Hb w).
  destruct (body w) as [[a|e] w']; simpl in *; [assumption|].
  now rewrite Hh.
Qed.

End Keeps.

Lemma keeps_console_log o : keeps_files (console_log o).
Proof. now intros w. Qed.

Lemma keeps_new_Date clock : keeps_files (new_Date clock).
Proof. now intros w. Qed.

Lemma keeps_read_json path : keeps_files (read_json path).
Proof.
  intros w. unfold read_json.
  destruct (files w !! path) as [text|]; [|reflexivity].
  now destruct (JSON_parse (strip_BOM text)).
Qed.

Lemma keeps_chat_completions_create chat req :
  keeps_files (chat_completions_create chat req).
Proof. intros w. unfold chat_completions_create. now destruct (chat _ _). Qed.

Lemma keeps_first_content choices : keeps_files (first_content choices).
Proof. destruct choices; [apply keeps_throw | apply keeps_ret]. Qed.

#[local] Hint Resolve keeps_ret keeps_throw keeps_lift keeps_console_log
  keeps_new_Date keeps_read_json keeps_chat_completions_create
  keeps_first_content : keeps.
#[local] Hint Extern 2 (keeps_files (bind _ _)) =>
  apply keeps_bind; [|intros ?] : keeps.
#[local] Hint Extern 2 (keeps_files (try_catch _ _)) =>
  apply keeps_try_catch; [|intros ?] : keeps.
#[local] Hint Extern 3 (keeps_files (match ?x with _ => _ end)) =>
  destruct x : keeps.

Lemma keeps_load_config argv : keeps_files (load_config argv).
Proof. unfold load_config. auto 12 with keeps. Qed.

Lemma keeps_load_tasks argv : keeps_files (load_tasks argv).
Proof. unfold load_tasks. auto with keeps. Qed.

Lemma keeps_extract_recent_tasks Date_getTime clock tasks d :
  keeps_files (extract_recent_tasks Date_getTime clock tasks d).
Proof. unfold extract_recent_tasks. auto with keeps. Qed.

#[local] Hint Resolve keeps_load_config keeps_load_tasks
  keeps_extract_recent_tasks : keeps.

Lemma keeps_generate_short_description chat argv description :
  keeps_files (generate_short_description chat argv description).
Proof. unfold generate_short_description. auto 12 with keeps. Qed.

#[local] Hint Resolve keeps_generate_short_description : keeps.

Lemma keeps_gen_loop chat argv tasks count :
  keeps_files (gen_loop chat argv tasks count).
Proof.
  revert count. induction tasks as [|task rest IH]; intros count; simpl.
  - auto with keeps.
  - destruct (short_description task); auto 12 with keeps.
Qed.

(** Reading changes nothing at all. *)
Lemma read_json_world path w : snd (read_json path w) = w.
Proof.
  unfold read_json. destruct (files w !! path) as [text|]; [|reflexivity].
  now destruct (JSON_parse (strip_BOM text)).
Qed.

Lemma load_tasks_world argv w : snd (load_tasks argv w) = w.
Proof.
  unfold load_tasks, bind, lift.
  pose proof (read_json_world (get_tasks_filepath argv) w) as H.
  destruct (read_json _ w) as [[v|e] w']; simpl in *; now subst.
Qed.

Lemma load_config_world argv w : snd (load_config argv w) = w.
Proof.
  unfold load_config, bind, lift, ret, throw.
  pose proof (read_json_world (get_config_filepath argv) w) as H.
  destruct (read_json _ w) as [[v|e] w']; simpl in *; subst; [|reflexivity].
  destruct (trySafeParse _ (Config_schema v)); [|reflexivity].
  destruct (JSON_parse (config argv)); [|reflexivity].
  now destruct (trySafeParse _ _).
Qed.

Example load_tasks_ex :
  load_tasks Sample.argv (Sample.initialized "{}")
  = (Return [Sample.task_now; Sample.task_2h; Sample.task_2d],
     Sample.initialized "{}").
Proof. vm_compute. reflexivity. Qed.

(** ** The loop of [gen-short-descriptions] *)

Section GenLoop.
Variable chat : list chat_request -> chat_request -> chat_response.
Variable argv : Argv.

(** The loop over [pre ++ rest], once the part over [pre] has returned. *)
Lemma gen_loop_app pre rest count w r w1 :
  gen_loop chat argv pre count w = (Return r, w1) ->
  gen_loop chat argv (pre ++ rest) count w
  = bind (gen_loop chat argv rest (snd r))
      (fun r2 => ret ((fst r ++ fst r2)%list, snd r2)) w1.
Proof.
  revert count w r w1.
  induction pre as [|task pre IH]; intros count w r w1 Hrun; simpl in *.
  - injection Hrun as <- <-. unfold bind, ret; simpl.
    now destruct (gen_loop chat argv rest count w) as [[[l c]|e] w2].
  - destruct (short_description task) as [text|].
    + unfold bind at 1 in Hrun.
      destruct (gen_loop chat argv pre count w) as [[r0|e] w0] eqn:Hpre;
        [|discriminate].
      injection Hrun as <- <-. unfold bind at 1.
      rewrite (IH _ _ _ _ Hpre). unfold bind, ret; simpl.
      now destruct (gen_loop chat argv rest (snd r0) w0) as [[r2|e] w2].
    + unfold bind at 1 in Hrun. unfold bind at 1. simpl in *.
      unfold bind at 1 in Hrun. unfold bind at 1.
      destruct (generate_short_description chat argv (description task) _)
        as [[sd|e] w0]; [|discriminate].
      unfold bind at 1 in Hrun. unfold bind at 1. simpl in *.
      unfold bind at 1 in Hrun. unfold bind at 1.
      destruct (gen_loop chat argv pre (S count) _) as [[r0|e] w3] eqn:Hpre;
        [|discriminate].
      injection Hrun as <- <-.
      rewrite (IH _ _ _ _ Hpre). unfold bind, ret; simpl.
      now destruct (gen_loop chat argv rest (snd r0) w3) as [[r2|e] w2].
Qed.

(** A loop that returns has filled the blanks and nothing else, and has
    counted them. *)
Lemma gen_loop_backfilled tasks count w r w' :
  gen_loop chat argv tasks count w = (Return r, w') ->
  Forall2 backfilled tasks (fst r)
  /\ snd r
     = (count + length (List.filter lacks_short_description tasks))%nat.
Proof.
  revert count w r w'.
  induction tasks as [|task rest IH]; intros count w r w' Hrun; simpl in *.
  - injection Hrun as <- <-. simpl. split; [constructor | lia].
  - unfold lacks_short_description at 1.
    destruct (short_description task) as [text|] eqn:Hsd.
    + unfold bind at 1 in Hrun.
      destruct (gen_loop chat argv rest count w) as [[r0|e] w0] eqn:Hrest;
        [|discriminate].
      injection Hrun as <- <-. simpl.
      destruct (IH _ _ _ _ Hrest) as [Hall Hcount]. split; [|assumption].
      constructor; [|assumption].
      unfold backfilled. now rewrite Hsd.
    + unfold bind at 1 in Hrun. simpl in Hrun. unfold bind at 1 in Hrun.
      destruct (generate_short_description chat argv (description task) _)
        as [[sd|e] w0]; [|discriminate].
      unfold bind at 1 in Hrun. simpl in Hrun. unfold bind at 1 in Hrun.
      destruct (gen_loop chat argv rest (S count) _) as [[r0|e] w3] eqn:Hrest;
        [|discriminate].
      injection Hrun as <- <-. simpl.
      destruct (IH _ _ _ _ Hrest) as [Hall Hcount]. split; [|lia].
      constructor; [|assumption].
      unfold backfilled. rewrite Hsd. simpl. eauto.
Qed.

End GenLoop.

(** What [load_tasks] returns depends on the files only. *)
Lemma load_tasks_files argv w w' :
  files w' = files w -> fst (load_tasks argv w') = fst (load_tasks argv w).
Proof.
  intros Hfiles. unfold load_tasks, bind, read_json. rewrite Hfiles.
  destruct (files w !! get_tasks_filepath argv) as [text|]; [|reflexivity].
  now destruct (JSON_parse (strip_BOM text)).
Qed.

(** ** C5 and C6: [gen-short-descriptions] *)

Section GenShortDescriptions.
Variable JSON_stringify : json -> string.
Variable chat : list chat_request -> chat_request -> chat_response.
Variable argv : Argv.

(** C5.  Let the stored tasks be [pre ++ task :: post], where [task] has no
    short description, the loop gets through [pre], and the request for
    [task] fails with [e].  Then the command ends in the catch clause of
    [tryAppResult] with [e]: it prints the message of [e] or throws [e]
    again, and no file is written, so that the task file still holds the
    tasks it held, without any of the descriptions generated for [pre]. *)
Theorem gen_short_descriptions_aborts w pre task post r w1 e w2 :
  load_tasks argv w = (Return (pre ++ task :: post)%list, w) ->
  short_description task = None ->
  gen_loop chat argv pre 0%nat w = (Return r, w1) ->
  generate_short_description chat argv (description task)
    (printed (LogGenerating (description task)) w1) = (Throw e, w2) ->
  command_gen_short_descriptions JSON_stringify chat argv w
  = tryAppResult (@throw Datatypes.unit e) w2
  /\ files (snd (command_gen_short_descriptions JSON_stringify chat argv w))
     = files w
  /\ fst (load_tasks argv
            (snd (command_gen_short_descriptions JSON_stringify chat argv w)))
     = Return (pre ++ task :: post)%list
  /\ ((exists msg, e = AppError msg
         /\ command_gen_short_descriptions JSON_stringify chat argv w
            = (Return tt, printed (ErrorMessage msg) w2))
      \/ (instanceof_AppError e = false
          /\ command_gen_short_descriptions JSON_stringify chat argv w
             = (Throw e, w2))).
Proof.
  intros Hload Hnone Hpre Hfail.
  assert (Hloop : gen_loop chat argv (pre ++ task :: post) 0%nat w
                  = (Throw e, w2)).
  { rewrite (gen_loop_app _ _ _ _ _ _ _ _ Hpre). unfold bind at 1; simpl.
    rewrite Hnone. unfold bind at 1; simpl. unfold bind at 1.
    now rewrite Hfail. }
  assert (Hrun : command_gen_short_descriptions JSON_stringify chat argv w
                 = tryAppResult (@throw Datatypes.unit e) w2).
  { unfold command_gen_short_descriptions.
    apply tryAppResult_Throw.
    rewrite (bind_Return _ _ _ _ _ Hload).
    now apply bind_Throw. }
  assert (Hfiles : files w2 = files w).
  { pose proof (keeps_gen_loop chat argv pre 0%nat w) as H1.
    pose proof (keeps_generate_short_description chat argv (description task)
                  (printed (LogGenerating (description task)) w1)) as H2.
    rewrite Hpre in H1. rewrite Hfail in H2. simpl in *. congruence. }
  assert (Hkept :
    files (snd (command_gen_short_descriptions JSON_stringify chat argv w))
    = files w).
  { rewrite Hrun, tryAppResult_throw_files. exact Hfiles. }
  split_and!.
  - exact Hrun.
  - exact Hkept.
  - rewrite (load_tasks_files _ _ _ Hkept). now rewrite Hload.
  - rewrite Hrun. apply tryAppResult_throw_cases.
Qed.

(** C6.  A run that ends with the line counting the generated descriptions
    has written the task file once, with the tasks it loaded, each one with
    its date, description and tags as they were and with its short
    description as it was if it had one; only those that had none were
    given one, and the count printed is their number. *)
Theorem gen_short_descriptions_frame w w' count :
  command_gen_short_descriptions JSON_stringify chat argv w
  = (Return tt, w') ->
  head (console w') = Some (LogGeneratedCount count) ->
  exists tasks tasks' : list Task,
    load_tasks argv w = (Return tasks, w)
    /\ files w'
       = <[get_tasks_filepath argv := JSON_stringify (encode_Tasks tasks')]>
           (files w)
    /\ Forall2 backfilled tasks tasks'
    /\ count = length (List.filter lacks_short_description tasks).
Proof.
  intros Hrun Hhead. unfold command_gen_short_descriptions in Hrun.
  pose proof (load_tasks_world argv w) as Hw.
  destruct (load_tasks argv w) as [[tasks|e] w0] eqn:Hload;
    simpl in Hw; subst w0.
  - destruct (gen_loop chat argv tasks 0%nat w) as [[r|e] w1] eqn:Hloop.
    + rewrite (tryAppResult_Return _ w tt
                 (printed (LogGeneratedCount (snd r))
                    (written (get_tasks_filepath argv)
                       (JSON_stringify (encode_Tasks (fst r))) w1)))
        in Hrun.
      * injection Hrun as <-. simpl in Hhead. injection Hhead as <-.
        destruct (gen_loop_backfilled _ _ _ _ _ _ _ Hloop) as [Hall Hcount].
        exists tasks, (fst r). split_and!; [reflexivity | | exact Hall | exact Hcount].
        simpl. f_equal.
        pose proof (keeps_gen_loop chat argv tasks 0%nat w) as Hk.
        now rewrite Hloop in Hk.
      * rewrite (bind_Return _ _ _ _ _ Hload).
        now rewrite (bind_Return _ _ _ _ _ Hloop).
    + rewrite (tryAppResult_Throw _ w e w1) in Hrun.
      * destruct (tryAppResult_throw_cases (A:=Datatypes.unit) e w1)
          as [(msg & -> & Heq) | (_ & Heq)]; rewrite Heq in Hrun.
        -- injection Hrun as <-. simpl in Hhead. discriminate.
        -- discriminate.
      * rewrite (bind_Return _ _ _ _ _ Hload). now apply bind_Throw.
  - rewrite (tryAppResult_Throw _ w e w) in Hrun.
    + destruct (tryAppResult_throw_cases (A:=Datatypes.unit) e w)
        as [(msg & -> & Heq) | (_ & Heq)]; rewrite Heq in Hrun.
      * injection Hrun as <-. simpl in Hhead. discriminate.
      * discriminate.
    + now apply bind_Throw.
Qed.

End GenShortDescriptions.

(** The first call is answered, the second throws: the command prints the
    error, and the task file is as it was. *)
Lemma gen_short_descriptions_aborts_witness :
  files (snd (command_gen_short_descriptions Sample.JSON_stringify
                Sample.chat_answers_once Sample.argv
                (Sample.initialized "{}")))
  = files (Sample.initialized "{}")
  /\ fst (load_tasks Sample.argv
            (snd (command_gen_short_descriptions Sample.JSON_stringify
                    Sample.chat_answers_once Sample.argv
                    (Sample.initialized "{}"))))
     = Return [Sample.task_now; Sample.task_2h; Sample.task_2d].
Proof.
  pose (w1 := snd (gen_loop Sample.chat_answers_once Sample.argv
                     [Sample.task_now; Sample.task_2h] 0%nat
                     (Sample.initialized "{}"))).
  pose (w2 := snd (generate_short_description Sample.chat_answers_once
                     Sample.argv (description Sample.task_2d)
                     (printed (LogGenerating (description Sample.task_2d))
                        w1))).
  destruct (gen_short_descriptions_aborts Sample.JSON_stringify
              Sample.chat_answers_once Sample.argv (Sample.initialized "{}")
              [Sample.task_now; Sample.task_2h] Sample.task_2d []
              ([{| date := date Sample.task_now;
                   description := description Sample.task_now;
                   short_description := Some "summary of wrote the report";
                   tags := tags Sample.task_now |}; Sample.task_2h], 1%nat)
              w1 (AppError (ShortDescriptionError RequestError)) w2)
    as (_ & Hfiles & Hload & _).
  - vm_compute. reflexivity.
  - reflexivity.
  - vm_compute. reflexivity.
  - vm_compute. reflexivity.
  - split; [exact Hfiles | exact Hload].
Defined.

Lemma gen_short_descriptions_frame_witness :
  exists tasks tasks' : list Task,
    load_tasks Sample.argv (Sample.initialized "{}")
    = (Return tasks, Sample.initialized "{}")
    /\ Forall2 backfilled tasks tasks'
    /\ 2%nat = length (List.filter lacks_short_description tasks).
Proof.
  destruct (gen_short_descriptions_frame Sample.JSON_stringify
              Sample.chat_answers Sample.argv (Sample.initialized "{}")
              (snd (command_gen_short_descriptions Sample.JSON_stringify
                      Sample.chat_answers Sample.argv
                      (Sample.initialized "{}")))
              2%nat)
    as (tasks & tasks' & Hload & _ & Hall & Hcount).
  - vm_compute. reflexivity.
  - vm_compute. reflexivity.
  - exists tasks, tasks'. split_and!; assumption.
Defined.

(** ** Loading, and what it needs *)

(** No JSON text starts with a byte order mark. *)
Lemma JSON_parse_BOM (rest : string) :
  JSON_parse (String (ascii_of_N 239) rest) = None.
Proof.
  unfold JSON_parse.
  change (2 * String.length (String (ascii_of_N 239) rest) + 2)%nat
    with (S (String.length rest + S (String.length rest + 0) + 2)).
  reflexivity.
Qed.

(** So a text that parses is read from a file as it stands. *)
Lemma strip_BOM_parsed (text : string) (v : json) :
  JSON_parse text = Some v -> strip_BOM text = text.
Proof.
  intros Hv. unfold strip_BOM.
  destruct text as [|a [|b [|c rest]]]; try reflexivity.
  destruct (JsString.code a =? 239)%N eqn:Ha; [|reflexivity].
  apply N.eqb_eq in Ha. unfold JsString.code in Ha.
  rewrite <- (ascii_N_embedding a), Ha, JSON_parse_BOM in Hv. discriminate.
Qed.

Example strip_BOM_ex :
  JSON_parse (String (ascii_of_N 239) (String (ascii_of_N 187)
                (String (ascii_of_N 191) "[]"))) = None
  /\ JSON_parse (strip_BOM (String (ascii_of_N 239) (String (ascii_of_N 187)
                               (String (ascii_of_N 191) "[]"))))
     = Some (JArray []).
Proof. split; reflexivity. Qed.

Lemma load_config_files argv w w' :
  files w' = files w -> fst (load_config argv w') = fst (load_config argv w).
Proof.
  intros Hfiles. unfold load_config, bind, read_json. rewrite Hfiles.
  destruct (files w !! get_config_filepath argv) as [text|]; [|reflexivity].
  destruct (JSON_parse (strip_BOM text)) as [v|]; [|reflexivity].
  unfold lift. destruct (trySafeParse _ (Config_schema v)); [|reflexivity].
  unfold ret, throw. destruct (JSON_parse (config argv)); [|reflexivity].
  now destruct (trySafeParse _ _).
Qed.

Lemma load_config_missing argv w :
  files w !! get_config_filepath argv = None ->
  load_config argv w = (Throw (FileNotFound (get_config_filepath argv)), w).
Proof. intros H. unfold load_config, bind, read_json. now rewrite H. Qed.

Lemma load_tasks_missing argv w :
  files w !! get_tasks_filepath argv = None ->
  load_tasks argv w = (Throw (FileNotFound (get_tasks_filepath argv)), w).
Proof. intros H. unfold load_tasks, bind, read_json. now rewrite H. Qed.

(** [generate_short_description] prints nothing, and what it throws once
    the config is loaded is an [AppError]. *)
Lemma generate_short_description_console chat argv description w :
  console (snd (generate_short_description chat argv description w))
  = console w.
Proof.
  unfold generate_short_description, bind at 1.
  pose proof (load_config_world argv w) as Hw.
  destruct (load_config argv w) as [[cfg|e] w0]; simpl in Hw; subst w0;
    [|reflexivity].
  unfold try_catch, bind at 1, chat_completions_create.
  destruct (chat _ _) as [|choices]; [reflexivity|].
  destruct choices as [|[text|] rest]; reflexivity.
Qed.

Lemma generate_short_description_Throw chat argv description w e w' cfg :
  fst (load_config argv w) = Return cfg ->
  generate_short_description chat argv description w = (Throw e, w') ->
  exists cause, e = AppError (ShortDescriptionError cause).
Proof.
  unfold generate_short_description, bind at 1.
  destruct (load_config argv w) as [[cfg'|e'] w0]; simpl; [|discriminate].
  intros _. unfold try_catch, bind at 1, chat_completions_create.
  destruct (chat _ _) as [|choices]; simpl.
  - intros [= <- _]. eauto.
  - destruct choices as [|[text|] rest]; simpl; intros [= <- _] || discriminate;
      eauto.
Qed.

(** ** C8 and C10: [new] *)

Section New.
Variable JSON_stringify : json -> string.
Variable Date_getTime : string -> option Z.
Variable toUTCString : Z -> string.
Variable clock : nat -> Z.
Variable chat : list chat_request -> chat_request -> chat_response.
Variable argv : Argv.
Variable task : string.
Variable tags_option : option string.

#[local] Abbreviation new :=
  (command_new JSON_stringify Date_getTime toUTCString clock chat argv task
     tags_option).

#[local] Abbreviation created now sd :=
  (created_task task tags_option (toUTCString now) sd).

(** The two ways a run of [new] goes.  Either one of its three steps that
    may throw does: the run ends in the catch clause, in a world with the
    files and the console it started with.  Or all three return: the task
    file is written once, with the tasks loaded and the new task after
    them, and the line reporting the creation is printed. *)
Lemma command_new_cases w :
  (exists e w2,
      new w = tryAppResult (@throw Datatypes.unit e) w2
      /\ files w2 = files w /\ console w2 = console w
      /\ (fst (load_config argv w) = Throw e
          \/ (exists cfg cause,
                fst (load_config argv w) = Return cfg
                /\ e = AppError (ShortDescriptionError cause))
          \/ (exists cfg, fst (load_config argv w) = Return cfg
                /\ fst (load_tasks argv w) = Throw e)))
  \/ (exists cfg sd w2 old shown,
        fst (load_config argv w) = Return cfg
        /\ fst (load_tasks argv w) = Return old
        /\ files w2 = files w /\ console w2 = console w
        /\ new w
           = (Return tt,
              printed (LogCreated shown
                         (or_default recency {| n := 1; unit := Day |} cfg))
                (written (get_tasks_filepath argv)
                   (JSON_stringify
                      (encode_Tasks (old ++ [created (clock (ticks w)) sd])))
                   (ticked w2)))).
Proof.
  unfold command_new.
  assert (Hcfg : fst (load_config argv (ticked w)) = fst (load_config argv w))
    by now apply load_config_files.
  pose proof (load_config_world argv (ticked w)) as Hw1.
  destruct (load_config argv (ticked w)) as [[cfg|e] w1] eqn:Hload;
    simpl in Hw1, Hcfg; subst w1.
  - pose proof (keeps_generate_short_description chat argv
                  (JsString.trim task) (ticked w)) as Hf2.
    pose proof (generate_short_description_console chat argv
                  (JsString.trim task) (ticked w)) as Hc2.
    destruct (generate_short_description chat argv (JsString.trim task)
                (ticked w)) as [[sd|e] w2] eqn:Hgen; simpl in Hf2, Hc2.
    + assert (Htasks : fst (load_tasks argv w2) = fst (load_tasks argv w))
        by now apply load_tasks_files.
      pose proof (load_tasks_world argv w2) as Hw3.
      destruct (load_tasks argv w2) as [[old|e] w3] eqn:Hold;
        simpl in Hw3, Htasks; subst w3.
      * right. eexists cfg, sd, w2, old, _. split_and!; try easy.
        apply tryAppResult_Return with (a := tt).
        unfold bind at 1; simpl. step Hload. step Hgen. step Hold.
        reflexivity.
      * left. exists e, w2. split_and!; try easy.
        -- apply tryAppResult_Throw.
           unfold bind at 1; simpl. step Hload. step Hgen. now step Hold.
        -- right; right. eauto.
    + left. exists e, w2. split_and!; try easy.
      * apply tryAppResult_Throw.
        unfold bind at 1; simpl. step Hload. now step Hgen.
      * right; left.
        destruct (generate_short_description_Throw chat argv _ _ _ _ cfg
                    ltac:(now rewrite Hload) Hgen) as [cause ->].
        eauto.
  - left. exists e, (ticked w). split_and!; try easy.
    + apply tryAppResult_Throw.
      unfold bind at 1; simpl. now step Hload.
    + now left.
Qed.

(** C10.  A run of [new] that reports the creation has written the task
    file with the tasks loaded and one task after them.  That task has its
    tags defined: they are the empty list when [--tags] is omitted, the
    empty list when it is blank once trimmed, and otherwise the segments of
    the trimmed argument between commas; the object written for the task
    has a [tags] key holding an array. *)
Theorem new_task_tags w w' shown d :
  new w = (Return tt, w') ->
  head (console w') = Some (LogCreated shown d) ->
  exists (old : list Task) (t : Task),
    fst (load_tasks argv w) = Return old
    /\ files w'
       = <[get_tasks_filepath argv
             := JSON_stringify (encode_Tasks (old ++ [t]))]> (files w)
    /\ description t = JsString.trim task
    /\ is_Some (tags t)
    /\ (tags_option = None -> tags t = Some [])
    /\ (forall arg, tags_option = Some arg ->
          JsString.trim arg = EmptyString -> tags t = Some [])
    /\ (forall arg, tags_option = Some arg ->
          JsString.trim arg <> EmptyString ->
          tags t = Some (JsString.split "," (JsString.trim arg)))
    /\ (exists o items, encode_Task t = JObject o
          /\ o !! "tags" = Some (JArray items)).
Proof.
  intros Hrun Hhead.
  destruct (command_new_cases w)
    as [(e & w2 & Heq & _) | (cfg & sd & w2 & old & k & _ & Hold & Hf & _ & Heq)];
    rewrite Heq in Hrun.
  - destruct (tryAppResult_throw_cases (A:=Datatypes.unit) e w2)
      as [(msg & -> & Hc) | (_ & Hc)]; rewrite Hc in Hrun.
    + injection Hrun as <-. simpl in Hhead. discriminate.
    + discriminate.
  - injection Hrun as <-.
    exists old, (created (clock (ticks w)) sd). split_and!.
    + exact Hold.
    + simpl. now rewrite Hf.
    + reflexivity.
    + simpl. eauto.
    + intros ->. reflexivity.
    + intros arg -> Hblank. simpl. now rewrite Hblank.
    + intros arg -> Hnonblank. simpl.
      destruct (JsString.trim arg); [congruence | reflexivity].
    + unfold encode_Task, created_task, put. cbn [tags short_description].
      eexists _, _. split; [reflexivity|].
      do 3 (rewrite lookup_insert_ne by discriminate).
      apply lookup_insert_eq.
Qed.

(** C8, as the program has it.  When the config file or the task file is
    missing, [new] writes no file and ends in the catch clause of
    [tryAppResult], with nothing printed before: the error is printed if it
    is an [AppError] and thrown again if not.  With the config file missing
    it is the error of the file read, which is thrown again.  With the
    config loaded and the task file missing it is either the [AppError] of
    a failed short description, printed, or the error of the file read,
    thrown again. *)
Theorem new_uninitialized w :
  files w !! get_config_filepath argv = None
  \/ files w !! get_tasks_filepath argv = None ->
  files (snd (new w)) = files w
  /\ (exists e w2,
        new w = tryAppResult (@throw Datatypes.unit e) w2
        /\ files w2 = files w /\ console w2 = console w
        /\ ((exists msg, e = AppError msg
               /\ new w = (Return tt, printed (ErrorMessage msg) w2))
            \/ (instanceof_AppError e = false /\ new w = (Throw e, w2))))
  /\ (files w !! get_config_filepath argv = None ->
      new w = (Throw (FileNotFound (get_config_filepath argv)), ticked w))
  /\ (forall cfg,
        fst (load_config argv w) = Return cfg ->
        (exists cause w2,
            new w
            = (Return tt,
               printed (ErrorMessage (ShortDescriptionError cause)) w2))
        \/ (exists w2,
              new w = (Throw (FileNotFound (get_tasks_filepath argv)), w2))).
Proof.
  intros Hmissing.
  assert (Hfail : exists e w2,
             new w = tryAppResult (@throw Datatypes.unit e) w2
             /\ files w2 = files w /\ console w2 = console w
             /\ (fst (load_config argv w) = Throw e
                 \/ (exists cfg cause,
                       fst (load_config argv w) = Return cfg
                       /\ e = AppError (ShortDescriptionError cause))
                 \/ (exists cfg, fst (load_config argv w) = Return cfg
                       /\ fst (load_tasks argv w) = Throw e))).
  { destruct (command_new_cases w)
      as [Hleft | (cfg & sd & w2 & old & k & Hcfg & Hold & _)];
      [exact Hleft | exfalso].
    destruct Hmissing as [Hm | Hm].
    - rewrite (load_config_missing _ _ Hm) in Hcfg. discriminate.
    - rewrite (load_tasks_missing _ _ Hm) in Hold. discriminate. }
  destruct Hfail as (e & w2 & Heq & Hf & Hc & Hwhich).
  split_and!.
  - rewrite Heq, tryAppResult_throw_files. exact Hf.
  - exists e, w2. split_and!; try assumption.
    rewrite Heq. apply tryAppResult_throw_cases.
  - intros Hm. unfold command_new.
    erewrite tryAppResult_Throw.
    + now apply tryAppResult_throw_other.
    + unfold bind at 1; simpl. unfold bind at 1.
      now rewrite load_config_missing.
  - intros cfg Hcfg.
    destruct Hwhich as [Hw | [(cfg' & cause & _ & ->) | (cfg' & _ & Hw)]].
    + congruence.
    + left. exists cause, w2. now rewrite Heq.
    + right. exists w2. rewrite Heq.
      destruct Hmissing as [Hm | Hm].
      * rewrite (load_config_missing _ _ Hm) in Hcfg. discriminate.
      * rewrite (load_tasks_missing _ _ Hm) in Hw. simpl in Hw.
        injection Hw as <-. reflexivity.
Qed.

End New.

Example command_new_ex :
  command_new Sample.JSON_stringify Sample.Date_getTime Sample.toUTCString
    Sample.clock Sample.chat_answers Sample.argv "  paid the bills "
    (Some " home,money ") (Sample.initialized "{}")
  = (Return tt,
     printed (LogCreated 3 Sample.one_day)
       (written (get_tasks_filepath Sample.argv)
          (Sample.JSON_stringify
             (encode_Tasks
                [Sample.task_now; Sample.task_2h; Sample.task_2d;
                 {| date := "Tue, 03 Nov 2026 12:00:00 GMT";
                    description := "paid the bills";
                    short_description := Some "summary of paid the bills";
                    tags := Some ["home"; "money"] |}]))
          (ticked
             (sent {| req_baseURL := "http://localhost:11434/v1";
                      req_apiKey := "ollama";
                      req_model := "llama3.2:latest";
                      req_system := ShortDescriptionPrompt;
                      req_user := "paid the bills" |}
                (ticked (Sample.initialized "{}")))))).
Proof. vm_compute. reflexivity. Qed.

Lemma new_task_tags_witness :
  exists (old : list Task) (t : Task),
    fst (load_tasks Sample.argv (Sample.initialized "{}")) = Return old
    /\ description t = "paid the bills"
    /\ tags t = Some ["home"; "money"].
Proof.
  destruct (new_task_tags Sample.JSON_stringify Sample.Date_getTime
              Sample.toUTCString Sample.clock Sample.chat_answers Sample.argv
              "  paid the bills " (Some " home,money ")
              (Sample.initialized "{}")
              (snd (command_new Sample.JSON_stringify Sample.Date_getTime
                      Sample.toUTCString Sample.clock Sample.chat_answers
                      Sample.argv "  paid the bills " (Some " home,money ")
                      (Sample.initialized "{}")))
              3%nat Sample.one_day)
    as (old & t & Hold & _ & Hdesc & _ & _ & _ & Htags & _).
  - vm_compute. reflexivity.
  - vm_compute. reflexivity.
  - exists old, t. split_and!; [exact Hold | exact Hdesc |].
    apply (Htags " home,money "); [reflexivity | discriminate].
Defined.

Lemma new_uninitialized_witness :
  files (snd (command_new Sample.JSON_stringify Sample.Date_getTime
                Sample.toUTCString Sample.clock Sample.chat_answers
                Sample.argv "paid the bills" None Sample.uninitialized))
  = files Sample.uninitialized
  /\ command_new Sample.JSON_stringify Sample.Date_getTime
       Sample.toUTCString Sample.clock Sample.chat_answers
       Sample.argv "paid the bills" None Sample.uninitialized
     = (Throw (FileNotFound (get_config_filepath Sample.argv)),
        ticked Sample.uninitialized).
Proof.
  destruct (new_uninitialized Sample.JSON_stringify Sample.Date_getTime
              Sample.toUTCString Sample.clock Sample.chat_answers Sample.argv
              "paid the bills" None Sample.uninitialized)
    as (Hfiles & _ & Hconfig & _).
  - left. reflexivity.
  - split; [exact Hfiles | apply Hconfig; reflexivity].
Defined.

(** On a directory with no file, [new] does not end by printing the message
    of an [AppError]. *)
Lemma new_uninitialized_not_AppError :
  ~ exists msg w2,
      command_new Sample.JSON_stringify Sample.Date_getTime
        Sample.toUTCString Sample.clock Sample.chat_answers
        Sample.argv "paid the bills" None Sample.uninitialized
      = (Return tt, printed (ErrorMessage msg) w2).
Proof. intros (msg & w2 & H). vm_compute in H. discriminate. Qed.

(** ** C1: the config *)

Lemma spread_field {A} (f : Config -> option A) (file override : Config) :
  f override ∪ f file
  = match f override with Some v => Some v | None => f file end.
Proof. now destruct (f override), (f file). Qed.

(** The value a use site takes for a field that the default config
    defines. *)
Lemma or_default_by_precedence {A} (f : Config -> option A) (fallback : A)
    (file override loaded : Config) :
  f loaded = f override ∪ f file ->
  is_Some (f default_Config) ->
  Some (or_default f fallback loaded) = by_precedence f file override.
Proof.
  intros Hf [v Hv]. unfold or_default, by_precedence.
  rewrite Hf, Hv. now destruct (f override), (f file).
Qed.

Section LoadConfig.
Variable chat : list chat_request -> chat_request -> chat_response.
Variable argv : Argv.

(** C1, as the program has it.  When the config file and the override both
    read as configs, [load_config] returns, and changes nothing; each field
    of what it returns is the override's if the override defines it, and
    otherwise the file's, undefined if the file does not define it either.
    The built-in default comes in where the field is used: there the value
    is the override's, else the file's, else the default.  So it is for
    the request that [generate_short_description] sends. *)
Theorem load_config_precedence w text file override :
  files w !! get_config_filepath argv = Some text ->
  reads_as_Config text file ->
  reads_as_Config (config argv) override ->
  exists loaded,
    load_config argv w = (Return loaded, w)
    /\ (baseURL loaded
        = match baseURL override with Some v => Some v | None => baseURL file end
        /\ apiKey loaded
           = match apiKey override with Some v => Some v | None => apiKey file end
        /\ model loaded
           = match model override with Some v => Some v | None => model file end
        /\ recency loaded
           = match recency override with
             | Some v => Some v
             | None => recency file
             end)
    /\ (Some (or_default baseURL EmptyString loaded)
        = by_precedence baseURL file override
        /\ Some (or_default apiKey EmptyString loaded)
           = by_precedence apiKey file override
        /\ Some (or_default model EmptyString loaded)
           = by_precedence model file override
        /\ Some (or_default recency {| n := 1; unit := Day |} loaded)
           = by_precedence recency file override)
    /\ (forall description,
          exists req,
            requests (snd (generate_short_description chat argv description w))
            = req :: requests w
            /\ Some (req_baseURL req) = by_precedence baseURL file override
            /\ Some (req_apiKey req) = by_precedence apiKey file override
            /\ Some (req_model req) = by_precedence model file override).
Proof.
  intros Hfile (v & Hv & Hcfg) (vo & Hvo & Hover).
  assert (Hload : load_config argv w = (Return (spread file override), w)).
  { unfold load_config, bind, read_json, lift, ret.
    now rewrite Hfile, (strip_BOM_parsed _ _ Hv), Hv, Hcfg, Hvo, Hover. }
  assert (Huse : Some (or_default baseURL EmptyString (spread file override))
                 = by_precedence baseURL file override
                 /\ Some (or_default apiKey EmptyString (spread file override))
                    = by_precedence apiKey file override
                 /\ Some (or_default model EmptyString (spread file override))
                    = by_precedence model file override
                 /\ Some (or_default recency {| n := 1; unit := Day |}
                            (spread file override))
                    = by_precedence recency file override).
  { split_and!; apply or_default_by_precedence; simpl; eauto. }
  exists (spread file override). split_and!; try apply spread_field;
    try apply Huse; [exact Hload|].
  intros description. unfold generate_short_description, bind at 1.
  rewrite Hload. unfold try_catch, bind at 1, chat_completions_create.
  eexists. split.
  - destruct (chat _ _) as [|[|[content|] rest]]; reflexivity.
  - simpl. split_and!; apply Huse.
Qed.

End LoadConfig.

(** The example of the three levels: the model used is y with the override,
    x without it, and the default without the file value. *)
Example resolved_model_ex :
  or_default model EmptyString
    <$> returned (fst (load_config Sample.argv_y
                         (Sample.initialized Sample.config_x)))
  = Some "y"
  /\ or_default model EmptyString
       <$> returned (fst (load_config Sample.argv
                            (Sample.initialized Sample.config_x)))
     = Some "x"
  /\ or_default model EmptyString
       <$> returned (fst (load_config Sample.argv (Sample.initialized "{}")))
     = Some "llama3.2:latest".
Proof. vm_compute. auto. Qed.

(** What [load_config] returns is another matter: with neither the file
    nor the override defining the model, it is undefined, and [config-show]
    prints a config without it. *)
Example load_config_ex :
  load_config Sample.argv (Sample.initialized "{}")
  = (Return {| baseURL := None; apiKey := None; model := None;
               recency := None |},
     Sample.initialized "{}").
Proof. vm_compute. reflexivity. Qed.

Example command_config_show_ex :
  command_config_show Sample.argv (Sample.initialized "{}")
  = (Return tt,
     printed (LogConfig {| baseURL := None; apiKey := None; model := None;
                           recency := None |})
       (Sample.initialized "{}")).
Proof. vm_compute. reflexivity. Qed.

Lemma load_config_precedence_witness :
  exists loaded,
    load_config Sample.argv_y (Sample.initialized Sample.config_x)
    = (Return loaded, Sample.initialized Sample.config_x)
    /\ model loaded = Some "y"
    /\ Some (or_default model EmptyString loaded) = Some "y"
    /\ Some (or_default baseURL EmptyString loaded)
       = Some "http://localhost:11434/v1".
Proof.
  destruct (load_config_precedence Sample.chat_answers Sample.argv_y
              (Sample.initialized Sample.config_x) Sample.config_x
              {| baseURL := None; apiKey := None; model := Some "x";
                 recency := None |}
              {| baseURL := None; apiKey := None; model := Some "y";
                 recency := None |})
    as (loaded & Hload & (_ & _ & Hmodel & _) & (Hurl & _ & Huse & _) & _).
  - reflexivity.
  - eexists. split; vm_compute; reflexivity.
  - eexists. split; vm_compute; reflexivity.
  - exists loaded. split_and!; assumption.
Defined.

(** With an empty config file and an empty override, [load_config] leaves
    the model undefined: it is not the default. *)
Lemma load_config_leaves_undefined :
  ~ load_config_applies_defaults Sample.argv (Sample.initialized "{}").
Proof.
  intros Hclaim.
  destruct (Hclaim "{}"
              {| baseURL := None; apiKey := None; model := None;
                 recency := None |}
              {| baseURL := None; apiKey := None; model := None;
                 recency := None |}
              {| baseURL := None; apiKey := None; model := None;
                 recency := None |})
    as (_ & _ & Hmodel & _).
  - reflexivity.
  - eexists. split; vm_compute; reflexivity.
  - eexists. split; vm_compute; reflexivity.
  - vm_compute. reflexivity.
  - discriminate Hmodel.
Qed.

(** ** C2: [parseDuration] *)

Lemma parseDuration_go_Return ss0 ss1 d :
  parseDuration_go ss0 ss1 = Return d
  <-> JSON_parse ss0 = Some (JNumber (n d))
      /\ TimeUnit_schema (JString ss1) = Some (unit d).
Proof.
  unfold parseDuration_go. destruct d as [x u]; cbn [n unit].
  generalize (TimeUnit_schema (JString ss1)); intros ou.
  destruct (JSON_parse ss0) as [v|].
  2: { split; [discriminate | intros [H _]; discriminate H]. }
  destruct (Schema.number v) as [q|] eqn:Hnum; simpl.
  - destruct v; try discriminate Hnum. injection Hnum as ->.
    destruct ou as [u'|]; simpl.
    + split; [intros H; inversion H; subst; auto
             | intros [[= ->] [= ->]]; reflexivity].
    + split; [discriminate | intros [_ H]; discriminate H].
  - split; [discriminate|]. intros [[= ->] _]. discriminate Hnum.
Qed.

(** What the inner [go] throws: the [SyntaxError] of [JSON.parse] when the
    first token is not JSON text, and an [AppError] otherwise. *)
Lemma parseDuration_go_Throw ss0 ss1 e :
  parseDuration_go ss0 ss1 = Throw e ->
  (JSON_parse ss0 = None /\ e = SyntaxError)
  \/ (exists v, JSON_parse ss0 = Some v
        /\ (e = AppError (ParseErrorAt "number")
            \/ e = AppError (ParseErrorAt "unit"))).
Proof.
  unfold parseDuration_go.
  destruct (JSON_parse ss0) as [v|]; [|intros [= <-]; now left].
  intros H. right. exists v. split; [reflexivity|].
  revert H. generalize (TimeUnit_schema (JString ss1)); intros ou H.
  destruct (Schema.number v); simpl in H; [|injection H as <-; now left].
  destruct ou; simpl in H; [discriminate|].
  injection H as <-. now right.
Qed.

(** The two tokens [parseDuration] works on: those of the split at spaces
    when there are two, and else those of the split at periods when there
    are two. *)
Lemma parseDuration_tokens s :
  (exists ss0 ss1,
      (JsString.split " " (JsString.trim s) = [ss0; ss1]
       \/ (length (JsString.split " " (JsString.trim s)) <> 2%nat
           /\ JsString.split "." (JsString.trim s) = [ss0; ss1]))
      /\ parseDuration s = parseDuration_go ss0 ss1)
  \/ (length (JsString.split " " (JsString.trim s)) <> 2%nat
      /\ length (JsString.split "." (JsString.trim s)) <> 2%nat
      /\ parseDuration s = Throw (AppError (InvalidDuration s))).
Proof.
  unfold parseDuration.
  destruct (JsString.split " " (JsString.trim s)) as [|a [|b [|c l]]] eqn:Hsp;
    try (left; exists a, b; split; [now left | reflexivity]);
    (destruct (JsString.split "." (JsString.trim s))
       as [|a' [|b' [|c' l']]] eqn:Hdot;
     [right | right | left; exists a', b' | right]);
    simpl; split_and?; try reflexivity; try (right; split); simpl;
    try reflexivity; try lia.
Qed.

(** When [parseDuration] returns. *)
Lemma parseDuration_Return s d :
  parseDuration s = Return d
  <-> exists ss0 ss1,
        (JsString.split " " (JsString.trim s) = [ss0; ss1]
         \/ (length (JsString.split " " (JsString.trim s)) <> 2%nat
             /\ JsString.split "." (JsString.trim s) = [ss0; ss1]))
        /\ JSON_parse ss0 = Some (JNumber (n d))
        /\ TimeUnit_schema (JString ss1) = Some (unit d).
Proof.
  destruct (parseDuration_tokens s)
    as [(ss0 & ss1 & Hsplit & ->) | (Hsp & Hdot & ->)].
  - rewrite parseDuration_go_Return. split.
    + intros H. now exists ss0, ss1.
    + intros (a & b & Hsplit' & H).
      assert (a = ss0 /\ b = ss1) as [-> ->]; [|exact H].
      destruct Hsplit as [H1 | [H1 H2]], Hsplit' as [H1' | [H1' H2']];
        try (rewrite H1 in H1'; now injection H1' as <- <-);
        try (rewrite H2 in H2'; now injection H2' as <- <-);
        exfalso.
      * rewrite H1 in H1'. now apply H1'.
      * rewrite H1' in H1. now apply H1.
  - split; [discriminate|].
    intros (a & b & [H | [_ H]] & _); exfalso.
    + rewrite H in Hsp. now apply Hsp.
    + rewrite H in Hdot. now apply Hdot.
Qed.

(** What [parseDuration] throws is not always an [AppError]. *)
Lemma parseDuration_Throw s e :
  parseDuration s = Throw e ->
  e = SyntaxError \/ instanceof_AppError e = true.
Proof.
  destruct (parseDuration_tokens s)
    as [(ss0 & ss1 & _ & ->) | (_ & _ & ->)].
  - intros H. apply parseDuration_go_Throw in H
      as [[_ ->] | (v & _ & [-> | ->])]; auto.
  - intros [= <-]. now right.
Qed.

(** C2, where the program departs from it.  On [abc day] and on [day 1] the
    first token is not JSON text: [JSON.parse] throws its [SyntaxError],
    which is not an [AppError], before the number is checked.  [show] with
    such a duration throws it again instead of printing a message.  An
    unknown unit, or a first token that is JSON but no number, does give an
    [AppError]. *)
Theorem parseDuration_SyntaxError :
  parseDuration "abc day" = Throw SyntaxError
  /\ parseDuration "day 1" = Throw SyntaxError
  /\ instanceof_AppError SyntaxError = false
  /\ command_show Sample.Date_getTime Sample.clock Sample.argv
       (Some "abc day") EmptyString false (Sample.initialized "{}")
     = (Throw SyntaxError, Sample.initialized "{}")
  /\ parseDuration "1 fortnight" = Throw (AppError (ParseErrorAt "unit"))
  /\ parseDuration "true day" = Throw (AppError (ParseErrorAt "number")).
Proof. vm_compute. auto 10. Qed.

(** ** C7: the summary client *)

Section Summarize.
Variable Date_getTime : string -> option Z.
Variable clock : nat -> Z.
Variable chat : list chat_request -> chat_request -> chat_response.
Variable argv : Argv.

(** X24.  [summarize], once the config, the duration and the tasks are
    read: [create] is called once, with the tasks dated since the cutoff
    that the instant read and the duration give; the error of a call that
    throws and that of a reply without choices are thrown on as they are,
    and the content of the first choice is printed, null or not.  No file
    is touched. *)
Lemma command_summarize_reply duration w cfg d tasks :
  fst (load_config argv w) = Return cfg ->
  parseDuration duration = Return d ->
  fst (load_tasks argv w) = Return tasks ->
  let req :=
    summarize_request cfg
      (extract_recent_tasks_at Date_getTime (clock (ticks w)) tasks d) in
  command_summarize Date_getTime clock chat argv duration w
  = match chat (requests w) req with
    | Rejected => (Throw RequestError, sent req (ticked w))
    | Completed [] => (Throw TypeError, sent req (ticked w))
    | Completed (content :: _) =>
        (Return tt, printed (LogSummary content) (sent req (ticked w)))
    end.
Proof.
  intros Hcfg Hd Htasks req.
  pose proof (load_config_world argv w) as Hw1.
  pose proof (load_tasks_world argv w) as Hw2.
  destruct (load_config argv w) as [o1 w1] eqn:Hload.
  destruct (load_tasks argv w) as [o2 w2] eqn:Hold.
  simpl in *. subst.
  unfold command_summarize, tryAppResult, try_catch.
  unfold bind at 1. unfold bind at 1. rewrite Hload.
  unfold bind at 1. unfold lift at 1. rewrite Hd.
  unfold bind at 1. rewrite Hold.
  unfold bind at 1. unfold extract_recent_tasks at 1, bind at 1, new_Date, ret.
  unfold bind at 1. unfold chat_completions_create at 1.
  fold req. change (requests (ticked w)) with (requests w).
  destruct (chat (requests w) req) as [|[|content rest]]; reflexivity.
Qed.

(** [generate_short_description], once the config is read: whatever goes
    wrong with the request ends as an [AppError]. *)
Lemma generate_short_description_reply description w cfg :
  fst (load_config argv w) = Return cfg ->
  let req := {| req_baseURL := or_default baseURL EmptyString cfg;
                req_apiKey := or_default apiKey EmptyString cfg;
                req_model := or_default model EmptyString cfg;
                req_system := ShortDescriptionPrompt;
                req_user := description |} in
  generate_short_description chat argv description w
  = match chat (requests w) req with
    | Rejected =>
        (Throw (AppError (ShortDescriptionError RequestError)), sent req w)
    | Completed [] =>
        (Throw (AppError (ShortDescriptionError TypeError)), sent req w)
    | Completed (None :: _) =>
        (Throw (AppError (ShortDescriptionError (AppError NullContent))),
         sent req w)
    | Completed (Some text :: _) => (Return text, sent req w)
    end.
Proof.
  intros Hcfg req.
  pose proof (load_config_world argv w) as Hw1.
  destruct (load_config argv w) as [o1 w1] eqn:Hload. simpl in *. subst.
  unfold generate_short_description. unfold bind at 1. rewrite Hload.
  unfold try_catch, bind at 1, chat_completions_create. fold req.
  destruct (chat (requests w) req) as [|[|[text|] rest]]; reflexivity.
Qed.

End Summarize.

(** C7, where the program departs from it.  The short-description path
    turns a null content and a rejected request into an [AppError].  The
    [summarize] path does not: it prints the null content and returns, and
    it lets the error of a rejected request through, which is not an
    [AppError].  Either way the program calls [create] once. *)
Theorem summarize_null_reply :
  command_summarize Sample.Date_getTime Sample.clock Sample.chat_null
    Sample.argv "1 day" (Sample.initialized "{}")
  = (Return tt,
     printed (LogSummary None)
       (sent (summarize_request
                {| baseURL := None; apiKey := None; model := None;
                   recency := None |}
                [Sample.task_now; Sample.task_2h])
          (ticked (Sample.initialized "{}"))))
  /\ command_summarize Sample.Date_getTime Sample.clock Sample.chat_rejects
       Sample.argv "1 day" (Sample.initialized "{}")
     = (Throw RequestError,
        sent (summarize_request
                {| baseURL := None; apiKey := None; model := None;
                   recency := None |}
                [Sample.task_now; Sample.task_2h])
          (ticked (Sample.initialized "{}")))
  /\ instanceof_AppError RequestError = false
  /\ fst (generate_short_description Sample.chat_null Sample.argv
            "wrote the report" (Sample.initialized "{}"))
     = Throw (AppError (ShortDescriptionError (AppError NullContent)))
  /\ fst (generate_short_description Sample.chat_rejects Sample.argv
            "wrote the report" (Sample.initialized "{}"))
     = Throw (AppError (ShortDescriptionError RequestError)).
Proof. vm_compute. auto 10. Qed.

(** ** What is written reads back *)

Lemma Schema_all_map {A} (dec : json -> option A) (enc : A -> json)
    (l : list A) :
  (forall x, dec (enc x) = Some x) -> Schema.all dec (map enc l) = Some l.
Proof.
  intros Hdec. induction l as [|x l IH]; cbn [map Schema.all];
    [reflexivity | now rewrite Hdec, IH].
Qed.

(** The object written for a task passes [Task_schema] and gives the task
    back, with or without its optional fields. *)
Lemma Task_schema_encode (t : Task) :
  Task_schema (encode_Task t) = Some t.
Proof.
  destruct t as [d ds sd tg]. unfold Task_schema, encode_Task, put.
  cbn [date description short_description tags].
  destruct sd as [sd|], tg as [tg|];
    repeat (rewrite lookup_insert_eq
            || (rewrite lookup_insert_ne by discriminate)
            || rewrite lookup_empty);
    cbn [Schema.required Schema.optional Schema.string_ Schema.array];
    rewrite ?(Schema_all_map Schema.string_ JString) by reflexivity;
    reflexivity.
Qed.

Lemma Tasks_schema_encode (ts : list Task) :
  Tasks_schema (encode_Tasks ts) = Some ts.
Proof. apply Schema_all_map, Task_schema_encode. Qed.

(** ** The commands on examples *)

Example command_show_ex :
  command_show Sample.Date_getTime Sample.clock Sample.argv None "a" false
    (Sample.initialized "{}")
  = (Return tt,
     printed (LogTasks false [Sample.task_now]) (Sample.initialized "{}"))
  /\ command_show Sample.Date_getTime Sample.clock Sample.argv
       (Some "1 day") EmptyString true (Sample.initialized "{}")
     = (Return tt,
        printed (LogTasks true [Sample.task_now; Sample.task_2h])
          (ticked (Sample.initialized "{}")))
  /\ command_show Sample.Date_getTime Sample.clock Sample.argv
       (Some "1.min") "b" false (Sample.initialized "{}")
     = (Return tt, printed LogNoTasks (ticked (Sample.initialized "{}"))).
Proof. vm_compute. auto. Qed.

Example command_config_set_ex :
  fst (command_config_set Sample.JSON_stringify Sample.argv "recency"
         "2 week" (Sample.initialized "{}"))
  = Return tt
  /\ files (snd (command_config_set Sample.JSON_stringify Sample.argv
                   "recency" "2 week" (Sample.initialized "{}")))
     !! get_config_filepath Sample.argv
     = Some (Sample.JSON_stringify
               (encode_Config {| baseURL := None; apiKey := None;
                                 model := None;
                                 recency := Some {| n := 2; unit := Week |} |}))
  /\ command_config_set Sample.JSON_stringify Sample.argv "colour" "red"
       (Sample.initialized "{}")
     = (Return tt,
        printed (ErrorMessage (ParseErrorAt "key")) (Sample.initialized "{}")).
Proof. vm_compute. auto. Qed.

(* ========================================================================= *)
(** * More properties                                                         *)
(* ========================================================================= *)

(** ** The schemas and what is written *)

Lemma TimeUnit_schema_name (u : TimeUnit) :
  TimeUnit_schema (JString (TimeUnit_name u)) = Some u.
Proof. now destruct u. Qed.

Lemma encode_number_finite (x : float) :
  PrimFloat.is_finite x = true -> encode_number x = JNumber (stored_number x).
Proof. unfold encode_number, stored_number. now intros ->. Qed.

Lemma encode_number_not_finite (x : float) :
  PrimFloat.is_finite x = false -> encode_number x = JNull.
Proof. unfold encode_number. now intros ->. Qed.

Lemma stored_number_writable (x : float) :
  Binary64.writable x -> stored_number x = x.
Proof.
  intros [_ Hzero]. unfold stored_number.
  destruct (PrimFloat.is_zero x); [now rewrite Hzero | reflexivity].
Qed.

Lemma Duration_schema_encode_number (d : Duration) :
  Duration_schema (encode_Duration d)
  = match encode_number (n d) with
    | JNumber x => Some {| n := x; unit := unit d |}
    | _ => None
    end.
Proof.
  destruct d as [x u]. unfold Duration_schema, encode_Duration.
  cbn [n unit].
  rewrite lookup_insert_eq.
  rewrite lookup_insert_ne by discriminate. rewrite lookup_insert_eq.
  cbn [Schema.required].
  change (match u with
          | Min => "min" | Hour => "hour" | Day => "day"
          | Week => "week" | Year => "year"
          end) with (TimeUnit_name u).
  rewrite TimeUnit_schema_name.
  now destruct (encode_number x).
Qed.

Lemma Duration_schema_encode (d : Duration) :
  PrimFloat.is_finite (n d) = true ->
  Duration_schema (encode_Duration d) = Some (stored_Duration d).
Proof.
  intros Hd. now rewrite Duration_schema_encode_number, encode_number_finite.
Qed.

Lemma Duration_schema_encode_not_finite (d : Duration) :
  PrimFloat.is_finite (n d) = false ->
  Duration_schema (encode_Duration d) = None.
Proof.
  intros Hd.
  now rewrite Duration_schema_encode_number, encode_number_not_finite.
Qed.

Lemma Config_schema_encode_recency (c : Config) :
  Config_schema (encode_Config c)
  = match recency c with
    | Some d =>
        match Duration_schema (encode_Duration d) with
        | Some d' =>
            Some {| baseURL := baseURL c; apiKey := apiKey c;
                    model := model c; recency := Some d' |}
        | None => None
        end
    | None => Some c
    end.
Proof.
  destruct c as [b a m r]. unfold Config_schema, encode_Config, put.
  cbn [baseURL apiKey model recency].
  destruct b as [b|], a as [a|], m as [m|], r as [r|];
    repeat (rewrite lookup_insert_eq
            || (rewrite lookup_insert_ne by discriminate)
            || rewrite lookup_empty);
    cbn [Schema.optional Schema.string_];
    try reflexivity;
    now destruct (Duration_schema (encode_Duration r)).
Qed.

Lemma Config_schema_encode (c : Config) :
  finite_recency c -> Config_schema (encode_Config c) = Some (stored_Config c).
Proof.
  intros Hc. rewrite Config_schema_encode_recency. unfold stored_Config.
  destruct c as [b a m [d|]]; cbn [recency baseURL apiKey model] in *;
    [|reflexivity].
  now rewrite Duration_schema_encode by (now apply Hc).
Qed.

(** X1.  What [save_tasks] and [save_config] hand to the serializer, read
    through the schema of the matching load.  A list of tasks, each with or
    without its short description and its tags, comes back as it was.  A
    config, with any of its fields undefined, comes back as it was when it
    has no recency or one whose count is finite and not negative zero (a
    negative zero comes back as zero).  A config whose recency has an
    infinite count is written with [null] for the count, and
    [Config_schema] refuses what was written. *)
Theorem saved_value_round_trip (ts : list Task) (c : Config) :
  Tasks_schema (encode_Tasks ts) = Some ts
  /\ (finite_recency c ->
      Config_schema (encode_Config c) = Some (stored_Config c))
  /\ ((forall d, recency c = Some d -> Binary64.writable (n d)) ->
      Config_schema (encode_Config c) = Some c)
  /\ ((exists d, recency c = Some d /\ PrimFloat.is_finite (n d) = false) ->
      Config_schema (encode_Config c) = None).
Proof.
  split_and!.
  - apply Tasks_schema_encode.
  - apply Config_schema_encode.
  - intros Hc. rewrite Config_schema_encode.
    + unfold stored_Config, stored_Duration.
      destruct c as [b a m [[x u]|]]; cbn in *; [|reflexivity].
      now rewrite stored_number_writable by (now apply (Hc _ eq_refl)).
    + intros d Hd. now apply Hc.
  - intros (d & Hd & Hinf). rewrite Config_schema_encode_recency, Hd.
    now rewrite Duration_schema_encode_not_finite.
Qed.

(** The config that [config-set recency "1e999 day"] saves does not pass
    [Config_schema], while the one that [config-set recency "2 week"] saves
    comes back as it was. *)
Lemma saved_value_round_trip_witness :
  Config_schema
    (encode_Config (with_recency Sample2.two_weeks default_Config))
  = Some (with_recency Sample2.two_weeks default_Config)
  /\ parseDuration "1e999 day" = Return Sample2.endless
  /\ Config_schema (encode_Config (with_recency Sample2.endless default_Config))
     = None.
Proof.
  destruct (saved_value_round_trip []
              (with_recency Sample2.two_weeks default_Config))
    as (_ & _ & Hback & _).
  destruct (saved_value_round_trip []
              (with_recency Sample2.endless default_Config))
    as (_ & _ & _ & Hrefused).
  split_and!.
  - apply Hback. intros d [= <-]. split; [reflexivity | discriminate].
  - vm_compute. reflexivity.
  - apply Hrefused. exists Sample2.endless. split; reflexivity.
Defined.

(** X2.  A key that is none of the four of a task does not count: the
    object passes [Task_schema] with it exactly as without it, and the task
    read does not hold it. *)
Theorem Task_schema_ignores_other_keys (k : string) (v : json)
    (o : gmap string json) :
  k <> "date" -> k <> "description" -> k <> "short_description" ->
  k <> "tags" ->
  Task_schema (JObject (<[k := v]> o)) = Task_schema (JObject o).
Proof.
  intros H1 H2 H3 H4. unfold Task_schema.
  now rewrite !lookup_insert_ne by congruence.
Qed.

Lemma Task_schema_ignores_other_keys_witness :
  Task_schema
    (JObject (<["id" := JNumber 7]>
                (<["date" := JString "d"]>
                   (<["description" := JString "x"]> ∅))))
  = Some {| date := "d"; description := "x"; short_description := None;
            tags := None |}.
Proof.
  rewrite (Task_schema_ignores_other_keys "id" (JNumber 7)); try discriminate.
  vm_compute. reflexivity.
Defined.

Lemma Schema_all_Forall2 {A} (dec : json -> option A) (items : list json)
    (l : list A) :
  Schema.all dec items = Some l
  <-> Forall2 (fun j a => dec j = Some a) items l.
Proof.
  revert l. induction items as [|j items IH]; intros l; simpl.
  - split; [intros [= <-]; constructor | now inversion 1].
  - destruct (dec j) as [a|] eqn:Hj.
    + destruct (Schema.all dec items) as [l'|] eqn:Hall.
      * split.
        -- intros [= <-]. constructor; [assumption | now apply IH].
        -- inversion 1 as [|? a' ? l'' Ha Hrest]; subst.
           apply IH in Hrest. congruence.
      * split; [discriminate|].
        inversion 1 as [|? a' ? l'' Ha Hrest]; subst.
        apply IH in Hrest. discriminate.
    + split; [discriminate|]. inversion 1; congruence.
Qed.

Lemma Schema_all_None {A} (dec : json -> option A) (items : list json) :
  Schema.all dec items = None <-> exists j, j ∈ items /\ dec j = None.
Proof.
  induction items as [|j items IH]; simpl.
  - split; [discriminate | intros (j & Hin & _); inversion Hin].
  - destruct (dec j) as [a|] eqn:Hj.
    + destruct (Schema.all dec items) as [l'|].
      * split; [discriminate|]. intros (j' & Hin & Hnone).
        apply elem_of_cons in Hin as [-> | Hin]; [congruence|].
        assert (Some l' = None) as Habs by (apply IH; eauto).
        discriminate Habs.
      * split; [|reflexivity]. intros _.
        destruct (proj1 IH eq_refl) as (j' & Hin & Hnone).
        exists j'. split; [now right | assumption].
    + split; [|reflexivity]. intros _. exists j. split; [left | assumption].
Qed.

(** X3.  The task file is read all or nothing.  A JSON array passes
    [Tasks_schema] exactly when each of its elements passes [Task_schema],
    and the tasks read are those of the elements in their order; it is
    refused as a whole exactly when one element is refused. *)
Theorem Tasks_schema_all_or_nothing (items : list json) :
  (forall ts,
      Tasks_schema (JArray items) = Some ts
      <-> Forall2 (fun j t => Task_schema j = Some t) items ts)
  /\ (Tasks_schema (JArray items) = None
      <-> exists j, j ∈ items /\ Task_schema j = None).
Proof.
  split; [intros ts; apply Schema_all_Forall2 | apply Schema_all_None].
Qed.

(** ** The two loads, case by case *)

(** X4.  What [load_tasks] does, in the order it checks: a missing file
    gives the error of the file read; otherwise the text of the file is
    taken without the byte order mark it may start with, and a text that is
    not JSON gives a [SyntaxError]; a JSON value that is not a list of
    tasks gives the [AppError] labelled [load_tasks]; otherwise the tasks
    are returned.  The first two are no [AppError].  The world is never
    changed. *)
Theorem load_tasks_outcome (argv : Argv) (w : world) :
  (files w !! get_tasks_filepath argv = None
   /\ load_tasks argv w = (Throw (FileNotFound (get_tasks_filepath argv)), w))
  \/ (exists text,
        files w !! get_tasks_filepath argv = Some text
        /\ JSON_parse (strip_BOM text) = None
        /\ load_tasks argv w = (Throw SyntaxError, w))
  \/ (exists text v,
        files w !! get_tasks_filepath argv = Some text
        /\ JSON_parse (strip_BOM text) = Some v /\ Tasks_schema v = None
        /\ load_tasks argv w = (Throw (AppError (ParseErrorAt "load_tasks")), w))
  \/ (exists text ts,
        files w !! get_tasks_filepath argv = Some text
        /\ reads_as_Tasks (strip_BOM text) ts
        /\ load_tasks argv w = (Return ts, w)).
Proof.
  unfold load_tasks, bind, read_json, lift, reads_as_Tasks.
  destruct (files w !! get_tasks_filepath argv) as [text|]; [|now left].
  right. destruct (JSON_parse (strip_BOM text)) as [v|] eqn:Hv; [|left; eauto].
  right. destruct (Tasks_schema v) as [ts|] eqn:Hts; simpl.
  - right. exists text, ts. eauto.
  - left. exists text, v. eauto.
Qed.

(** X5.  What [load_config] does, in the order it checks: the file is read
    and checked before the inline override is looked at.  A missing file
    gives the error of the file read; a file that is not JSON once the byte
    order mark it may start with is dropped, a [SyntaxError]; a file that
    is no config, the [AppError] labelled [load_config]; then an override
    that is not JSON as it stands (a byte order mark is not dropped from
    it), a [SyntaxError]; an override that is no config, the [AppError]
    labelled [load_config (override)]; otherwise the override spread over
    the file is returned.  The world is never changed. *)
Theorem load_config_outcome (argv : Argv) (w : world) :
  (files w !! get_config_filepath argv = None
   /\ load_config argv w
      = (Throw (FileNotFound (get_config_filepath argv)), w))
  \/ (exists text,
        files w !! get_config_filepath argv = Some text
        /\ JSON_parse (strip_BOM text) = None
        /\ load_config argv w = (Throw SyntaxError, w))
  \/ (exists text v,
        files w !! get_config_filepath argv = Some text
        /\ JSON_parse (strip_BOM text) = Some v /\ Config_schema v = None
        /\ load_config argv w
           = (Throw (AppError (ParseErrorAt "load_config")), w))
  \/ (exists text file,
        files w !! get_config_filepath argv = Some text
        /\ reads_as_Config (strip_BOM text) file
        /\ ((JSON_parse (config argv) = None
             /\ load_config argv w = (Throw SyntaxError, w))
            \/ (exists vo,
                  JSON_parse (config argv) = Some vo
                  /\ Config_schema vo = None
                  /\ load_config argv w
                     = (Throw (AppError
                                 (ParseErrorAt "load_config (override)")), w))
            \/ (exists override,
                  reads_as_Config (config argv) override
                  /\ load_config argv w
                     = (Return (spread file override), w)))).
Proof.
  unfold load_config, bind, read_json, lift, ret, throw, reads_as_Config.
  destruct (files w !! get_config_filepath argv) as [text|]; [|now left].
  right. destruct (JSON_parse (strip_BOM text)) as [v|] eqn:Hv; [|left; eauto].
  right. destruct (Config_schema v) as [file|] eqn:Hfile; simpl;
    [|left; exists text, v; eauto].
  right. exists text, file. split_and!; eauto.
  destruct (JSON_parse (config argv)) as [vo|] eqn:Hvo; [|now left].
  right. destruct (Config_schema vo) as [override|] eqn:Ho; simpl.
  - right. exists override. eauto.
  - left. exists vo. eauto.
Qed.

(** ** [parseDuration], its errors and [showDuration] *)

Lemma parseDuration_go_errors ss0 ss1 e :
  parseDuration_go ss0 ss1 = Throw e ->
  (JSON_parse ss0 = None /\ e = SyntaxError)
  \/ (exists v, JSON_parse ss0 = Some v /\ Schema.number v = None
        /\ e = AppError (ParseErrorAt "number"))
  \/ (exists x, JSON_parse ss0 = Some (JNumber x)
        /\ TimeUnit_schema (JString ss1) = None
        /\ e = AppError (ParseErrorAt "unit")).
Proof.
  unfold parseDuration_go.
  generalize (TimeUnit_schema (JString ss1)); intros ou.
  destruct (JSON_parse ss0) as [v|]; [|intros [= <-]; now left].
  intros H. right.
  destruct (Schema.number v) as [x|] eqn:Hnum; simpl in H.
  - destruct v; try discriminate Hnum. injection Hnum as ->.
    destruct ou; simpl in H; [discriminate|]. injection H as <-.
    right. eauto.
  - injection H as <-. left. eauto.
Qed.

(** X7.  The errors of [parseDuration], one by one.  With two tokens (those
    of the split at spaces, or else of the split at periods): a first token
    that is not JSON text gives the [SyntaxError] of [JSON.parse]; one that
    is JSON but no number, the [AppError] labelled [number]; a number
    followed by an unknown unit, the [AppError] labelled [unit].  Without
    two tokens either way, the [AppError] that quotes the input as it was
    given. *)
Theorem parseDuration_errors (s : string) (e : error) :
  parseDuration s = Throw e ->
  (exists ss0 ss1,
      (JsString.split " " (JsString.trim s) = [ss0; ss1]
       \/ (length (JsString.split " " (JsString.trim s)) <> 2%nat
           /\ JsString.split "." (JsString.trim s) = [ss0; ss1]))
      /\ ((JSON_parse ss0 = None /\ e = SyntaxError)
          \/ (exists v, JSON_parse ss0 = Some v /\ Schema.number v = None
                /\ e = AppError (ParseErrorAt "number"))
          \/ (exists x, JSON_parse ss0 = Some (JNumber x)
                /\ TimeUnit_schema (JString ss1) = None
                /\ e = AppError (ParseErrorAt "unit"))))
  \/ (length (JsString.split " " (JsString.trim s)) <> 2%nat
      /\ length (JsString.split "." (JsString.trim s)) <> 2%nat
      /\ e = AppError (InvalidDuration s)).
Proof.
  destruct (parseDuration_tokens s)
    as [(ss0 & ss1 & Hsplit & ->) | (Hsp & Hdot & ->)].
  - intros H. left. exists ss0, ss1. split; [exact Hsplit|].
    now apply parseDuration_go_errors.
  - intros [= <-]. right. auto.
Qed.

Lemma parseDuration_errors_witness :
  exists ss0 ss1 x,
    JsString.split " " (JsString.trim " 3 fortnight ") = [ss0; ss1]
    /\ JSON_parse ss0 = Some (JNumber x)
    /\ TimeUnit_schema (JString ss1) = None.
Proof.
  destruct (parseDuration_errors " 3 fortnight "
              (AppError (ParseErrorAt "unit")))
    as [(ss0 & ss1 & [Hsplit | [Hlen _]] & Hcase) | (_ & _ & Habs)].
  - reflexivity.
  - destruct Hcase as [[_ Habs] | [(v & _ & _ & Habs) | (x & Hx & Hu & _)]];
      [discriminate Habs | discriminate Habs |].
    exists ss0, ss1, x. auto.
  - exfalso. apply Hlen. reflexivity.
  - discriminate Habs.
Defined.

Lemma append_empty_r (s : string) : s ++ EmptyString = s.
Proof.
  induction s as [|c s IH]; [reflexivity|].
  change (String c (s ++ EmptyString) = String c s). now rewrite IH.
Qed.

Lemma rev_app_rev_app (t a b : string) :
  String.rev_app (String.rev_app t a) b = String.rev_app a (t ++ b).
Proof.
  revert a b. induction t as [|c t IH]; intros a b; [reflexivity|].
  change (String.rev_app (String.rev_app t (String c a)) b
          = String.rev_app a (String c (t ++ b))).
  now rewrite IH.
Qed.

Lemma rev_app_append (t x acc : string) :
  String.rev_app (t ++ x) acc = String.rev_app x (String.rev_app t acc).
Proof.
  revert acc. induction t as [|c t IH]; intros acc; [reflexivity|].
  change (String.rev_app (t ++ x) (String c acc)
          = String.rev_app x (String.rev_app t (String c acc))).
  apply IH.
Qed.

Lemma rev_involutive (s : string) : String.rev (String.rev s) = s.
Proof.
  unfold String.rev. rewrite rev_app_rev_app. apply append_empty_r.
Qed.

(** White space is not dropped where there is none to drop. *)
Lemma strip_keep w2 w3 (c : ascii) (rest : string) :
  JsString.ws1 c = false -> (forall b, w2 c b = false) ->
  (forall b d, w3 c b d = false) ->
  JsString.strip w2 w3 (String c rest) = String c rest.
Proof.
  intros H1 H2 H3. simpl. rewrite H1.
  destruct rest as [|b [|d rest]]; [reflexivity | now rewrite H2 |].
  now rewrite H2, H3.
Qed.

(** A string that ends with an ASCII character which is no white space
    keeps its end. *)
Lemma trimEnd_keep (s : string) (c : ascii) (rest : string) :
  String.rev s = String c rest ->
  JsString.ws1 c = false -> (JsString.code c <? 128)%N = true ->
  JsString.trimEnd s = s.
Proof.
  intros Hrev H1 Hlt. unfold JsString.trimEnd. rewrite Hrev.
  apply N.ltb_lt in Hlt.
  rewrite strip_keep; [rewrite <- Hrev; apply rev_involutive | exact H1 | |].
  - intros b. unfold JsString.ws2.
    replace (JsString.code c =? 160)%N with false
      by (symmetry; apply N.eqb_neq; lia).
    apply andb_false_r.
  - intros b d. unfold JsString.ws3.
    replace (128 <=? JsString.code c)%N with false
      by (symmetry; apply N.leb_gt; lia).
    repeat match goal with
           | |- context [(JsString.code c =? ?k)%N] =>
               replace (JsString.code c =? k)%N with false
                 by (symmetry; apply N.eqb_neq; lia)
           end.
    repeat (rewrite andb_false_r || rewrite orb_false_r
            || rewrite andb_false_l || rewrite orb_false_l).
    reflexivity.
Qed.

Lemma number_char_plain (c : ascii) :
  number_char c = true ->
  JsString.ws1 c = false
  /\ (forall b, JsString.ws2 c b = false)
  /\ (forall b d, JsString.ws3 c b d = false)
  /\ Ascii.eqb c " " = false.
Proof.
  destruct c as [[] [] [] [] [] [] [] []]; intros H; try discriminate H;
    split_and!; intros; reflexivity.
Qed.

Lemma split_number_text (t u : string) :
  number_text t = true ->
  JsString.split " " (t ++ String " " u) = t :: JsString.split " " u.
Proof.
  induction t as [|c t IH]; intros Ht; [reflexivity|].
  simpl in Ht. apply andb_prop in Ht as [Hc Ht].
  change (String c t ++ String " " u) with (String c (t ++ String " " u)).
  simpl. destruct (number_char_plain c Hc) as (_ & _ & _ & ->).
  now rewrite (IH Ht).
Qed.

(** The last letter of a unit is no white space, whatever comes before. *)
Lemma trimEnd_unit (t : string) (u : TimeUnit) :
  JsString.trimEnd (t ++ " " ++ TimeUnit_name u) = t ++ " " ++ TimeUnit_name u.
Proof.
  destruct u;
    (eapply trimEnd_keep;
     [unfold String.rev; rewrite rev_app_append; reflexivity
     | reflexivity | reflexivity]).
Qed.

(** X8.  [showDuration] and [parseDuration] are inverse to each other on
    the durations whose count the platform writes as number text that reads
    back as the count: the string shown for such a duration parses to the
    duration itself. *)
Theorem parseDuration_showDuration (Number_toString : float -> string)
    (d : Duration) :
  number_text (Number_toString (n d)) = true ->
  JSON_parse (Number_toString (n d)) = Some (JNumber (n d)) ->
  parseDuration (showDuration Number_toString d) = Return d.
Proof.
  intros Htext Hparse. unfold showDuration.
  remember (Number_toString (n d)) as t eqn:Ht. clear Ht.
  assert (Htrim : JsString.trim (t ++ " " ++ TimeUnit_name (unit d))
                  = t ++ " " ++ TimeUnit_name (unit d)).
  { unfold JsString.trim, JsString.trimStart.
    destruct t as [|c t]; [discriminate Hparse|].
    simpl in Htext. apply andb_prop in Htext as [Hc _].
    destruct (number_char_plain c Hc) as (H1 & H2 & H3 & _).
    change (String c t ++ " " ++ TimeUnit_name (unit d))
      with (String c (t ++ " " ++ TimeUnit_name (unit d))).
    rewrite (strip_keep _ _ c _ H1 H2 H3).
    apply (trimEnd_unit (String c t)). }
  apply parseDuration_Return. exists t, (TimeUnit_name (unit d)).
  rewrite Htrim. split_and!.
  - left. change (t ++ " " ++ TimeUnit_name (unit d))
      with (t ++ String " " (TimeUnit_name (unit d))).
    rewrite (split_number_text _ _ Htext). now destruct (unit d).
  - exact Hparse.
  - apply TimeUnit_schema_name.
Qed.

Lemma parseDuration_showDuration_witness :
  parseDuration (showDuration Sample2.Number_toString Sample2.two_weeks)
  = Return Sample2.two_weeks.
Proof.
  apply (parseDuration_showDuration Sample2.Number_toString
           Sample2.two_weeks); reflexivity.
Defined.

(** ** How the filters compose *)

Section Filters.
Context {A : Type}.

Lemma filter_filter_comm (p q : A -> bool) (l : list A) :
  List.filter p (List.filter q l) = List.filter q (List.filter p l).
Proof.
  induction l as [|x l IH]; simpl; [reflexivity|].
  destruct (p x) eqn:Hp, (q x) eqn:Hq; simpl; rewrite ?Hp, ?Hq, IH;
    reflexivity.
Qed.

Lemma filter_sublist_mono (p q : A -> bool) (l : list A) :
  (forall x, p x = true -> q x = true) ->
  sublist (List.filter p l) (List.filter q l).
Proof.
  intros Hpq. induction l as [|x l IH]; simpl; [constructor|].
  destruct (p x) eqn:Hp.
  - rewrite (Hpq x Hp). now constructor.
  - destruct (q x); [constructor|]; exact IH.
Qed.

End Filters.

(** The order of binary64 numbers is transitive. *)
Lemma SFleb_trans (a b c : spec_float) :
  SFleb a b = true -> SFleb b c = true -> SFleb a c = true.
Proof.
  unfold SFleb.
  destruct a as [sa|sa| |sa ma ea], b as [sb|sb| |sb mb eb],
    c as [sc|sc| |sc mc ec]; simpl;
    repeat match goal with s : bool |- _ => destruct s end;
    try reflexivity; try discriminate;
    rewrite ?Pos.compare_cont_spec; unfold Pos.switch_Eq;
    repeat match goal with
      | |- context [Z.compare ?x ?y] => destruct (Z.compare_spec x y)
      | |- context [Pos.compare ?x ?y] => destruct (Pos.compare_spec x y)
      end; simpl; subst; try reflexivity; try discriminate; try lia.
Qed.

Lemma leb_trans (x y z : float) :
  (x <=? y)%float = true -> (y <=? z)%float = true -> (x <=? z)%float = true.
Proof. rewrite !FloatAxioms.leb_spec. apply SFleb_trans. Qed.

(** X9.  A window whose cutoff is no later never loses a task: with the
    same tasks and the same instant, if the cutoff computed for [d2] is at
    most the cutoff computed for [d1], as binary64 numbers, the tasks within
    [d1] are a subsequence of those within [d2]. *)
Theorem extract_recent_tasks_at_monotone (Date_getTime : string -> option Z)
    (now : Z) (tasks : list Task) (d1 d2 : Duration) :
  (Binary64.of_Z now - getTime_Duration d2
   <=? Binary64.of_Z now - getTime_Duration d1)%float = true ->
  sublist (extract_recent_tasks_at Date_getTime now tasks d1)
    (extract_recent_tasks_at Date_getTime now tasks d2).
Proof.
  intros Hle. unfold extract_recent_tasks_at. apply filter_sublist_mono.
  intros task. unfold is_recent.
  destruct (Date_getTime (date task)) as [t|]; [|discriminate].
  now apply leb_trans.
Qed.

Lemma extract_recent_tasks_at_monotone_witness :
  sublist
    (extract_recent_tasks_at Sample.Date_getTime Sample.now
       [Sample.task_now; Sample.task_2h; Sample.task_2d]
       {| n := 1; unit := Hour |})
    (extract_recent_tasks_at Sample.Date_getTime Sample.now
       [Sample.task_now; Sample.task_2h; Sample.task_2d]
       {| n := 1; unit := Day |}).
Proof.
  apply extract_recent_tasks_at_monotone. vm_compute. reflexivity.
Defined.

(** X10.  The two filters of [show] can be taken in either order: the tasks
    within the duration among those that carry a tag are the tasks that
    carry a tag among those within the duration. *)
Theorem show_filters_commute (Date_getTime : string -> option Z) (now : Z)
    (d : Duration) (filter_tags : list string) (tasks : list Task) :
  select_by_tags filter_tags (extract_recent_tasks_at Date_getTime now tasks d)
  = extract_recent_tasks_at Date_getTime now
      (select_by_tags filter_tags tasks) d.
Proof.
  unfold select_by_tags, extract_recent_tasks_at.
  destruct (0 <? length filter_tags)%nat; [|reflexivity].
  apply filter_filter_comm.
Qed.

(** ** [show] *)

Section Show.
Variable Date_getTime : string -> option Z.
Variable clock : nat -> Z.
Variable argv : Argv.

Lemma select_by_tags_elem_of filter_tags tasks task :
  task ∈ select_by_tags filter_tags tasks
  <-> task ∈ tasks
      /\ (filter_tags = [] \/ carries_some_tag filter_tags task).
Proof.
  unfold select_by_tags. destruct filter_tags as [|tag rest]; simpl.
  - split; [auto | now intros [? _]].
  - rewrite filter_elem_of, has_some_tag_spec. split.
    + intros [? ?]. auto.
    + intros [? [[=] | ?]]. auto.
Qed.

Lemma select_by_tags_sublist filter_tags tasks :
  sublist (select_by_tags filter_tags tasks) tasks.
Proof.
  unfold select_by_tags. destruct (0 <? length filter_tags)%nat;
    [apply filter_is_sublist | reflexivity].
Qed.

(** X11.  [show] with a duration, on a task file that loads: the tasks it
    prints are a subsequence of the stored tasks, namely those dated since
    the instant read minus the duration that also carry one of the filter
    tags when there are any; it prints them when there is at least one and
    the line for no task otherwise; and it changes nothing but the console
    and the clock. *)
Theorem command_show_selects (arg tags_option : string) (short : bool)
    (w : world) (tasks : list Task) (d : Duration) :
  fst (load_tasks argv w) = Return tasks ->
  parseDuration arg = Return d ->
  exists shown : list Task,
    sublist shown tasks
    /\ (forall task,
          task ∈ shown
          <-> task ∈ tasks
              /\ dated_since Date_getTime (clock (ticks w)) d task
              /\ (show_filter_tags tags_option = []
                  \/ carries_some_tag (show_filter_tags tags_option) task))
    /\ command_show Date_getTime clock argv (Some arg) tags_option short w
       = (Return tt,
          printed match shown with
                  | [] => LogNoTasks
                  | _ :: _ => LogTasks short shown
                  end (ticked w)).
Proof.
  intros Hload Hd.
  exists (select_by_tags (show_filter_tags tags_option)
            (extract_recent_tasks_at Date_getTime (clock (ticks w)) tasks d)).
  split_and!.
  - etransitivity; [apply select_by_tags_sublist|].
    apply extract_recent_tasks_at_sublist.
  - intros task. rewrite select_by_tags_elem_of.
    rewrite extract_recent_tasks_at_elem_of. tauto.
  - pose proof (load_tasks_world argv w) as Hw.
    destruct (load_tasks argv w) as [o w0] eqn:Hl. simpl in *. subst.
    unfold command_show. apply tryAppResult_Return with (a := tt).
    step Hl. unfold bind at 1, lift at 1. rewrite Hd.
    unfold bind at 1, extract_recent_tasks, bind at 1, new_Date, ret.
    fold (show_filter_tags tags_option).
    now destruct (select_by_tags _ _).
Qed.

End Show.

Lemma command_show_selects_witness :
  exists shown : list Task,
    sublist shown [Sample.task_now; Sample.task_2h; Sample.task_2d]
    /\ command_show Sample.Date_getTime Sample.clock Sample.argv
         (Some "1 day") "b" true (Sample.initialized "{}")
       = (Return tt,
          printed match shown with
                  | [] => LogNoTasks
                  | _ :: _ => LogTasks true shown
                  end (ticked (Sample.initialized "{}"))).
Proof.
  destruct (command_show_selects Sample.Date_getTime Sample.clock Sample.argv
              "1 day" "b" true (Sample.initialized "{}")
              [Sample.task_now; Sample.task_2h; Sample.task_2d]
              Sample.one_day)
    as (shown & Hsub & _ & Hrun).
  - vm_compute. reflexivity.
  - reflexivity.
  - exists shown. split; assumption.
Defined.

(** ** What a command leaves alone *)

Create HintDb quiet discriminated.

Section Quiet.
Context {A B X : Type} (part : world -> X).

Lemma quiet_ret (a : A) : keeps part (ret a).
Proof. now intros w. Qed.

Lemma quiet_throw (e : error) : keeps part (@throw A e).
Proof. now intros w. Qed.

Lemma quiet_lift (o : outcome A) : keeps part (lift o).
Proof. now intros w. Qed.

Lemma quiet_bind (c : M A) (k : A -> M B) :
  keeps part c -> (forall a, keeps part (k a)) -> keeps part (bind c k).
Proof.
  intros Hc Hk w. unfold bind. specialize (Hc w).
  destruct (c w) as [[a|e] w']; simpl in *; [|assumption].
  now rewrite Hk.
Qed.

Lemma quiet_try_catch (body : M A) (handler : error -> M A) :
  keeps part body -> (forall e, keeps part (handler e)) ->
  keeps part (try_catch body handler).
Proof.
  intros Hb Hh w. unfold try_catch. specialize (Hb w).
  destruct (body w) as [[a|e] w']; simpl in *; [assumption|].
  now rewrite Hh.
Qed.

End Quiet.

Lemma quiet_tryAppResult {A X} (part : world -> X) (k : M A) :
  (forall o, keeps part (console_log o)) -> keeps part k ->
  keeps part (tryAppResult k).
Proof.
  intros Hlog Hk. unfold tryAppResult.
  apply quiet_try_catch; [apply quiet_bind; [exact Hk | intros; apply quiet_ret]|].
  intros [msg| | | |]; auto using quiet_throw.
Qed.

Lemma quiet_read_json {X} (part : world -> X) path :
  keeps part (read_json path).
Proof. intros w. now rewrite read_json_world. Qed.

Lemma quiet_load_config {X} (part : world -> X) argv :
  keeps part (load_config argv).
Proof. intros w. now rewrite load_config_world. Qed.

Lemma quiet_load_tasks {X} (part : world -> X) argv :
  keeps part (load_tasks argv).
Proof. intros w. now rewrite load_tasks_world. Qed.

Lemma requests_console_log o : keeps requests (console_log o).
Proof. now intros w. Qed.

Lemma requests_new_Date clock : keeps requests (new_Date clock).
Proof. now intros w. Qed.

Lemma requests_write_file path text : keeps requests (write_file path text).
Proof. now intros w. Qed.

Lemma files_console_log o : keeps files (console_log o).
Proof. now intros w. Qed.

#[local] Hint Resolve quiet_ret quiet_throw quiet_lift quiet_read_json
  quiet_load_config quiet_load_tasks requests_console_log requests_new_Date
  requests_write_file files_console_log : quiet.
#[local] Hint Extern 2 (keeps _ (bind _ _)) =>
  apply quiet_bind; [|intros ?] : quiet.
#[local] Hint Extern 2 (keeps _ (tryAppResult _)) =>
  apply quiet_tryAppResult; [intros ?|] : quiet.
#[local] Hint Extern 3 (keeps _ (match ?x with _ => _ end)) =>
  destruct x : quiet.
#[local] Hint Extern 3 (keeps _ (if ?x then _ else _)) =>
  destruct x : quiet.

Lemma keeps_files_keeps {A} (c : M A) : keeps_files c -> keeps files c.
Proof. exact (fun H => H). Qed.

(** X12.  The commands that only read: [show] and [config-show] write no
    file and send no request, whatever they are given and whether they
    fail or not; [summarize] writes no file. *)
Theorem read_only_commands (Date_getTime : string -> option Z)
    (clock : nat -> Z)
    (chat : list chat_request -> chat_request -> chat_response)
    (argv : Argv) :
  (forall recency_arg tags_option short,
      keeps files
        (command_show Date_getTime clock argv recency_arg tags_option short)
      /\ keeps requests
           (command_show Date_getTime clock argv recency_arg tags_option
              short))
  /\ keeps files (command_config_show argv)
  /\ keeps requests (command_config_show argv)
  /\ (forall duration,
        keeps files (command_summarize Date_getTime clock chat argv duration)).
Proof.
  split_and!.
  - intros recency_arg tags_option short. unfold command_show, extract_recent_tasks.
    split.
    + apply quiet_tryAppResult; [intros; apply files_console_log|].
      apply keeps_files_keeps. auto 12 with keeps.
    + auto 14 with quiet.
  - unfold command_config_show. auto 8 with quiet.
  - unfold command_config_show. auto 8 with quiet.
  - intros duration. unfold command_summarize.
    apply quiet_tryAppResult; [intros; apply files_console_log|].
    apply keeps_files_keeps. auto 14 with keeps.
Qed.

Lemma filepaths_differ (argv : Argv) :
  get_config_filepath argv <> get_tasks_filepath argv.
Proof.
  unfold get_config_filepath, get_tasks_filepath. intros H.
  apply String.app_inj in H. discriminate H.
Qed.

Section WritesOnly.
Context {A B : Type} (path : string).

Lemma writes_only_keeps (c : M A) : keeps_files c -> writes_only path c.
Proof. intros Hc w p _. now rewrite Hc. Qed.

Lemma writes_only_bind (c : M A) (k : A -> M B) :
  writes_only path c -> (forall a, writes_only path (k a)) ->
  writes_only path (bind c k).
Proof.
  intros Hc Hk w p Hp. unfold bind. specialize (Hc w p Hp).
  destruct (c w) as [[a|e] w']; simpl in *; [|assumption].
  now rewrite Hk.
Qed.

Lemma writes_only_tryAppResult (k : M A) :
  writes_only path k -> writes_only path (tryAppResult k).
Proof.
  intros Hk w p Hp. unfold tryAppResult, try_catch, bind, ret.
  specialize (Hk w p Hp).
  destruct (k w) as [[a|[msg| | | |]] w']; simpl in *; assumption.
Qed.

End WritesOnly.

Lemma writes_only_write_file path text : writes_only path (write_file path text).
Proof. intros w p Hp. simpl. now apply lookup_insert_ne. Qed.

Section OneFile.
Variable JSON_stringify : json -> string.
Variable Date_getTime : string -> option Z.
Variable toUTCString : Z -> string.
Variable clock : nat -> Z.
Variable chat : list chat_request -> chat_request -> chat_response.
Variable argv : Argv.

Lemma writes_only_command_new task tags_option :
  writes_only (get_tasks_filepath argv)
    (command_new JSON_stringify Date_getTime toUTCString clock chat argv task
       tags_option).
Proof.
  unfold command_new, save_tasks. apply writes_only_tryAppResult.
  repeat (apply writes_only_bind;
          [apply writes_only_keeps; solve [auto with keeps] | intros ?]).
  apply writes_only_bind; [apply writes_only_write_file | intros ?].
  apply writes_only_keeps. auto with keeps.
Qed.

Lemma writes_only_command_gen_short_descriptions :
  writes_only (get_tasks_filepath argv)
    (command_gen_short_descriptions JSON_stringify chat argv).
Proof.
  unfold command_gen_short_descriptions, save_tasks.
  apply writes_only_tryAppResult.
  apply writes_only_bind;
    [apply writes_only_keeps; auto with keeps | intros tasks].
  apply writes_only_bind;
    [apply writes_only_keeps, keeps_gen_loop | intros r].
  apply writes_only_bind; [apply writes_only_write_file | intros ?].
  apply writes_only_keeps. auto with keeps.
Qed.

Lemma writes_only_command_config_set key val :
  writes_only (get_config_filepath argv)
    (command_config_set JSON_stringify argv key val).
Proof.
  unfold command_config_set, save_config. apply writes_only_tryAppResult.
  apply writes_only_bind;
    [apply writes_only_keeps; auto with keeps | intros k].
  apply writes_only_bind;
    [apply writes_only_keeps; auto with keeps | intros cfg].
  apply writes_only_bind;
    [apply writes_only_keeps; destruct k; auto with keeps | intros cfg'].
  apply writes_only_bind; [apply writes_only_write_file | intros ?].
  apply writes_only_keeps. auto with keeps.
Qed.

(** X13.  Each command that writes has one file it writes: [new] and
    [gen-short-descriptions] leave every file but the task file as it was,
    the config file among them; [config-set] and [config-reset] leave every
    file but the config file as it was, the task file among them. *)
Theorem commands_write_one_file (w : world) :
  (forall task tags_option,
      writes_only (get_tasks_filepath argv)
        (command_new JSON_stringify Date_getTime toUTCString clock chat argv
           task tags_option)
      /\ files (snd (command_new JSON_stringify Date_getTime toUTCString
                       clock chat argv task tags_option w))
         !! get_config_filepath argv
         = files w !! get_config_filepath argv)
  /\ writes_only (get_tasks_filepath argv)
       (command_gen_short_descriptions JSON_stringify chat argv)
  /\ files (snd (command_gen_short_descriptions JSON_stringify chat argv w))
     !! get_config_filepath argv
     = files w !! get_config_filepath argv
  /\ (forall key val,
        writes_only (get_config_filepath argv)
          (command_config_set JSON_stringify argv key val)
        /\ files (snd (command_config_set JSON_stringify argv key val w))
           !! get_tasks_filepath argv
           = files w !! get_tasks_filepath argv)
  /\ writes_only (get_config_filepath argv)
       (command_config_reset JSON_stringify argv)
  /\ files (snd (command_config_reset JSON_stringify argv w))
     !! get_tasks_filepath argv
     = files w !! get_tasks_filepath argv.
Proof.
  pose proof (filepaths_differ argv) as Hne.
  assert (Hreset : writes_only (get_config_filepath argv)
                     (command_config_reset JSON_stringify argv)).
  { unfold command_config_reset, save_config.
    apply writes_only_tryAppResult, writes_only_write_file. }
  split_and!.
  - intros task tags_option. split; [apply writes_only_command_new|].
    now apply writes_only_command_new.
  - apply writes_only_command_gen_short_descriptions.
  - now apply writes_only_command_gen_short_descriptions.
  - intros key val. split; [apply writes_only_command_config_set|].
    apply writes_only_command_config_set. congruence.
  - exact Hreset.
  - apply Hreset. congruence.
Qed.

End OneFile.

(** ** The requests for short descriptions *)

Section ShortDescriptions.
Variable chat : list chat_request -> chat_request -> chat_response.
Variable argv : Argv.


(** The loop, one step at a task without short description. *)
Lemma gen_loop_step task rest count w cfg :
  short_description task = None ->
  fst (load_config argv w) = Return cfg ->
  let req := short_description_request cfg (description task) in
  gen_loop chat argv (task :: rest) count w
  = match chat (requests w) req with
    | Completed (Some text :: _) =>
        bind (gen_loop chat argv rest (S count))
          (fun r =>
             ret ({| date := date task; description := description task;
                     short_description := Some text; tags := tags task |}
                  :: fst r, snd r))
          (printed (LogGenerated text)
             (sent req (printed (LogGenerating (description task)) w)))
    | Completed (None :: _) =>
        (Throw (AppError (ShortDescriptionError (AppError NullContent))),
         sent req (printed (LogGenerating (description task)) w))
    | Completed [] =>
        (Throw (AppError (ShortDescriptionError TypeError)),
         sent req (printed (LogGenerating (description task)) w))
    | Rejected =>
        (Throw (AppError (ShortDescriptionError RequestError)),
         sent req (printed (LogGenerating (description task)) w))
    end.
Proof.
  intros Hnone Hcfg req. simpl. rewrite Hnone.
  unfold bind at 1; simpl. unfold bind at 1.
  assert (Hcfg' : fst (load_config argv
                         (printed (LogGenerating (description task)) w))
                  = Return cfg)
    by now rewrite (load_config_files argv w).
  rewrite (generate_short_description_reply chat argv (description task)
             _ cfg Hcfg').
  fold (short_description_request cfg (description task)). fold req.
  change (requests (printed (LogGenerating (description task)) w))
    with (requests w).
  destruct (chat (requests w) req) as [|[|[text|] tl]]; reflexivity.
Qed.

(** X15.  A run of the loop of [gen-short-descriptions] that returns has
    called [create] once for each task without short description, in the
    order of the tasks, each time with the description of its task and the
    settings of the config, and has made no other call. *)
Theorem gen_loop_requests (tasks : list Task) (count : nat) (w w' : world)
    (r : list Task * nat) (cfg : Config) :
  fst (load_config argv w) = Return cfg ->
  gen_loop chat argv tasks count w = (Return r, w') ->
  requests w'
  = (rev (map (fun task => short_description_request cfg (description task))
            (List.filter lacks_short_description tasks))
     ++ requests w)%list.
Proof.
  revert count w r.
  induction tasks as [|task rest IH]; intros count w r Hcfg Hrun.
  - simpl in Hrun. now injection Hrun as <- <-.
  - simpl List.filter. unfold lacks_short_description at 1.
    destruct (short_description task) as [text|] eqn:Hsd.
    + simpl in Hrun. rewrite Hsd in Hrun. unfold bind at 1 in Hrun.
      destruct (gen_loop chat argv rest count w) as [[r0|e] w0] eqn:Hrest;
        [|discriminate].
      injection Hrun as <- <-. now apply (IH _ _ _ Hcfg Hrest).
    + rewrite (gen_loop_step task rest count w cfg Hsd Hcfg) in Hrun.
      destruct (chat (requests w) _) as [|[|[text|] tl]]; try discriminate.
      unfold bind at 1 in Hrun.
      destruct (gen_loop chat argv rest (S count) _) as [[r0|e] w0] eqn:Hrest;
        [|discriminate].
      injection Hrun as <- <-.
      erewrite (IH _ _ _ _ Hrest). simpl. now rewrite <- app_assoc.
      Unshelve. now rewrite (load_config_files argv w).
Qed.

Lemma gen_loop_nothing_to_do (tasks : list Task) (count : nat) (w : world) :
  Forall (fun task => is_Some (short_description task)) tasks ->
  gen_loop chat argv tasks count w = (Return (tasks, count), w).
Proof.
  induction 1 as [|task rest [text Htext] _ IH]; simpl; [reflexivity|].
  rewrite Htext. unfold bind. now rewrite IH.
Qed.

End ShortDescriptions.

Lemma backfilled_is_Some (tasks tasks' : list Task) :
  Forall2 backfilled tasks tasks' ->
  Forall (fun task => is_Some (short_description task)) tasks'.
Proof.
  induction 1 as [|t t' l l' (_ & _ & _ & Hsd) _ IH]; constructor;
    [|exact IH].
  destruct (short_description t) as [text|]; [rewrite Hsd; eauto | exact Hsd].
Qed.

(** X16.  Filling the blanks is done once: on the tasks a returning loop
    produced, the loop sends no request, prints nothing, and returns the
    same tasks, whatever the endpoint would answer. *)
Theorem gen_loop_idempotent
    (chat chat' : list chat_request -> chat_request -> chat_response)
    (argv : Argv) (tasks : list Task) (count count' : nat)
    (w w' w2 : world) (r : list Task * nat) :
  gen_loop chat argv tasks count w = (Return r, w') ->
  gen_loop chat' argv (fst r) count' w2 = (Return (fst r, count'), w2).
Proof.
  intros Hrun. apply gen_loop_nothing_to_do.
  apply (backfilled_is_Some tasks).
  now destruct (gen_loop_backfilled chat argv tasks count w r w' Hrun).
Qed.


Lemma gen_loop_requests_witness :
  requests
    (snd (gen_loop Sample.chat_answers Sample.argv
            [Sample.task_now; Sample.task_2h; Sample.task_2d] 0%nat
            (Sample.initialized "{}")))
  = [short_description_request
       {| baseURL := None; apiKey := None; model := None; recency := None |}
       "read the mail";
     short_description_request
       {| baseURL := None; apiKey := None; model := None; recency := None |}
       "wrote the report"].
Proof.
  rewrite (gen_loop_requests Sample.chat_answers Sample.argv
             [Sample.task_now; Sample.task_2h; Sample.task_2d] 0%nat
             (Sample.initialized "{}")
             (snd (gen_loop Sample.chat_answers Sample.argv
                     [Sample.task_now; Sample.task_2h; Sample.task_2d] 0%nat
                     (Sample.initialized "{}")))
             (match fst (gen_loop Sample.chat_answers Sample.argv
                           [Sample.task_now; Sample.task_2h; Sample.task_2d]
                           0%nat (Sample.initialized "{}")) with
              | Return r => r
              | Throw _ => ([], 0%nat)
              end)
             {| baseURL := None; apiKey := None; model := None;
                recency := None |}).
  - reflexivity.
  - vm_compute. reflexivity.
  - vm_compute. reflexivity.
Defined.

Lemma gen_loop_idempotent_witness :
  gen_loop Sample.chat_rejects Sample.argv
    [{| date := date Sample.task_now;
        description := description Sample.task_now;
        short_description := Some "summary of wrote the report";
        tags := tags Sample.task_now |}; Sample.task_2h]
    5%nat Sample.uninitialized
  = (Return
       ([{| date := date Sample.task_now;
            description := description Sample.task_now;
            short_description := Some "summary of wrote the report";
            tags := tags Sample.task_now |}; Sample.task_2h], 5%nat),
     Sample.uninitialized).
Proof.
  apply (gen_loop_idempotent Sample.chat_answers Sample.chat_rejects
           Sample.argv [Sample.task_now; Sample.task_2h] 0%nat 5%nat
           (Sample.initialized "{}")
           (snd (gen_loop Sample.chat_answers Sample.argv
                   [Sample.task_now; Sample.task_2h] 0%nat
                   (Sample.initialized "{}")))
           Sample.uninitialized
           ([{| date := date Sample.task_now;
                description := description Sample.task_now;
                short_description := Some "summary of wrote the report";
                tags := tags Sample.task_now |}; Sample.task_2h], 1%nat)).
  vm_compute. reflexivity.
Defined.

(** ** [new], step by step *)

Lemma split_not_nil (sep : ascii) (s : string) : JsString.split sep s <> [].
Proof.
  destruct s as [|c s]; simpl; [discriminate|].
  destruct (Ascii.eqb c sep); [discriminate|].
  destruct (JsString.split sep s); discriminate.
Qed.

Lemma is_empty_spec (s : string) :
  JsString.is_empty s = true <-> s = EmptyString.
Proof. destruct s; simpl; split; congruence. Qed.

Section NewRun.
Variable JSON_stringify : json -> string.
Variable Date_getTime : string -> option Z.
Variable toUTCString : Z -> string.
Variable clock : nat -> Z.
Variable chat : list chat_request -> chat_request -> chat_response.
Variable argv : Argv.

(** X17.  A run of [new] on a directory whose two files load, when the
    call to [create] for the trimmed description is answered with a text.
    That call is the only one.  The task file is written with the stored tasks
    followed by the new task, whose date is the first instant read, whose
    description is the argument trimmed and whose short description is the
    text answered.  The count printed is the number of these tasks, the new
    one included, dated within the recency of the config (the default one
    when the config has none) of the second instant read.  And if the text
    written parses back to the value it was written from, a load of the
    task file afterwards gives the stored tasks followed by the new one. *)
Theorem command_new_run (task : string) (tags_option : option string)
    (w : world) (cfg : Config) (text : string) (rest : list (option string))
    (old : list Task) :
  fst (load_config argv w) = Return cfg ->
  chat (requests w) (short_description_request cfg (JsString.trim task))
  = Completed (Some text :: rest) ->
  fst (load_tasks argv w) = Return old ->
  let created :=
    created_task task tags_option (toUTCString (clock (ticks w))) text in
  let d := or_default recency {| n := 1; unit := Day |} cfg in
  let w' :=
    printed
      (LogCreated
         (length (extract_recent_tasks_at Date_getTime (clock (S (ticks w)))
                    (old ++ [created]) d))
         d)
      (written (get_tasks_filepath argv)
         (JSON_stringify (encode_Tasks (old ++ [created])))
         (ticked
            (sent (short_description_request cfg (JsString.trim task))
               (ticked w)))) in
  command_new JSON_stringify Date_getTime toUTCString clock chat argv task
    tags_option w
  = (Return tt, w')
  /\ (JSON_parse (JSON_stringify (encode_Tasks (old ++ [created])))
      = Some (encode_Tasks (old ++ [created])) ->
      load_tasks argv w' = (Return (old ++ [created])%list, w')).
Proof.
  intros Hcfg Hchat Hold created d w'. split.
  - unfold command_new. apply tryAppResult_Return with (a := tt).
    unfold bind at 1; simpl.
    pose proof (load_config_world argv (ticked w)) as Hw1.
    assert (Hcfg1 : fst (load_config argv (ticked w)) = Return cfg)
      by now rewrite (load_config_files argv w).
    destruct (load_config argv (ticked w)) as [o1 w1] eqn:Hl1.
    simpl in Hw1, Hcfg1. subst. step Hl1.
    assert (Hcfg1 : fst (load_config argv (ticked w)) = Return cfg)
      by now rewrite Hl1.
    unfold bind at 1.
    rewrite (generate_short_description_reply chat argv _ _ cfg Hcfg1).
    fold (short_description_request cfg (JsString.trim task)).
    change (requests (ticked w)) with (requests w). rewrite Hchat.
    set (w2 := sent _ (ticked w)).
    pose proof (load_tasks_world argv w2) as Hw3.
    assert (Hold2 : fst (load_tasks argv w2) = Return old)
      by now rewrite (load_tasks_files argv w).
    destruct (load_tasks argv w2) as [o3 w3] eqn:Hl3.
    simpl in Hw3, Hold2. subst. step Hl3.
    reflexivity.
  - intros Hround. unfold load_tasks, bind, read_json, lift.
    subst w'. cbn [files printed written].
    rewrite lookup_insert_eq, (strip_BOM_parsed _ _ Hround), Hround,
      Tasks_schema_encode. reflexivity.
Qed.

End NewRun.

Lemma command_new_run_witness :
  fst (command_new Sample.JSON_stringify Sample.Date_getTime
         Sample.toUTCString Sample.clock Sample.chat_answers Sample.argv
         "  paid the bills " (Some " home,money ") (Sample.initialized "{}"))
  = Return tt
  /\ console
       (snd (command_new Sample.JSON_stringify Sample.Date_getTime
               Sample.toUTCString Sample.clock Sample.chat_answers
               Sample.argv "  paid the bills " (Some " home,money ")
               (Sample.initialized "{}")))
     = [LogCreated 3 Sample.one_day].
Proof.
  destruct (command_new_run Sample.JSON_stringify Sample.Date_getTime
              Sample.toUTCString Sample.clock Sample.chat_answers Sample.argv
              "  paid the bills " (Some " home,money ")
              (Sample.initialized "{}")
              {| baseURL := None; apiKey := None; model := None;
                 recency := None |}
              "summary of paid the bills" []
              [Sample.task_now; Sample.task_2h; Sample.task_2d])
    as [Hrun _].
  - vm_compute. reflexivity.
  - reflexivity.
  - vm_compute. reflexivity.
  - rewrite Hrun. split; reflexivity.
Defined.

(** X18.  [new] and [show] read their [--tags] option the same way: a task
    created with a tags argument that is not blank is selected by [show]
    with the same argument. *)
Theorem created_task_found_by_its_tags (task arg date_string sd : string) :
  JsString.trim arg <> EmptyString ->
  select_by_tags (show_filter_tags arg)
    [created_task task (Some arg) date_string sd]
  = [created_task task (Some arg) date_string sd].
Proof.
  intros Hblank. unfold show_filter_tags, select_by_tags.
  destruct (JsString.is_empty (JsString.trim arg)) eqn:Hempty.
  { apply is_empty_spec in Hempty. contradiction. }
  pose proof (split_not_nil "," (JsString.trim arg)) as Hne.
  destruct (JsString.split "," (JsString.trim arg)) as [|x l] eqn:Hsplit;
    [contradiction|].
  cbn [length Nat.ltb Nat.leb List.filter].
  replace (has_some_tag (x :: l) (created_task task (Some arg) date_string sd))
    with true; [reflexivity|].
  unfold has_some_tag, created_task. cbn [tags]. rewrite Hempty, Hsplit.
  cbn [forallb includes existsb]. now rewrite String.eqb_refl.
Qed.

Lemma created_task_found_by_its_tags_witness :
  select_by_tags (show_filter_tags " home,money ")
    [created_task "paid" (Some " home,money ") "Tue" "paid the bills"]
  = [created_task "paid" (Some " home,money ") "Tue" "paid the bills"].
Proof. apply created_task_found_by_its_tags. discriminate. Defined.

(** ** [config-set] *)

Lemma load_config_Return (argv : Argv) (w : world) (text : string)
    (file override : Config) :
  files w !! get_config_filepath argv = Some text ->
  reads_as_Config text file ->
  reads_as_Config (config argv) override ->
  load_config argv w = (Return (spread file override), w).
Proof.
  intros Hfile (v & Hv & Hcfg) (vo & Hvo & Hover).
  unfold load_config, bind, read_json, lift, ret.
  now rewrite Hfile, (strip_BOM_parsed _ _ Hv), Hv, Hcfg, Hvo, Hover.
Qed.

Lemma text_field_spread (k : Config_key) (a b : Config) :
  text_field k (spread a b)
  = match text_field k b with
    | Some v => Some v
    | None => text_field k a
    end.
Proof.
  destruct k; simpl; try reflexivity.
  - now destruct (baseURL b), (baseURL a).
  - now destruct (apiKey b), (apiKey a).
  - now destruct (model b), (model a).
Qed.

Section ConfigSet.
Variable JSON_stringify : json -> string.
Variable argv : Argv.

(** X19.  [config-set] with one of the four keys, when the config file and
    the inline override read as configs.  What it writes is the override
    spread over the file, with the field set: the override of this run is
    stored with it.  For [recency] the value goes through [parseDuration],
    and nothing is written when that throws.  For a text key, if the
    recency that is written with it has a finite count and the text written
    parses back to the value it was written from, a load of the config
    afterwards has the field at the value set, unless the override defines
    that field, which then still wins.  (A recency with an infinite count is
    written with [null] for the count, and the load then fails.) *)
Theorem command_config_set_run (key val : string) (w : world)
    (k : Config_key) (text : string) (file override : Config) :
  Config_keyof (JString key) = Some k ->
  files w !! get_config_filepath argv = Some text ->
  reads_as_Config text file ->
  reads_as_Config (config argv) override ->
  let saved (c : Config) :=
    (Return tt,
     printed (LogConfigUpdated (get_config_filepath argv))
       (written (get_config_filepath argv)
          (JSON_stringify (encode_Config c)) w)) in
  match k with
  | Key_recency =>
      match parseDuration val with
      | Return d =>
          command_config_set JSON_stringify argv key val w
          = saved (with_recency d (spread file override))
      | Throw e =>
          command_config_set JSON_stringify argv key val w
          = tryAppResult (@throw Datatypes.unit e) w
      end
  | _ =>
      command_config_set JSON_stringify argv key val w
      = saved (with_text k val (spread file override))
      /\ (finite_recency (spread file override) ->
          JSON_parse
            (JSON_stringify
               (encode_Config (with_text k val (spread file override))))
          = Some (encode_Config (with_text k val (spread file override))) ->
          exists loaded,
            fst (load_config argv
                   (snd (command_config_set JSON_stringify argv key val w)))
            = Return loaded
            /\ text_field k loaded
               = match text_field k override with
                 | Some v => Some v
                 | None => Some val
                 end)
  end.
Proof.
  intros Hkey Hfile Hread Hover saved.
  pose proof (load_config_Return argv w text file override Hfile Hread Hover)
    as Hload.
  assert (Htext : k <> Key_recency ->
            command_config_set JSON_stringify argv key val w
            = saved (with_text k val (spread file override))
            /\ (finite_recency (spread file override) ->
                JSON_parse
                  (JSON_stringify
                     (encode_Config (with_text k val (spread file override))))
                = Some (encode_Config
                          (with_text k val (spread file override))) ->
                exists loaded,
                  fst (load_config argv
                         (snd (command_config_set JSON_stringify argv key
                                 val w)))
                  = Return loaded
                  /\ text_field k loaded
                     = match text_field k override with
                       | Some v => Some v
                       | None => Some val
                       end)).
  { intros Hk.
    assert (Hrun : command_config_set JSON_stringify argv key val w
                   = saved (with_text k val (spread file override))).
    { unfold command_config_set. apply tryAppResult_Return with (a := tt).
      unfold bind at 1, lift at 1. rewrite Hkey. simpl.
      step Hload. destruct k; try contradiction; reflexivity. }
    split; [exact Hrun|]. intros Hfin Hround. rewrite Hrun.
    exists (spread (stored_Config (with_text k val (spread file override)))
              override).
    split.
    - erewrite load_config_Return; [reflexivity | | | exact Hover].
      + simpl. apply lookup_insert_eq.
      + eexists. split; [exact Hround | apply Config_schema_encode].
        destruct k; exact Hfin.
    - rewrite text_field_spread.
      destruct (text_field k override); [reflexivity|].
      destruct k; try contradiction; reflexivity. }
  destruct k; try (apply Htext; discriminate).
  destruct (parseDuration val) as [d|e] eqn:Hd.
  - unfold command_config_set. apply tryAppResult_Return with (a := tt).
    unfold bind at 1, lift at 1. rewrite Hkey. simpl.
    step Hload. unfold bind at 1, bind at 1, lift. rewrite Hd. reflexivity.
  - unfold command_config_set. apply tryAppResult_Throw.
    unfold bind at 1, lift at 1. rewrite Hkey. simpl.
    step Hload. unfold bind at 1, bind at 1, lift. now rewrite Hd.
Qed.

End ConfigSet.

Lemma command_config_set_run_witness :
  exists loaded,
    fst (load_config Sample.argv
           (snd (command_config_set (Sample2.writes Sample2.config_z)
                   Sample.argv "model" "z" (Sample.initialized "{}"))))
    = Return loaded
    /\ model loaded = Some "z".
Proof.
  destruct (command_config_set_run (Sample2.writes Sample2.config_z)
              Sample.argv "model" "z" (Sample.initialized "{}") Key_model
              "{}"
              {| baseURL := None; apiKey := None; model := None;
                 recency := None |}
              {| baseURL := None; apiKey := None; model := None;
                 recency := None |})
    as [_ Hthen].
  - reflexivity.
  - reflexivity.
  - eexists. split; vm_compute; reflexivity.
  - eexists. split; vm_compute; reflexivity.
  - destruct Hthen as (loaded & Hload & Hfield).
    + intros d [=].
    + vm_compute. reflexivity.
    + exists loaded. split; [exact Hload | exact Hfield].
Defined.

(** With a recency of infinite count in the config file, what [config-set]
    writes for another key holds [null] for the count, and the config no
    longer loads. *)
Example command_config_set_ex2 :
  JSON_parse Sample2.config_endless
  = Some (JObject {[ "recency" := JObject (<["n" := JNumber PrimFloat.infinity]>
                                            {[ "unit" := JString "day" ]}) ]})
  /\ JSON_parse Sample2.config_endless_z
     = Some (encode_Config {| baseURL := None; apiKey := None;
                              model := Some "z";
                              recency := Some Sample2.endless |})
  /\ files (snd (command_config_set (Sample2.writes Sample2.config_endless_z)
                   Sample.argv "model" "z"
                   (Sample.initialized Sample2.config_endless)))
     !! get_config_filepath Sample.argv
     = Some Sample2.config_endless_z
  /\ fst (load_config Sample.argv
            (snd (command_config_set (Sample2.writes Sample2.config_endless_z)
                    Sample.argv "model" "z"
                    (Sample.initialized Sample2.config_endless))))
     = Throw (AppError (ParseErrorAt "load_config")).
Proof. split_and!; vm_compute; reflexivity. Qed.

(** ** [tags-show] *)

Lemma Set_add_spec (elems : list string) (x : string) :
  (x ∈ elems /\ Set_add elems x = elems)
  \/ (~ x ∈ elems /\ Set_add elems x = (elems ++ [x])%list).
Proof.
  unfold Set_add. destruct (includes elems x) eqn:Hinc.
  - left. split; [now apply includes_spec | reflexivity].
  - right. split; [|reflexivity]. intros Hin.
    apply includes_spec in Hin. congruence.
Qed.

(** The elements added to a set in insertion order: they come after those
    it had, in the order of their first coming, each once. *)
Lemma fold_Set_add (l acc : list string) :
  NoDup acc ->
  exists k,
    fold_left Set_add l acc = (acc ++ k)%list
    /\ sublist k l
    /\ NoDup (acc ++ k)
    /\ (forall x, x ∈ (acc ++ k)%list <-> x ∈ acc \/ x ∈ l).
Proof.
  revert acc. induction l as [|x l IH]; intros acc Hnd; simpl.
  - exists []. rewrite app_nil_r. split_and!; [reflexivity | constructor | exact Hnd |].
    intros y. split; [auto | intros [? | H]; [assumption | inversion H]].
  - destruct (Set_add_spec acc x) as [[Hin ->] | [Hout ->]].
    + destruct (IH acc Hnd) as (k & Heq & Hsub & Hnd' & Hmem).
      exists k. split_and!; [exact Heq | now constructor | exact Hnd' |].
      intros y. rewrite Hmem, elem_of_cons. split; [tauto|].
      intros [? | [-> | ?]]; auto.
    + assert (Hnd2 : NoDup (acc ++ [x])).
      { apply NoDup_app. split_and!; [exact Hnd | | apply NoDup_singleton].
        intros y Hy Hyx. apply list_elem_of_singleton in Hyx. now subst. }
      destruct (IH (acc ++ [x])%list Hnd2) as (k & Heq & Hsub & Hnd' & Hmem).
      exists (x :: k). rewrite Heq, <- app_assoc. simpl.
      split_and!; [reflexivity | now constructor | |].
      * now rewrite <- app_assoc in Hnd'.
      * intros y. specialize (Hmem y). rewrite <- app_assoc in Hmem.
        simpl in Hmem. rewrite Hmem, elem_of_app, list_elem_of_singleton,
          elem_of_cons. tauto.
Qed.

Lemma elem_of_task_tags (tasks : list Task) (tag : string) :
  tag ∈ flat_map (fun task => default [] (tags task)) tasks
  <-> exists task ts, task ∈ tasks /\ tags task = Some ts /\ tag ∈ ts.
Proof.
  rewrite list_elem_of_In, in_flat_map. split.
  - intros (task & Hin & Htag). apply list_elem_of_In in Hin, Htag.
    destruct (tags task) as [ts|] eqn:Hts; simpl in Htag; [|inversion Htag].
    eauto.
  - intros (task & ts & Hin & Hts & Htag). exists task.
    rewrite <- !list_elem_of_In. rewrite Hts. auto.
Qed.

Lemma all_tags_elem_of (tasks : list Task) (tag : string) :
  tag ∈ all_tags tasks
  <-> exists task ts, task ∈ tasks /\ tags task = Some ts /\ tag ∈ ts.
Proof.
  unfold all_tags, Set_elements.
  destruct (fold_Set_add
              (flat_map (fun task => default [] (tags task)) tasks) [])
    as (k & -> & _ & _ & Hmem); [constructor|].
  rewrite Hmem, <- elem_of_task_tags. split; [|auto].
  intros [H | H]; [inversion H | exact H].
Qed.

(** Where an element first comes, the set has the elements that came
    before it, then the element, then elements that come after it. *)
Lemma Set_elements_first (pre post : list string) (x : string) :
  ~ x ∈ pre ->
  exists later,
    Set_elements (pre ++ x :: post) = (Set_elements pre ++ x :: later)%list
    /\ NoDup (Set_elements pre ++ x :: later)
    /\ (forall y, y ∈ later -> y ∈ post)
    /\ (forall y, y ∈ Set_elements pre <-> y ∈ pre).
Proof.
  intros Hx. unfold Set_elements. rewrite fold_left_app. simpl.
  destruct (fold_Set_add pre []) as (k0 & Heq0 & _ & Hnd0 & Hmem0);
    [constructor|].
  simpl in Heq0, Hnd0, Hmem0. rewrite Heq0.
  assert (Hpre : forall y, y ∈ k0 <-> y ∈ pre).
  { intros y. rewrite Hmem0. split; [|auto].
    intros [H | H]; [inversion H | exact H]. }
  destruct (Set_add_spec k0 x) as [[Hin _] | [_ ->]];
    [now apply Hpre in Hin|].
  destruct (fold_Set_add post (k0 ++ [x])) as (k & Heq & Hsub & Hnd & _).
  { apply NoDup_app. split_and!; [exact Hnd0 | | apply NoDup_singleton].
    intros y Hy Hyx. apply list_elem_of_singleton in Hyx. subst y.
    now apply Hpre in Hy. }
  rewrite <- app_assoc in Heq, Hnd. simpl in Heq, Hnd.
  exists k. split_and!; [exact Heq | exact Hnd | | exact Hpre].
  intros y Hy. eapply elem_of_sublist; [exact Hy | exact Hsub].
Qed.

(** In a list without repetition an element has one place. *)
Lemma NoDup_split_unique (a b a' b' : list string) (x : string) :
  NoDup (a ++ x :: b) -> (a ++ x :: b = a' ++ x :: b')%list ->
  a = a' /\ b = b'.
Proof.
  revert a'. induction a as [|z a IH]; intros a' Hnd Heq.
  - destruct a' as [|z' a']; simpl in *.
    + injection Heq as <-. auto.
    + injection Heq as <- ->. apply NoDup_cons in Hnd as [Hx _].
      exfalso. apply Hx. apply elem_of_app. right. left.
  - destruct a' as [|z' a']; simpl in *.
    + injection Heq as -> _. apply NoDup_cons in Hnd as [Hx _].
      exfalso. apply Hx. apply elem_of_app. right. left.
    + injection Heq as <- Heq. apply NoDup_cons in Hnd as [_ Hnd].
      destruct (IH a' Hnd Heq) as [-> ->]. auto.
Qed.

(** X20.  The tags that [tags-show] lists: each tag carried by some task,
    and no other; each once; in the order in which they first come when
    the tasks are read in order, each with its tags in order: of two tags,
    the one listed first is the one whose first occurrence comes first. *)
Theorem all_tags_distinct_in_order (tasks : list Task) :
  let every_tag := flat_map (fun task => default [] (tags task)) tasks in
  NoDup (all_tags tasks)
  /\ (forall tag,
        tag ∈ all_tags tasks
        <-> exists task ts, task ∈ tasks /\ tags task = Some ts /\ tag ∈ ts)
  /\ sublist (all_tags tasks) every_tag
  /\ (forall x y,
        (exists l1 l2 l3, all_tags tasks = (l1 ++ x :: l2 ++ y :: l3)%list)
        <-> (exists pre post,
               every_tag = (pre ++ x :: post)%list
               /\ ~ x ∈ pre /\ ~ y ∈ pre /\ x <> y /\ y ∈ post)).
Proof.
  intros every_tag.
  assert (Hmem : forall tag, tag ∈ all_tags tasks <-> tag ∈ every_tag).
  { intros tag. rewrite all_tags_elem_of. symmetry. apply elem_of_task_tags. }
  pose proof (all_tags_elem_of tasks) as Htasks.
  change (all_tags tasks) with (Set_elements every_tag) in *.
  clearbody every_tag.
  assert (Hnd : NoDup (Set_elements every_tag)
                /\ sublist (Set_elements every_tag) every_tag).
  { unfold Set_elements.
    destruct (fold_Set_add every_tag []) as (k & -> & Hsub & Hnd & _);
      [constructor | split; assumption]. }
  destruct Hnd as [Hnd Hsub].
  split_and!; [exact Hnd | exact Htasks | exact Hsub |].
  intros x y. split.
  - intros (l1 & l2 & l3 & Hall).
    assert (Hx : x ∈ every_tag).
    { apply Hmem. rewrite Hall. apply elem_of_app. right. left. }
    apply list_elem_of_split_l in Hx as (pre & post & -> & Hpre).
    destruct (Set_elements_first pre post x Hpre)
      as (later & Heq & _ & Hlater & Hin).
    rewrite Heq in Hall, Hnd.
    destruct (NoDup_split_unique _ _ _ _ _ Hnd Hall) as [<- ->].
    apply NoDup_app in Hnd as (_ & Hcross & Hright).
    apply NoDup_cons in Hright as [Hxl Hright].
    assert (Hy : y ∈ (l2 ++ y :: l3)%list)
      by (apply elem_of_app; right; left).
    exists pre, post. split_and!.
    + reflexivity.
    + exact Hpre.
    + intros Hyp. apply Hin in Hyp. apply (Hcross y Hyp). now right.
    + intros ->. contradiction.
    + now apply Hlater.
  - intros (pre & post & -> & Hx & Hy & Hne & Hpost).
    destruct (Set_elements_first pre post x Hx)
      as (later & Heq & _ & _ & Hin).
    assert (Hyl : y ∈ later).
    { assert (Hyall : y ∈ Set_elements (pre ++ x :: post)).
      { apply Hmem. apply elem_of_app. right. now right. }
      rewrite Heq in Hyall.
      apply elem_of_app in Hyall as [Hyp | Hyr].
      - now apply Hin in Hyp.
      - apply elem_of_cons in Hyr as [-> | Hyr]; [contradiction | exact Hyr]. }
    apply list_elem_of_split in Hyl as (l2 & l3 & ->).
    exists (Set_elements pre), l2, l3. exact Heq.
Qed.

(** X21.  [tags-show] and [show] agree: a tag is listed by [tags-show]
    exactly when [show] filtered by that one tag has a task to show. *)
Theorem all_tags_iff_show_finds (tasks : list Task) (tag : string) :
  tag ∈ all_tags tasks <-> select_by_tags [tag] tasks <> [].
Proof.
  rewrite all_tags_elem_of. split.
  - intros (task & ts & Hin & Hts & Htag) Hnil.
    assert (Hsel : task ∈ select_by_tags [tag] tasks).
    { apply select_by_tags_elem_of. split; [exact Hin | right].
      exists ts, tag. split_and!; [exact Hts | left | exact Htag]. }
    rewrite Hnil in Hsel. inversion Hsel.
  - intros Hne.
    destruct (select_by_tags [tag] tasks) as [|task l] eqn:Hsel;
      [contradiction|].
    assert (Hin : task ∈ select_by_tags [tag] tasks)
      by (rewrite Hsel; left).
    apply select_by_tags_elem_of in Hin
      as [Hin [[=] | (ts & tag' & Hts & Htag' & Hcarry)]].
    apply list_elem_of_singleton in Htag'. subst tag'. eauto.
Qed.

Example all_tags_ex :
  all_tags [Sample.task_2h; Sample.task_now; Sample.task_2d;
            {| date := "d"; description := "x"; short_description := None;
               tags := Some ["a"; "c"; "b"] |};
            {| date := "d"; description := "y"; short_description := None;
               tags := None |}]
  = ["b"; "a"; "c"].
Proof. reflexivity. Qed.

(** ** The viewer's tag filter *)

Lemma hidden_spec (filter_tags : list string) (task : Task) :
  filter_tags <> [] ->
  negb (App.hidden (list_to_set filter_tags) task)
  = has_some_tag filter_tags task.
Proof.
  intros Hne.
  assert (Hpos : (0 <? size (list_to_set filter_tags : gset string))%nat
                 = true).
  { apply Nat.ltb_lt.
    destruct filter_tags as [|x l]; [contradiction|].
    assert (size (list_to_set (x :: l) : gset string) <> 0%nat); [|lia].
    apply size_non_empty_iff. intros Hempty.
    assert (x ∈ (list_to_set (x :: l) : gset string)) as Hx
      by (apply elem_of_list_to_set; left).
    rewrite Hempty in Hx. now apply not_elem_of_empty in Hx. }
  unfold App.hidden. rewrite Hpos. cbn [andb].
  destruct (has_some_tag filter_tags task) eqn:Hsome.
  - apply has_some_tag_spec in Hsome as (ts & tag & Hts & Hft & Htag).
    rewrite Hts. cbn [default]. apply negb_true_iff, Nat.eqb_neq.
    apply size_non_empty_iff. intros Hempty.
    assert (tag ∈ (list_to_set filter_tags ∩ list_to_set ts : gset string))
      as Hin by (apply elem_of_intersection; split;
                 now apply elem_of_list_to_set).
    rewrite Hempty in Hin. now apply not_elem_of_empty in Hin.
  - apply negb_false_iff, Nat.eqb_eq, size_empty_iff.
    apply elem_of_equiv_empty. intros tag Hin.
    apply elem_of_intersection in Hin as [Hft Htag].
    apply elem_of_list_to_set in Hft, Htag.
    assert (has_some_tag filter_tags task = true); [|congruence].
    apply has_some_tag_spec.
    destruct (tags task) as [ts|] eqn:Hts; [|inversion Htag].
    exists ts, tag. auto.
Qed.

(** X22.  The viewer and [show] filter alike: with the filter tags of
    [show] as its active tags, the viewer renders the tasks [show] goes on
    with, in the same order; with no active tag, both keep every task. *)
Theorem viewer_renders_what_show_selects (filter_tags : list string)
    (tasks : list Task) :
  App.rendered (list_to_set filter_tags) tasks
  = select_by_tags filter_tags tasks.
Proof.
  unfold App.rendered, select_by_tags.
  destruct filter_tags as [|x l].
  - simpl. induction tasks as [|task tasks IH]; [reflexivity|].
    simpl. now rewrite IH.
  - cbn [length Nat.ltb Nat.leb]. apply filter_ext. intros task.
    now apply hidden_spec.
Qed.

(** X23.  Submitting a filter tag in the viewer: an input that is blank
    once trimmed leaves the active tags as they were; any other input adds
    its trimmed text to them, after which every task that carries that tag
    is rendered. *)
Theorem submitNewFilterTag_shows (new_tag : string) (active : gset string) :
  (JsString.trim new_tag = EmptyString ->
   App.submitNewFilterTag new_tag active = active)
  /\ (JsString.trim new_tag <> EmptyString ->
      App.submitNewFilterTag new_tag active
      = {[ JsString.trim new_tag ]} ∪ active
      /\ forall task ts,
           tags task = Some ts -> JsString.trim new_tag ∈ ts ->
           App.hidden (App.submitNewFilterTag new_tag active) task = false).
Proof.
  unfold App.submitNewFilterTag. split.
  - now intros ->.
  - intros Hne.
    destruct (JsString.trim new_tag) as [|c v] eqn:Hv; [contradiction|].
    cbn [String.length Nat.eqb]. split; [reflexivity|].
    intros task ts Hts Hin. unfold App.hidden. rewrite Hts. cbn [default].
    apply andb_false_iff. right. apply Nat.eqb_neq.
    apply size_non_empty_iff. intros Hempty.
    assert (String c v ∈ (({[String c v]} ∪ active) ∩ list_to_set ts
                          : gset string)) as Hx.
    { apply elem_of_intersection. split.
      - apply elem_of_union. left. now apply elem_of_singleton.
      - now apply elem_of_list_to_set. }
    rewrite Hempty in Hx. now apply not_elem_of_empty in Hx.
Qed.

Example viewer_ex :
  App.rendered (App.submitNewFilterTag " b " ∅)
    [Sample.task_now; Sample.task_2h; Sample.task_2d]
  = [Sample.task_2h].
Proof. vm_compute. reflexivity. Qed.

Lemma submitNewFilterTag_shows_witness :
  App.hidden (App.submitNewFilterTag " b " ∅) Sample.task_2h = false.
Proof.
  destruct (submitNewFilterTag_shows " b " ∅) as [_ Hadd].
  destruct Hadd as [_ Hshown]; [discriminate|].
  apply (Hshown Sample.task_2h ["b"]); [reflexivity | left].
Defined.

(** ** [summarize] and the command boundary *)

Lemma command_summarize_reply_witness :
  command_summarize Sample.Date_getTime Sample.clock Sample.chat_answers
    Sample.argv "1 day" (Sample.initialized "{}")
  = (Return tt,
     printed
       (LogSummary
          (Some ("summary of "
                 ++ req_user
                      (summarize_request
                         {| baseURL := None; apiKey := None; model := None;
                            recency := None |}
                         [Sample.task_now; Sample.task_2h]))))
       (sent (summarize_request
                {| baseURL := None; apiKey := None; model := None;
                   recency := None |}
                [Sample.task_now; Sample.task_2h])
          (ticked (Sample.initialized "{}")))).
Proof.
  rewrite (command_summarize_reply Sample.Date_getTime Sample.clock
             Sample.chat_answers Sample.argv "1 day"
             (Sample.initialized "{}")
             {| baseURL := None; apiKey := None; model := None;
                recency := None |}
             Sample.one_day
             [Sample.task_now; Sample.task_2h; Sample.task_2d]).
  - reflexivity.
  - vm_compute. reflexivity.
  - reflexivity.
  - vm_compute. reflexivity.
Defined.

Lemma tryAppResult_Throw_inv {A} (k : M A) w e w' :
  tryAppResult k w = (Throw e, w') ->
  instanceof_AppError e = false /\ k w = (Throw e, w').
Proof.
  unfold tryAppResult, try_catch, bind, ret.
  destruct (k w) as [[a|[msg| | | |]] w0]; simpl; try discriminate;
    intros [= <- <-]; auto.
Qed.

(** X25.  No command lets an [AppError] out: whatever a command throws is
    an error of another kind, the one its body threw.  So it is for [new],
    [show], [summarize], [gen-short-descriptions], [config-set],
    [config-reset] and [config-show]. *)
Theorem commands_throw_no_AppError (JSON_stringify : json -> string)
    (Date_getTime : string -> option Z) (toUTCString : Z -> string)
    (clock : nat -> Z)
    (chat : list chat_request -> chat_request -> chat_response)
    (argv : Argv) (w w' : world) (e : error) :
  ((exists task tags_option,
       command_new JSON_stringify Date_getTime toUTCString clock chat argv
         task tags_option w = (Throw e, w'))
   \/ (exists recency_arg tags_option short,
         command_show Date_getTime clock argv recency_arg tags_option short w
         = (Throw e, w'))
   \/ (exists duration,
         command_summarize Date_getTime clock chat argv duration w
         = (Throw e, w'))
   \/ command_gen_short_descriptions JSON_stringify chat argv w
      = (Throw e, w')
   \/ (exists key val,
         command_config_set JSON_stringify argv key val w = (Throw e, w'))
   \/ command_config_reset JSON_stringify argv w = (Throw e, w')
   \/ command_config_show argv w = (Throw e, w')) ->
  instanceof_AppError e = false.
Proof.
  intros [(? & ? & H) | [(? & ? & ? & H) | [(? & H) | [H | [(? & ? & H)
          | [H | H]]]]]];
    now apply tryAppResult_Throw_inv in H.
Qed.

Lemma commands_throw_no_AppError_witness :
  instanceof_AppError (FileNotFound (get_tasks_filepath Sample.argv)) = false.
Proof.
  apply (commands_throw_no_AppError Sample.JSON_stringify Sample.Date_getTime
           Sample.toUTCString Sample.clock Sample.chat_answers Sample.argv
           Sample.uninitialized Sample.uninitialized).
  right; left. exists None, EmptyString, false. vm_compute. reflexivity.
Defined.

(** ** When [parseDuration] returns *)

Lemma TimeUnit_schema_Some (s : string) (u : TimeUnit) :
  TimeUnit_schema (JString s) = Some u <-> s = TimeUnit_name u.
Proof.
  split; [|intros ->; apply TimeUnit_schema_name].
  unfold TimeUnit_schema.
  repeat match goal with
         | |- context [String.eqb s ?lit] =>
             destruct (String.eqb_spec s lit) as [-> | _];
             [now intros [= <-] |]
         end.
  discriminate.
Qed.

(** X6.  [parseDuration] returns a duration exactly when the input, once
    trimmed, has two tokens whose first is JSON text for the count and
    whose second is the literal of the unit ([min], [hour], [day], [week]
    or [year]).  The two tokens are those of the split at spaces when it
    gives two; the split at periods is looked at only when it does not.
    Any JSON number is taken as a count, negative ones and zero too. *)
Theorem parseDuration_returns_iff (s : string) (d : Duration) :
  parseDuration s = Return d
  <-> exists ss0,
        (JsString.split " " (JsString.trim s)
         = [ss0; TimeUnit_name (unit d)]
         \/ (length (JsString.split " " (JsString.trim s)) <> 2%nat
             /\ JsString.split "." (JsString.trim s)
                = [ss0; TimeUnit_name (unit d)]))
        /\ JSON_parse ss0 = Some (JNumber (n d)).
Proof.
  rewrite parseDuration_Return. split.
  - intros (ss0 & ss1 & Hsplit & Hnum & Hunit).
    apply TimeUnit_schema_Some in Hunit. subst ss1. eauto.
  - intros (ss0 & Hsplit & Hnum).
    exists ss0, (TimeUnit_name (unit d)). split_and!; try assumption.
    apply TimeUnit_schema_name.
Qed.

Example parseDuration_negative_ex :
  parseDuration "-3.5 week" = Return {| n := -3.5; unit := Week |}
  /\ parseDuration "0.year" = Return {| n := 0; unit := Year |}
  /\ parseDuration "1e3 min" = Return {| n := 1000; unit := Min |}.
Proof. vm_compute. auto. Qed.
